(** * lightdm-another-gtk-greeter-settings: the option engine of
      [src/application/main.py], embedded and checked against its specification.

    The development follows the layout of the Python module:
    - Python values, [to_bool], [str] and [int] on integers;
    - the signal table of the toolkit and [block_signals];
    - [OptionWrapper] and its subclasses (bindings, handlers, value accessors);
    - the [configparser.ConfigParser] store the application reads and writes;
    - [Application.read], [Application.save] and the dialog buttons. *)

From Stdlib Require Import ZArith Ascii String.
From stdpp Require Import gmap strings list fin_maps.

Local Open Scope string_scope.
Local Open Scope Z_scope.

(** ** Python values and exceptions *)

(** The values that flow through the option engine: registry defaults are
    [bool], [int] or [str]; a stored value is a [str], or [None] for a key
    written without a value ([allow_no_value=True]). *)
Inductive pyval : Type :=
  | VNone
  | VBool (b : bool)
  | VInt (z : Z)
  | VStr (s : string).

#[global] Instance pyval_eq_dec : EqDecision pyval.
Proof. solve_decision. Defined.

(** The exceptions the module can raise or let through. *)
Inductive exn : Type :=
  | NotImplementedError
  | AttributeError
  | TypeError
  | ValueError
  | KeyError (key : string)
  | NoSectionError (section : string)
  | NoOptionError (option_ section : string)
  | DuplicateSectionError (section : string)
  | InterpolationSyntaxError (option_ section : string)
  | InterpolationMissingOptionError (option_ section : string)
  | InterpolationDepthError (option_ section : string)
  | ParsingError
  | OSError (msg : string).

#[global] Instance exn_eq_dec : EqDecision exn.
Proof. solve_decision. Defined.

(** [bool(v)]: Python truthiness. *)
Definition py_bool (v : pyval) : bool :=
  match v with
  | VNone => false
  | VBool b => b
  | VInt z => negb (z =? 0)
  | VStr s => negb (String.eqb s "")
  end.

(** [v == w] on the values above ([True == 1] and [False == 0] in Python). *)
Definition py_eq (v w : pyval) : bool :=
  match v, w with
  | VNone, VNone => true
  | VStr s, VStr t => String.eqb s t
  | VBool a, VBool b => Bool.eqb a b
  | VInt a, VInt b => a =? b
  | VBool a, VInt b | VInt b, VBool a => (if a then 1 else 0) =? b
  | _, _ => false
  end.

(** ** [str.lower] and [to_bool] *)

Definition ascii_lower (c : ascii) : ascii :=
  let n := nat_of_ascii c in
  if ((65 <=? n) && (n <=? 90))%nat then ascii_of_nat (n + 32) else c.

(** [s.lower()] on the ASCII letters.  No character outside ASCII lowers to
    a letter of the five words below, so membership in that set is decided
    exactly. *)
Fixpoint lower (s : string) : string :=
  match s with
  | EmptyString => EmptyString
  | String c s' => String (ascii_lower c) (lower s')
  end.

Definition true_words : list string := ["1"; "true"; "yes"; "on"; "enabled"].

(** [to_bool(s)]:
    [s.lower() in {'1','true','yes','on','enabled'} if type(s) is str else bool(s)] *)
Definition to_bool (s : pyval) : bool :=
  match s with
  | VStr t => bool_decide (lower t ∈ true_words)
  | _ => py_bool s
  end.

(** [int(b)] on a boolean. *)
Definition int_of_bool (b : bool) : Z := if b then 1 else 0.

(** ** [str(n)] and [int(s)] on integers *)

Definition digit_char (d : Z) : ascii := ascii_of_nat (48 + Z.to_nat d).

(** Decimal digits of [n >= 0], most significant first, pushed in front of
    [acc]; [fuel] bounds the number of digits. *)
Fixpoint str_digits (fuel : nat) (n : Z) (acc : string) : string :=
  match fuel with
  | O => acc
  | S fuel' =>
      let acc' := String (digit_char (n mod 10)) acc in
      if n <? 10 then acc' else str_digits fuel' (n / 10) acc'
  end.

Definition str_nat (n : Z) : string :=
  str_digits (S (Z.to_nat (Z.log2 n))) n "".

(** [str(z)] for an [int]. *)
Definition str_int (z : Z) : string :=
  if z <? 0 then String "-" (str_nat (- z)) else str_nat z.

(** [str(v)]. *)
Definition py_str (v : pyval) : string :=
  match v with
  | VNone => "None"
  | VBool true => "True"
  | VBool false => "False"
  | VInt z => str_int z
  | VStr s => s
  end.

(** The whitespace [int] skips around an ASCII literal: tab, line feed,
    vertical tab, form feed, carriage return and the space. *)
Definition is_space (c : ascii) : bool :=
  let n := nat_of_ascii c in
  (((9 <=? n) && (n <=? 13)) || (n =? 32))%nat.

Fixpoint lstrip (s : string) : string :=
  match s with
  | String c s' => if is_space c then lstrip s' else s
  | EmptyString => EmptyString
  end.

Fixpoint rstrip (s : string) : string :=
  match s with
  | EmptyString => EmptyString
  | String c s' =>
      match rstrip s' with
      | EmptyString => if is_space c then EmptyString else String c EmptyString
      | r => String c r
      end
  end.

Definition digit_val (c : ascii) : option Z :=
  let n := Z.of_nat (nat_of_ascii c) in
  if (48 <=? n) && (n <=? 57) then Some (n - 48)
  else if (97 <=? n) && (n <=? 122) then Some (n - 87)
  else if (65 <=? n) && (n <=? 90) then Some (n - 55)
  else None.

(** The digit part of an integer literal: [digit (["_"] digit)*].
    [us_ok] tells whether an underscore may come next, [end_ok] whether the
    literal may stop here. *)
Fixpoint int_digits (base acc : Z) (us_ok end_ok : bool) (s : string) : option Z :=
  match s with
  | EmptyString => if end_ok then Some acc else None
  | String c s' =>
      if Ascii.eqb c "_"
      then if us_ok then int_digits base acc false false s' else None
      else match digit_val c with
           | Some d => if d <? base then int_digits base (acc * base + d) true true s'
                       else None
           | None => None
           end
  end.

(** After the sign: for base 16 an optional [0x]/[0X] prefix, after which
    one underscore is allowed. *)
Definition int_unsigned (base : Z) (s : string) : option Z :=
  match s with
  | String "0" (String x s') =>
      if (base =? 16) && (Ascii.eqb x "x" || Ascii.eqb x "X")
      then int_digits base 0 true false s'
      else int_digits base 0 false false s
  | _ => int_digits base 0 false false s
  end.

(** [int(s, base)] for [base] 10 or 16 on a string of ASCII characters;
    [None] stands for [ValueError].  The digits and the whitespace that
    [int] takes from the rest of Unicode are not modelled: what is stated of
    [int_str] on an arbitrary text is stated of ASCII texts only. *)
Definition int_str (base : Z) (s : string) : option Z :=
  match rstrip (lstrip s) with
  | String "-" s' => Z.opp <$> int_unsigned base s'
  | String "+" s' => int_unsigned base s'
  | s' => int_unsigned base s'
  end.

(** [int(v)]. *)
Definition py_int (v : pyval) : exn + Z :=
  match v with
  | VNone => inl TypeError
  | VBool b => inr (int_of_bool b)
  | VInt z => inr z
  | VStr s => match int_str 10 s with Some z => inr z | None => inl ValueError end
  end.

(** Predicates on the characters of a string, used to describe what
    [str_int] prints. *)
Definition is_digit (c : ascii) : bool :=
  let n := nat_of_ascii c in ((48 <=? n) && (n <=? 57))%nat.

Definition not_space (c : ascii) : bool := negb (is_space c).

Fixpoint all_chars (P : ascii → bool) (s : string) : bool :=
  match s with
  | EmptyString => true
  | String c s' => P c && all_chars P s'
  end.

(** ** Effects: state and exceptions

    A method of the module is a function of the application state that
    returns a value or raises, and leaves a state behind in both cases:
    what was mutated before a [raise] stays mutated. *)

Inductive outcome (A : Type) : Type :=
  | Return (a : A)
  | Raise (e : exn).
Arguments Return {A} a.
Arguments Raise {A} e.

Definition M (St A : Type) : Type := St → outcome A * St.

#[global] Instance M_ret {St} : MRet (M St) := λ A x s, (Return x, s).
#[global] Instance M_bind {St} : MBind (M St) := λ A B k m s,
  match m s with
  | (Return x, s') => k x s'
  | (Raise e, s') => (Raise e, s')
  end.

Definition gets {St A} (f : St → A) : M St A := λ s, (Return (f s), s).
Definition modify {St} (f : St → St) : M St unit := λ s, (Return tt, f s).
Definition raise {St A} (e : exn) : M St A := λ s, (Raise e, s).

(** [for x in l: body(x)] *)
Fixpoint for_each {St A} (l : list A) (body : A → M St unit) : M St unit :=
  match l with
  | [] => mret tt
  | x :: l' => _ ← body x; for_each l' body
  end.

(** Lifting a pure, fallible computation. *)
Definition lift {St A} (r : exn + A) : M St A :=
  match r with inl e => raise e | inr x => mret x end.

(** A handler called by the toolkit: PyGObject reports an exception the
    handler raises and does not pass it on to the code that emitted the
    signal. *)
Definition swallow {St A} (m : M St A) : M St unit :=
  λ s, match m s with
       | (Return _, s') => (Return tt, s')
       | (Raise _, s') => (Return tt, s')
       end.

(** ** The control surface

    One record stands for every Gtk widget the options use; an option reads
    and writes only the properties its kind has. *)
Record Widget : Type := {
  active : bool;        (* props.active of a toggle or switch *)
  text : pyval;         (* props.text of an entry *)
  filename : pyval;     (* selection of a file chooser, None when empty *)
  color : string;       (* props.color of a color button, as to_string() prints it *)
  font_name : pyval;    (* props.font_name of a font button *)
  sensitive : bool;     (* props.sensitive *)
  is_switch : bool      (* isinstance(widget, Gtk.Switch) *)
}.

Definition with_active (v : bool) (w : Widget) : Widget :=
  {| active := v; text := text w; filename := filename w; color := color w;
     font_name := font_name w; sensitive := sensitive w; is_switch := is_switch w |}.
Definition with_text (v : pyval) (w : Widget) : Widget :=
  {| active := active w; text := v; filename := filename w; color := color w;
     font_name := font_name w; sensitive := sensitive w; is_switch := is_switch w |}.
Definition with_filename (v : pyval) (w : Widget) : Widget :=
  {| active := active w; text := text w; filename := v; color := color w;
     font_name := font_name w; sensitive := sensitive w; is_switch := is_switch w |}.
Definition with_color (v : string) (w : Widget) : Widget :=
  {| active := active w; text := text w; filename := filename w; color := v;
     font_name := font_name w; sensitive := sensitive w; is_switch := is_switch w |}.
Definition with_font_name (v : pyval) (w : Widget) : Widget :=
  {| active := active w; text := text w; filename := filename w; color := color w;
     font_name := v; sensitive := sensitive w; is_switch := is_switch w |}.
Definition with_sensitive (v : bool) (w : Widget) : Widget :=
  {| active := active w; text := text w; filename := filename w; color := color w;
     font_name := font_name w; sensitive := v; is_switch := is_switch w |}.

#[global] Instance Widget_eq_dec : EqDecision Widget.
Proof. solve_decision. Defined.

(** The label of an option: a toggle whose font shows the dirty state. *)
Record Label : Type := {
  label_active : bool;
  label_font : string
}.

#[global] Instance Label_eq_dec : EqDecision Label.
Proof. solve_decision. Defined.

(** A row of [indicators_model], with the columns of [IndicatorOption.Model]. *)
Record Row : Type := {
  NAME : string;
  DISPLAY_NAME : string;
  ENABLED : bool;
  INCONSISTENT : bool;
  PAGE : Z
}.

Definition with_ENABLED (v : bool) (r : Row) : Row :=
  {| NAME := NAME r; DISPLAY_NAME := DISPLAY_NAME r; ENABLED := v;
     INCONSISTENT := INCONSISTENT r; PAGE := PAGE r |}.
Definition with_INCONSISTENT (v : bool) (r : Row) : Row :=
  {| NAME := NAME r; DISPLAY_NAME := DISPLAY_NAME r; ENABLED := ENABLED r;
     INCONSISTENT := v; PAGE := PAGE r |}.

#[global] Instance Row_eq_dec : EqDecision Row.
Proof. solve_decision. Defined.

(** What a signal passes to its handlers: nothing the handlers look at, the
    [param] of a [notify], or the row (path, iterator) of a model signal. *)
Inductive sigargs : Type :=
  | NoArgs
  | Param (name : string)
  | RowRef (path : nat).

(** ** Option wrappers *)

Inductive Klass : Type :=
  | BooleanOption | StringOption | IntegerOption | ChoiceOption | FontOption
  | PathOption | BackgroundOption | IconOption | FontScaleOption | OSKOption
  | IndicatorOption.

#[global] Instance Klass_eq_dec : EqDecision Klass.
Proof. solve_decision. Defined.

(** The attributes of an [OptionWrapper] instance.  [_widgets] holds the
    Gtk widgets of the option by role (the label is popped out of it by
    [__init__]); the list model and the cell renderer of an
    [IndicatorOption] are no [Gtk.Widget] and live in the application.
    [_row] is the row an [IndicatorOption] found for its page. *)
Record OptionWrapper : Type := {
  klass : Klass;
  _changed : bool;
  _enabled : bool;
  _default : pyval;
  _label : option Label;
  _widgets : gmap string Widget;
  _prefs : gmap string string;
  _row : nat
}.

Definition with_changed (v : bool) (o : OptionWrapper) : OptionWrapper :=
  {| klass := klass o; _changed := v; _enabled := _enabled o; _default := _default o;
     _label := _label o; _widgets := _widgets o; _prefs := _prefs o; _row := _row o |}.
Definition with_enabled (v : bool) (o : OptionWrapper) : OptionWrapper :=
  {| klass := klass o; _changed := _changed o; _enabled := v; _default := _default o;
     _label := _label o; _widgets := _widgets o; _prefs := _prefs o; _row := _row o |}.
Definition with_default (v : pyval) (o : OptionWrapper) : OptionWrapper :=
  {| klass := klass o; _changed := _changed o; _enabled := _enabled o; _default := v;
     _label := _label o; _widgets := _widgets o; _prefs := _prefs o; _row := _row o |}.
Definition with_label (v : option Label) (o : OptionWrapper) : OptionWrapper :=
  {| klass := klass o; _changed := _changed o; _enabled := _enabled o;
     _default := _default o; _label := v; _widgets := _widgets o; _prefs := _prefs o;
     _row := _row o |}.
Definition with_widgets (v : gmap string Widget) (o : OptionWrapper) : OptionWrapper :=
  {| klass := klass o; _changed := _changed o; _enabled := _enabled o;
     _default := _default o; _label := _label o; _widgets := v; _prefs := _prefs o;
     _row := _row o |}.

(** [modify_font(Pango.FontDescription(font))] on the label, when there is one. *)
Definition modify_font (font : string) (o : OptionWrapper) : OptionWrapper :=
  with_label ((λ l, {| label_active := label_active l; label_font := font |}) <$> _label o) o.

Definition set_label_active (v : bool) (o : OptionWrapper) : OptionWrapper :=
  with_label ((λ l, {| label_active := v; label_font := label_font l |}) <$> _label o) o.

(** [Application.OptionPath] *)
Record OptionPath : Type := { section : string; key : string }.

#[global] Instance OptionPath_eq_dec : EqDecision OptionPath.
Proof. solve_decision. Defined.


(** ** The store: [configparser.ConfigParser(allow_no_value=True)]

    The parser keeps the keys of [DEFAULT] apart from the named sections; a
    key written without a value holds [None].  The order of sections and
    keys plays no part in what follows, so both levels are finite maps. *)
Record ConfigParser : Type := {
  _defaults : gmap string (option string);
  _sections : gmap string (gmap string (option string))
}.

Definition default_section : string := "DEFAULT".

(** [optionxform]: option names are lower-cased. *)
Definition optionxform (optionstr : string) : string := lower optionstr.

Definition rmap {A B} (f : A → B) (r : exn + A) : exn + B :=
  match r with inl e => inl e | inr x => inr (f x) end.
Definition rbind {A B} (r : exn + A) (k : A → exn + B) : exn + B :=
  match r with inl e => inl e | inr x => k x end.

Fixpoint contains (c : ascii) (s : string) : bool :=
  match s with
  | EmptyString => false
  | String c' s' => Ascii.eqb c c' || contains c s'
  end.

(** *** [BasicInterpolation], the interpolation a [ConfigParser] has by default *)

Section BasicInterpolation.
(** [map]: the keys of the section chained with those of [DEFAULT]. *)
Variable map : gmap string (option string).
Variables option_ section_ : string.

(** [_interpolate_some]; [fuel] counts the depths left before
    [MAX_INTERPOLATION_DEPTH] is exceeded.  [loop] is the [while rest]
    loop; its [key] is [Some name] while the match of
    [_KEYCRE = %\(([^)]+)\)s] is reading a name after ["%("]. *)
Fixpoint _interpolate_some (fuel : nat) (rest : string) : exn + string :=
  match fuel with
  | O => inl (InterpolationDepthError option_ section_)
  | S fuel' =>
      (fix loop (key : option string) (rest : string) : exn + string :=
         match rest with
         | EmptyString =>
             match key with
             | None => inr EmptyString
             | Some _ => inl (InterpolationSyntaxError option_ section_)
             end
         | String c r =>
             match key with
             | None =>
                 if negb (Ascii.eqb c "%") then rmap (String c) (loop None r)
                 else match r with
                      | String c2 r2 =>
                          if Ascii.eqb c2 "%" then rmap (String "%"%char) (loop None r2)
                          else if Ascii.eqb c2 "(" then loop (Some EmptyString) r2
                          else inl (InterpolationSyntaxError option_ section_)
                      | EmptyString => inl (InterpolationSyntaxError option_ section_)
                      end
             | Some name =>
                 if negb (Ascii.eqb c ")")
                 then loop (Some (name +:+ String c EmptyString)) r
                 else match name, r with
                      | String _ _, String c2 r2 =>
                          if Ascii.eqb c2 "s" then
                            match map !! optionxform name with
                            | None =>
                                inl (InterpolationMissingOptionError option_ section_)
                            | Some None => inl TypeError
                            | Some (Some v) =>
                                rbind (if contains "%" v then _interpolate_some fuel' v
                                       else inr v)
                                  (λ v', rmap (String.append v') (loop None r2))
                            end
                          else inl (InterpolationSyntaxError option_ section_)
                      | _, _ => inl (InterpolationSyntaxError option_ section_)
                      end
             end
         end) None rest
  end.

Definition MAX_INTERPOLATION_DEPTH : nat := 10.

Definition before_get (value : string) : exn + string :=
  _interpolate_some MAX_INTERPOLATION_DEPTH value.
End BasicInterpolation.

(** [value.replace('%%', '')] *)
Fixpoint replace_pp (s : string) : string :=
  match s with
  | EmptyString => EmptyString
  | String c r =>
      match r with
      | String c2 r2 =>
          if Ascii.eqb c "%" && Ascii.eqb c2 "%" then replace_pp r2
          else String c (replace_pp r)
      | EmptyString => s
      end
  end.

(** The length of the match of [_KEYCRE] at the start of [s], if it matches. *)
Fixpoint key_end (s : string) (n : nat) (seen : bool) : option nat :=
  match s with
  | EmptyString => None
  | String c r =>
      if negb (Ascii.eqb c ")") then key_end r (S n) true
      else match r with
           | String c2 _ => if seen && Ascii.eqb c2 "s" then Some (n + 2)%nat else None
           | EmptyString => None
           end
  end.

Definition key_match (s : string) : option nat :=
  match s with
  | String c (String c2 r) =>
      if Ascii.eqb c "%" && Ascii.eqb c2 "(" then key_end r 2 false else None
  | _ => None
  end.

(** [_KEYCRE.sub('', s)]: [skip] characters of a match are still to drop. *)
Fixpoint sub_keys (skip : nat) (s : string) : string :=
  match s with
  | EmptyString => EmptyString
  | String c r =>
      match skip with
      | S k => sub_keys k r
      | O => match key_match s with
             | Some n => sub_keys (Nat.pred n) r
             | None => String c (sub_keys O r)
             end
      end
  end.

Definition before_set (value : string) : exn + string :=
  if contains "%" (sub_keys O (replace_pp value)) then inl ValueError else inr value.

(** *** The parser's methods *)

Definition with_sections (v : gmap string (gmap string (option string)))
    (cp : ConfigParser) : ConfigParser :=
  {| _defaults := _defaults cp; _sections := v |}.
Definition with_defaults (v : gmap string (option string)) (cp : ConfigParser) : ConfigParser :=
  {| _defaults := v; _sections := _sections cp |}.

Definition is_default (section : string) : bool :=
  String.eqb section "" || String.eqb section default_section.

Definition has_section (cp : ConfigParser) (section : string) : bool :=
  bool_decide (is_Some (_sections cp !! section)).

Definition has_option (cp : ConfigParser) (section option_ : string) : bool :=
  if is_default section then bool_decide (is_Some (_defaults cp !! optionxform option_))
  else match _sections cp !! section with
       | None => false
       | Some d => bool_decide (is_Some (d !! optionxform option_))
                   || bool_decide (is_Some (_defaults cp !! optionxform option_))
       end.

Definition add_section (cp : ConfigParser) (section : string) : exn + ConfigParser :=
  if String.eqb section default_section then inl ValueError
  else if has_section cp section then inl (DuplicateSectionError section)
  else inr (with_sections (<[section := ∅]> (_sections cp)) cp).

(** [_unify_values]: the section's own keys; [DEFAULT] may have no dict of
    its own; any other missing section is a [NoSectionError]. *)
Definition sectiondict (cp : ConfigParser) (section : string)
    : exn + gmap string (option string) :=
  match _sections cp !! section with
  | Some d => inr d
  | None => if String.eqb section default_section then inr ∅
            else inl (NoSectionError section)
  end.

(** [parser.get(section, option)] *)
Definition cp_get (cp : ConfigParser) (section option_ : string) : exn + option string :=
  rbind (sectiondict cp section) (λ d,
    let unified := d ∪ _defaults cp in
    match unified !! optionxform option_ with
    | None => inl (NoOptionError option_ section)
    | Some None => inr None
    | Some (Some value) => rmap Some (before_get unified option_ section value)
    end).

(** [parser[section][key]] *)
Definition getitem (cp : ConfigParser) (section key : string) : exn + option string :=
  if negb (String.eqb section default_section) && negb (has_section cp section)
  then inl (KeyError section)
  else if negb (has_option cp section key) then inl (KeyError key)
  else cp_get cp section key.

(** [parser.set(section, option, value)] with a [str] value. *)
Definition cp_set (cp : ConfigParser) (section option_ value : string) : exn + ConfigParser :=
  rbind (if String.eqb value "" then inr value else before_set value) (λ value,
    if is_default section
    then inr (with_defaults (<[optionxform option_ := Some value]> (_defaults cp)) cp)
    else match _sections cp !! section with
         | None => inl (NoSectionError section)
         | Some d =>
             inr (with_sections
                    (<[section := <[optionxform option_ := Some value]> d]> (_sections cp)) cp)
         end).

(** [parser.remove_option(section, option)]; the flag tells whether the
    option existed. *)
Definition remove_option (cp : ConfigParser) (section option_ : string)
    : exn + (bool * ConfigParser) :=
  if is_default section
  then inr (bool_decide (is_Some (_defaults cp !! optionxform option_)),
            with_defaults (delete (optionxform option_) (_defaults cp)) cp)
  else match _sections cp !! section with
       | None => inl (NoSectionError section)
       | Some d =>
           inr (bool_decide (is_Some (d !! optionxform option_)),
                with_sections (<[section := delete (optionxform option_) d]> (_sections cp)) cp)
       end.

(** [iter(parser)]: [DEFAULT], then the sections. *)
Definition cp_iter (cp : ConfigParser) : list string :=
  default_section :: (map_to_list (_sections cp)).*1.

(** [len(parser[section])], the number of option names [options(section)]
    lists: the section's own and those of [DEFAULT]. *)
Definition proxy_len (cp : ConfigParser) (section : string) : nat :=
  if String.eqb section default_section then size (_defaults cp)
  else size (default ∅ (_sections cp !! section) ∪ _defaults cp).

(** [del parser[section]] *)
Definition delitem (cp : ConfigParser) (section : string) : exn + ConfigParser :=
  if String.eqb section default_section then inl ValueError
  else if negb (has_section cp section) then inl (KeyError section)
  else inr (with_sections (delete section (_sections cp)) cp).

(** ** The application state *)

(** [handlers] is the toolkit's table of connected signal handlers: for a
    widget (the option that owns it and its role; for the shared indicator
    model and renderer, the option whose bound method is connected) and a
    handler name, how many times the handler is blocked.  [shown_errors]
    and [written] log the error dialogs shown and the stores written to the
    output file; [main_running] tells whether [Gtk.main()] still runs. *)
Record Application : Type := {
  options : list (OptionWrapper * OptionPath);
  indicators_model : list Row;
  handlers : gmap (nat * string * string) nat;
  config : ConfigParser;
  shown_errors : list exn;
  written : list ConfigParser;
  main_running : bool
}.

Definition with_options (v : list (OptionWrapper * OptionPath)) (a : Application) :=
  {| options := v; indicators_model := indicators_model a; handlers := handlers a;
     config := config a; shown_errors := shown_errors a; written := written a;
     main_running := main_running a |}.
Definition with_model (v : list Row) (a : Application) :=
  {| options := options a; indicators_model := v; handlers := handlers a;
     config := config a; shown_errors := shown_errors a; written := written a;
     main_running := main_running a |}.
Definition with_handlers (v : gmap (nat * string * string) nat) (a : Application) :=
  {| options := options a; indicators_model := indicators_model a; handlers := v;
     config := config a; shown_errors := shown_errors a; written := written a;
     main_running := main_running a |}.
Definition with_config (v : ConfigParser) (a : Application) :=
  {| options := options a; indicators_model := indicators_model a;
     handlers := handlers a; config := v; shown_errors := shown_errors a;
     written := written a; main_running := main_running a |}.
Definition with_shown_errors (v : list exn) (a : Application) :=
  {| options := options a; indicators_model := indicators_model a;
     handlers := handlers a; config := config a; shown_errors := v;
     written := written a; main_running := main_running a |}.
Definition with_written (v : list ConfigParser) (a : Application) :=
  {| options := options a; indicators_model := indicators_model a;
     handlers := handlers a; config := config a; shown_errors := shown_errors a;
     written := v; main_running := main_running a |}.
Definition with_main_running (v : bool) (a : Application) :=
  {| options := options a; indicators_model := indicators_model a;
     handlers := handlers a; config := config a; shown_errors := shown_errors a;
     written := written a; main_running := v |}.

(** What the module takes from its platform: which signals Gtk emits when
    a property is written by the program ([emits signal differs], where
    [differs] tells whether the written value is a new one), and the
    library functions whose results are not computed here. *)
Record Platform : Type := {
  emits : string → bool → bool;
  color_parse : string → option string;      (* Gdk.color_parse, None: ValueError *)
  abspath_join : string → string → string;   (* os.path.abspath(os.path.join(d, v)) *)
  relpath : string → string → string;        (* os.path.relpath(filename, d) *)
  float_str : string → option string         (* str(float(text)), None: ValueError *)
}.

(** [BindingTuple]: [widget] is the widget object, [change] the flag that
    makes [block_signals] block the handler. *)
Record BindingTuple : Type := {
  widget : nat * string;
  signal : string;
  handler : string;
  change : bool
}.

(** The class attribute [WidgetsBinding] of each subclass, as
    [(name, signal, handler, *block)]; [BooleanOption._bind] replaces it
    when the widget is a [Gtk.Switch]; [ChoiceOption] has none. *)
Definition WidgetsBinding (k : Klass) (switch : bool)
    : option (list (string * string * string * list bool)) :=
  match k with
  | BooleanOption =>
      if switch then Some [("", "notify", "_on_notify_active_signal", [true])]
      else Some [("", "toggled", "", [])]
  | StringOption | IntegerOption => Some [("", "changed", "", [])]
  | ChoiceOption => None
  | FontOption => Some [("", "font-set", "", [])]
  | PathOption => Some [("", "file-set", "", [])]
  | BackgroundOption =>
      Some [("file", "file-set", "_on_file_changed", []);
            ("color", "color-set", "_on_color_changed", []);
            ("is_file", "toggled", "", [])]
  | IconOption =>
      Some [("file", "file-set", "_on_file_changed", []);
            ("icon", "changed", "_on_icon_changed", []);
            ("is_file", "toggled", "", [])]
  | FontScaleOption => Some [("use", "toggled", "", []); ("scale", "changed", "", [])]
  | OSKOption => Some [("use_onboard", "toggled", "", []); ("command", "changed", "", [])]
  | IndicatorOption =>
      Some [("", "row-changed", "_on_row_changed", []);
            ("toggle", "toggled", "_on_toggled", [])]
  end.

(** One item of [self._signals], as [_bind] builds it:
    [BindingTuple(self._widgets[name], signal,
                  getattr(self, handler) if handler else self._on_change,
                  (not handler and not block) or (block and block[0]))] *)
Definition bind_item (i : nat) (item : string * string * string * list bool) : BindingTuple :=
  let '(name, signal_, handler_, block) := item in
  {| widget := (i, name);
     signal := signal_;
     handler := if String.eqb handler_ "" then "_on_change" else handler_;
     change := (String.eqb handler_ "" && bool_decide (block = []))
               || match block with b :: _ => b | [] => false end |}.

(** [self._signals] of the option at index [i]; [None] when the class has
    no [WidgetsBinding] and the attribute is never set. *)
Definition _signals (i : nat) (o : OptionWrapper) : option (list BindingTuple) :=
  map (bind_item i)
    <$> WidgetsBinding (klass o) (from_option is_switch false (_widgets o !! "")).

(** The registry [OPTIONS], as [(section, key, class, default, prefs)]. *)
Definition INDICATOR (page : string) : gmap string string := {[ "page" := page ]}.
Definition GREETER_DATA : gmap string string := {[ "current_dir" := "{greeter-data}" ]}.

Definition OPTIONS : list (string * string * Klass * pyval * gmap string string) :=
  [ ("appearance", "theme-name", StringOption, VStr "default", ∅);
    ("appearance", "icon-theme-name", StringOption, VStr "default", ∅);
    ("appearance", "background", BackgroundOption, VStr "", ∅);
    ("appearance", "ui-file", PathOption, VStr "", GREETER_DATA);
    ("appearance", "css-file", PathOption, VStr "", GREETER_DATA);
    ("appearance", "logo", IconOption, VStr "", ∅);
    ("appearance", "font-name", FontOption, VStr "", ∅);
    ("appearance", "xft-dpi", IntegerOption, VInt 96, ∅);
    ("appearance", "date-format", StringOption, VStr "", ∅);
    ("greeter", "allow-other-users", BooleanOption, VBool false, ∅);
    ("greeter", "show-language-selector", BooleanOption, VBool true, ∅);
    ("greeter", "show-session-icon", BooleanOption, VBool false, ∅);
    ("panel", "show-panel", BooleanOption, VBool true, ∅);
    ("panel", "panel-at-top", BooleanOption, VBool true, ∅);
    ("clock", "enabled", IndicatorOption, VBool true, INDICATOR "clock");
    ("clock", "date-format", StringOption, VStr "", ∅);
    ("clock", "time-format", StringOption, VStr "", ∅);
    ("clock", "show-calendar", BooleanOption, VBool true, ∅);
    ("layout", "enabled", IndicatorOption, VBool true, INDICATOR "layout");
    ("power", "enabled", IndicatorOption, VBool true, INDICATOR "power");
    ("power", "suspend-prompt", BooleanOption, VBool true, ∅);
    ("power", "hibernate-prompt", BooleanOption, VBool true, ∅);
    ("power", "restart-prompt", BooleanOption, VBool true, ∅);
    ("power", "shutdown-prompt", BooleanOption, VBool true, ∅);
    ("a11y", "enabled", IndicatorOption, VBool false, INDICATOR "a11y");
    ("a11y", "theme-name-contrast", StringOption, VStr "", ∅);
    ("a11y", "icon-theme-name-contrast", StringOption, VStr "", ∅);
    ("a11y", "font-scale", FontScaleOption, VStr "1.2", ∅);
    ("a11y", "osk", OSKOption, VStr "#onboard", ∅) ].

(** [OPTIONS[section][key][OPTION_INDEX.DEFAULT]] *)
Definition OPTIONS_default (p : OptionPath) : exn + pyval :=
  match List.find (λ '(s, k, _, _, _), String.eqb s (section p) && String.eqb k (key p))
                  OPTIONS with
  | Some (_, _, _, d, _) => inr d
  | None => inl (KeyError (key p))
  end.


(** ** The signal table and [block_signals] *)

(** [widget.handler_block_by_func(handler)] raises the block count of a
    connected handler, [handler_unblock_by_func] lowers it; on a handler
    that is not connected both do nothing (Gtk only warns). *)
Definition handler_block_by_func (w : nat * string) (h : string) : M Application unit :=
  modify (λ a, with_handlers (alter S (w, h) (handlers a)) a).
Definition handler_unblock_by_func (w : nat * string) (h : string) : M Application unit :=
  modify (λ a, with_handlers (alter Nat.pred (w, h) (handlers a)) a).

Definition block_all (widgets : list BindingTuple) : M Application unit :=
  for_each widgets (λ b,
    if change b then handler_block_by_func (widget b) (handler b) else mret tt).
Definition unblock_all (widgets : list BindingTuple) : M Application unit :=
  for_each widgets (λ b,
    if change b then handler_unblock_by_func (widget b) (handler b) else mret tt).

(** [block_signals(widgets, f, ...)]; [f] stands for the call of [f] on the
    arguments that follow it. *)
Definition block_signals {A} (widgets : list BindingTuple) (f : M Application A)
    : M Application A :=
  _ ← block_all widgets;
  result ← f;
  _ ← unblock_all widgets;
  mret result.

(** ** Accessors of the state *)

(** [self] for the option at index [i] of [Application.options]. *)
Definition get_option (i : nat) : M Application OptionWrapper :=
  λ a, match options a !! i with
       | Some (o, _) => (Return o, a)
       | None => (Raise AttributeError, a)
       end.

Definition get_path (i : nat) : M Application OptionPath :=
  λ a, match options a !! i with
       | Some (_, p) => (Return p, a)
       | None => (Raise AttributeError, a)
       end.

Definition update_option (i : nat) (f : OptionWrapper → OptionWrapper)
    : M Application unit :=
  modify (λ a, with_options (alter (prod_map f id) i (options a)) a).

(** [self._widgets[role]]; a widget missing from the interface is [None]
    and the first attribute access on it raises. *)
Definition get_widget (i : nat) (role : string) : M Application Widget :=
  o ← get_option i;
  match _widgets o !! role with
  | Some w => mret w
  | None => raise AttributeError
  end.

Definition put_widget (i : nat) (role : string) (w : Widget) : M Application unit :=
  update_option i (λ o, with_widgets (<[role := w]> (_widgets o)) o).

Definition get_row (r : nat) : M Application Row :=
  λ a, match indicators_model a !! r with
       | Some x => (Return x, a)
       | None => (Raise (KeyError "row"), a)
       end.

(** [prefs.get(name, '')] *)
Definition pref (o : OptionWrapper) (name : string) : string :=
  default "" (_prefs o !! name).

Definition startswith (p s : string) : bool := String.prefix p s.

(** [value[1:]] *)
Definition tail1 (s : string) : string :=
  match s with String _ r => r | EmptyString => EmptyString end.

(** [os.path.isabs] on a POSIX path. *)
Definition isabs (s : string) : bool := startswith "/" s.

Section Engine.
Context (pf : Platform).

Section Dispatch.
(** [run h i args]: the call of the bound method [h] of option [i] by
    the toolkit. *)
Variable run : string → nat → sigargs → M Application unit.

(** The signal [sig] of the widget [role] of option [i] is emitted:
    every handler [_bind] connected to it runs, unless blocked. *)
Definition emit_to (i : nat) (role sig : string) (args : sigargs)
    : M Application unit :=
  o ← get_option i;
  for_each (default [] (_signals i o)) (λ b,
    if String.eqb (widget b).2 role && String.eqb (signal b) sig then
      n ← gets (λ a, handlers a !! (widget b, handler b));
      match n with
      | Some O => swallow (run (handler b) i args)
      | _ => mret tt
      end
    else mret tt).

Definition emit (i : nat) (role sig : string) (args : sigargs) (differs : bool)
    : M Application unit :=
  if emits pf sig differs then emit_to i role sig args else mret tt.

(** A signal of the shared [indicators_model] or of its toggle renderer
    reaches the handlers of every [IndicatorOption]. *)
Definition emit_shared (role sig : string) (args : sigargs) (differs : bool)
    : M Application unit :=
  if emits pf sig differs then
    n ← gets (λ a, length (options a));
    for_each (seq 0 n) (λ j,
      o ← get_option j;
      match klass o with
      | IndicatorOption => emit_to j role sig args
      | _ => mret tt
      end)
  else mret tt.

(** *** Property writes, with the signals Gtk emits for them

    [file-set], [color-set] and [font-set] are emitted for a choice
    made by the user only, never for a write by the program. *)
Definition set_active (i : nat) (role : string) (v : bool) : M Application unit :=
  w ← get_widget i role;
  _ ← put_widget i role (with_active v w);
  _ ← emit i role "toggled" NoArgs (negb (Bool.eqb (active w) v));
  emit i role "notify" (Param "active") (negb (Bool.eqb (active w) v)).

Definition set_text (i : nat) (role : string) (v : pyval) : M Application unit :=
  w ← get_widget i role;
  _ ← put_widget i role (with_text v w);
  _ ← emit i role "changed" NoArgs (negb (bool_decide (text w = v)));
  emit i role "notify" (Param "text") (negb (bool_decide (text w = v))).

Definition set_sensitive (i : nat) (role : string) (v : bool) : M Application unit :=
  w ← get_widget i role;
  _ ← put_widget i role (with_sensitive v w);
  emit i role "notify" (Param "sensitive") (negb (Bool.eqb (sensitive w) v)).

Definition set_font_name (i : nat) (role : string) (v : pyval) : M Application unit :=
  w ← get_widget i role;
  _ ← put_widget i role (with_font_name v w);
  emit i role "notify" (Param "font-name") (negb (bool_decide (font_name w = v))).

Definition set_color (i : nat) (role : string) (v : string) : M Application unit :=
  w ← get_widget i role;
  _ ← put_widget i role (with_color v w);
  emit i role "notify" (Param "color") (negb (bool_decide (color w = v))).

Definition select_filename (i : nat) (role : string) (v : pyval) : M Application unit :=
  w ← get_widget i role;
  _ ← put_widget i role (with_filename v w);
  emit i role "selection-changed" NoArgs (negb (bool_decide (filename w = v))).

Definition unselect_all (i : nat) (role : string) : M Application unit :=
  select_filename i role VNone.

(** [self._row[column] = v] *)
Definition row_set (r : nat) (f : Row → Row) : M Application unit :=
  x ← get_row r;
  _ ← modify (λ a, with_model (<[r := f x]> (indicators_model a)) a);
  emit_shared "" "row-changed" (RowRef r) (negb (bool_decide (f x = x))).

(** [self._label.set_active(value)] *)
Definition label_set_active (i : nat) (v : bool) : M Application unit :=
  o ← get_option i;
  match _label o with
  | None => raise AttributeError
  | Some l =>
      _ ← update_option i (set_label_active v);
      if emits pf "toggled" (negb (Bool.eqb (label_active l) v)) then
        n ← gets (λ a, handlers a !! (i, "label", "_on_label_toggled"));
        match n with
        | Some O => swallow (run "_on_label_toggled" i NoArgs)
        | _ => mret tt
        end
      else mret tt
  end.

(** *** [OptionWrapper] *)

Definition touch (i : nat) : M Application unit :=
  update_option i (λ o, modify_font "bold" (with_changed true o)).

(** [OptionWrapper._set_enabled(value, block)] *)
Definition OptionWrapper_set_enabled (i : nat) (value block : bool)
    : M Application unit :=
  _ ← update_option i (with_enabled value);
  o ← get_option i;
  _ ← for_each (map_to_list (_widgets o)).*1 (λ role, set_sensitive i role value);
  if negb block && bool_decide (is_Some (_label o)) then
    block_signals
      [{| widget := (i, "label"); signal := ""; handler := "_on_label_toggled";
          change := true |}]
      (label_set_active i value)
  else mret tt.

(** [_set_enabled], with the override of [IndicatorOption]. *)
Definition _set_enabled (i : nat) (value block : bool) : M Application unit :=
  _ ← OptionWrapper_set_enabled i value block;
  o ← get_option i;
  match klass o with
  | IndicatorOption => row_set (_row o) (with_INCONSISTENT (negb value))
  | _ => mret tt
  end.

(** [_set_widget_value(value)] of each subclass. *)
Definition _set_widget_value (i : nat) (value : pyval) : M Application unit :=
  o ← get_option i;
  match klass o with
  | BooleanOption => set_active i "" (to_bool value)
  | StringOption => set_text i "" value
  | IntegerOption => set_text i "" (VStr (py_str value))
  | ChoiceOption => raise NotImplementedError
  | FontOption => set_font_name i "" value
  | PathOption =>
      if negb (py_bool value) then unselect_all i ""
      else match value with
           | VStr s =>
               select_filename i ""
                 (VStr (if isabs s then s
                        else abspath_join pf (pref o "current_dir") s))
           | _ => raise TypeError
           end
  | BackgroundOption =>
      match value with
      | VStr s =>
          let is_file := negb (startswith "#" s) in
          _ ← set_active i "is_file" is_file;
          _ ← set_active i "is_color" (negb is_file);
          _ ← (if negb (py_bool value) || negb is_file
               then unselect_all i "file" else mret tt);
          if is_file then select_filename i "file" value
          else
            let s' := match int_str 16 (tail1 s) with
                      | Some _ => s
                      | None => tail1 s
                      end in
            match color_parse pf s' with
            | Some c => set_color i "color" c
            | None => mret tt
            end
      | _ => raise AttributeError
      end
  | IconOption =>
      match value with
      | VStr s =>
          let is_file := negb (startswith "#" s) in
          _ ← set_active i "is_file" is_file;
          _ ← set_active i "is_icon" (negb is_file);
          _ ← (if negb (py_bool value) || negb is_file
               then unselect_all i "file" else mret tt);
          if is_file then select_filename i "file" value
          else set_text i "icon" (VStr (tail1 s))
      | _ => raise AttributeError
      end
  | FontScaleOption =>
      _ ← set_active i "use" (py_bool value);
      _ ← set_active i "disabled" (negb (py_bool value));
      if py_bool value then set_text i "scale" value else mret tt
  | OSKOption =>
      let use_onboard := py_eq value (VStr "#onboard") in
      _ ← set_active i "use_onboard" use_onboard;
      _ ← set_active i "use_command" (negb use_onboard);
      set_text i "command" (if negb use_onboard then value else VStr "")
  | IndicatorOption => row_set (_row o) (with_ENABLED (to_bool value))
  end.

(** The [value] setter, wrapped by [block_default_signals]:
    [block_signals(self._signals, f, self, value) if hasattr(self, '_signals')
     else f(self, value)] *)
Definition set_value (i : nat) (value : pyval) : M Application unit :=
  o ← get_option i;
  match _signals i o with
  | Some signals => block_signals signals (_set_widget_value i value)
  | None => _set_widget_value i value
  end.

Definition reset (i : nat) : M Application unit :=
  o ← get_option i;
  _ ← set_value i (_default o);
  update_option i (λ o, modify_font "normal" (with_changed false o)).

(** The [enabled] setter. *)
Definition set_enabled (i : nat) (value : bool) : M Application unit :=
  _set_enabled i value false.

Definition _on_label_toggled (i : nat) : M Application unit :=
  o ← get_option i;
  match _label o with
  | None => raise AttributeError
  | Some l => _ ← _set_enabled i (label_active l) true; touch i
  end.

(** [IndicatorOption._on_toggled(toggle, path)] *)
Definition _on_toggled (i : nat) (path : nat) : M Application unit :=
  o ← get_option i;
  if negb (Nat.eqb (_row o) path) then mret tt
  else
    x ← get_row (_row o);
    let state := (int_of_bool (ENABLED x) * 1 + int_of_bool (INCONSISTENT x) * 2 + 1)
                 mod 3 in
    _ ← row_set (_row o) (with_ENABLED (negb (state mod 2 =? 0)));
    _ ← row_set (_row o) (with_INCONSISTENT (1 <? state));
    _ ← update_option i (with_enabled (state <? 2));
    if 1 <? state then update_option i (with_changed false)
    else touch i.
End Dispatch.
End Engine.


(** ** The handlers, by name

    [getattr(self, handler)] is a lookup by name.  A handler that the
    toolkit calls while another handler writes a control is one of the
    three of [leaf_handler], which write no control themselves. *)
Section Handlers.
Context (pf : Platform).

(** [_on_change], [BooleanOption._on_notify_active_signal] and
    [IndicatorOption._on_row_changed]; the latter compares the row of the
    signal with [self._row]. *)
Definition leaf_handler (h : string) (i : nat) (args : sigargs) : M Application unit :=
  if String.eqb h "_on_change" then touch i
  else if String.eqb h "_on_notify_active_signal" then
    match args with
    | Param name => if String.eqb name "active" then touch i else mret tt
    | _ => mret tt
    end
  else if String.eqb h "_on_row_changed" then
    match args with
    | RowRef r => o ← get_option i; if Nat.eqb r (_row o) then touch i else mret tt
    | _ => mret tt
    end
  else mret tt.

Definition run_handler (h : string) (i : nat) (args : sigargs) : M Application unit :=
  if String.eqb h "_on_file_changed" then
    _ ← set_active pf leaf_handler i "is_file" true; touch i
  else if String.eqb h "_on_color_changed" then
    _ ← set_active pf leaf_handler i "is_color" true; touch i
  else if String.eqb h "_on_icon_changed" then
    _ ← set_active pf leaf_handler i "is_icon" true; touch i
  else if String.eqb h "_on_toggled" then
    match args with
    | RowRef path => _on_toggled pf leaf_handler i path
    | _ => mret tt
    end
  else if String.eqb h "_on_label_toggled" then _on_label_toggled pf leaf_handler i
  else leaf_handler h i args.

(** The user clicks the toggle of row [path] in the indicator list: the
    renderer emits [toggled] to every [IndicatorOption]. *)
Definition cell_toggled (path : nat) : M Application unit :=
  n ← gets (λ a, length (options a));
  for_each (seq 0 n) (λ j,
    o ← get_option j;
    match klass o with
    | IndicatorOption => emit_to run_handler j "toggle" "toggled" (RowRef path)
    | _ => mret tt
    end).

(** [_get_widget_value()] of each subclass.  The [float] a
    [FontScaleOption] returns is carried as the text [str] prints for it.
    [os.path.relpath] raises [ValueError] for a path that is [None] or
    empty, which is what a chooser with no file selected gives. *)
Definition _get_widget_value (i : nat) : M Application pyval :=
  o ← get_option i;
  match klass o with
  | BooleanOption => w ← get_widget i ""; mret (VInt (int_of_bool (active w)))
  | StringOption => w ← get_widget i ""; mret (text w)
  | IntegerOption => w ← get_widget i ""; z ← lift (py_int (text w)); mret (VInt z)
  | ChoiceOption => raise NotImplementedError
  | FontOption => w ← get_widget i ""; mret (font_name w)
  | PathOption =>
      w ← get_widget i "";
      if negb (py_bool (filename w)) then raise ValueError
      else match filename w with
           | VStr f =>
               let relative := relpath pf f (pref o "current_dir") in
               mret (VStr (if startswith ".." relative then f else relative))
           | _ => raise TypeError
           end
  | BackgroundOption =>
      is_file ← get_widget i "is_file";
      if active is_file then w ← get_widget i "file"; mret (filename w)
      else w ← get_widget i "color"; mret (VStr (color w))
  | IconOption =>
      is_file ← get_widget i "is_file";
      if active is_file then w ← get_widget i "file"; mret (filename w)
      else
        w ← get_widget i "icon";
        match text w with
        | VStr t => mret (VStr (if String.eqb t "" then "" else "#" +:+ t))
        | v => if py_bool v then raise TypeError else mret (VStr "")
        end
  | FontScaleOption =>
      use ← get_widget i "use";
      if active use then
        w ← get_widget i "scale";
        match text w with
        | VStr t => match float_str pf t with
                    | Some r => mret (VStr r)
                    | None => raise ValueError
                    end
        | _ => raise TypeError
        end
      else mret (VStr "")
  | OSKOption =>
      use_onboard ← get_widget i "use_onboard";
      if active use_onboard then mret (VStr "#onboard")
      else w ← get_widget i "command"; mret (text w)
  | IndicatorOption => x ← get_row (_row o); mret (VInt (int_of_bool (ENABLED x)))
  end.

(** ** [Application] *)

Definition show_error (error : exn) : M Application unit :=
  modify (λ a, with_shown_errors (shown_errors a ++ [error]) a).

Definition set_config (cp : ConfigParser) : M Application unit :=
  modify (with_config cp).

(** The body of the loop of [read]. *)
Definition read_option (i : nat) : M Application unit :=
  p ← get_path i;
  cp ← gets config;
  _ ← set_enabled pf run_handler i (has_option cp (section p) (key p));
  o ← get_option i;
  d ← (if _enabled o
       then v ← lift (getitem cp (section p) (key p)); mret (from_option VStr VNone v)
       else lift (OPTIONS_default p));
  _ ← update_option i (with_default d);
  reset pf run_handler i.

(** [read()]; [parsed] is the parser after [self.config.read(path)] and
    [error] the [configparser.Error] that call raised, if any. *)
Definition read (parsed : ConfigParser) (error : option exn) : M Application unit :=
  _ ← set_config parsed;
  _ ← (match error with Some e => show_error e | None => mret tt end);
  n ← gets (λ a, length (options a));
  for_each (seq 0 n) read_option.

(** The body of the first loop of [save], for one item of [self.options]:
    the generator [diff] lets it through when the option is changed. *)
Definition save_option (i : nat) : M Application unit :=
  o ← get_option i;
  if _changed o then
    p ← get_path i;
    if _enabled o then
      cp ← gets config;
      _ ← (if negb (has_section cp (section p))
           then cp' ← lift (add_section cp (section p)); set_config cp'
           else mret tt);
      v ← _get_widget_value i;
      cp ← gets config;
      cp' ← lift (cp_set cp (section p) (key p) (py_str v));
      set_config cp'
    else
      cp ← gets config;
      r ← lift (remove_option cp (section p) (key p));
      set_config r.2
  else mret tt.

(** [sections_to_delete = [s for s in self.config
                           if s != 'DEFAULT' and not self.config[s]]] *)
Definition sections_to_delete (cp : ConfigParser) : list string :=
  filter (λ s, s ≠ "DEFAULT" ∧ proxy_len cp s = 0%nat) (cp_iter cp).

Definition prune : M Application unit :=
  cp ← gets config;
  for_each (sections_to_delete cp) (λ s,
    cp ← gets config; cp' ← lift (delitem cp s); set_config cp').

(** [save()]; [io] is what opening and writing the output file does:
    [None] when it succeeds, the [OSError] otherwise. *)
Definition save (io : option string) : M Application bool :=
  n ← gets (λ a, length (options a));
  _ ← for_each (seq 0 n) save_option;
  _ ← prune;
  match io with
  | Some msg => _ ← show_error (OSError msg); mret false
  | None =>
      cp ← gets config;
      _ ← modify (λ a, with_written (written a ++ [cp]) a);
      mret true
  end.

Definition main_quit : M Application unit := modify (with_main_running false).

Definition _on_ok_clicked (io : option string) : M Application unit :=
  save io ≫= λ ok : bool,
  if ok then main_quit else mret tt.

Definition _on_cancel_clicked : M Application unit := main_quit.

Definition _on_reset_option_clicked (i : nat) : M Application unit :=
  _ ← reset pf run_handler i;
  p ← get_path i;
  cp ← gets config;
  set_enabled pf run_handler i (has_option cp (section p) (key p)).

Definition _on_reset_clicked : M Application unit :=
  n ← gets (λ a, length (options a));
  for_each (seq 0 n) _on_reset_option_clicked.
End Handlers.


(** ** Sample platform and states for the examples *)

(** Gtk 3's emission rules: [toggled], [changed] and [notify] when the
    written value is a new one, [row-changed] on every write of a row.
    The library functions are samples that keep paths and colors as text. *)
Definition gtk3 : Platform :=
  {| emits := λ sig differs, if String.eqb sig "row-changed" then true else differs;
     color_parse := λ s, if startswith "#" s then Some s else None;
     abspath_join := λ d v, d +:+ "/" +:+ v;
     relpath := λ f d, if startswith (d +:+ "/") f
                       then String.substring (String.length d + 1)
                                             (String.length f) f
                       else "../" +:+ f;
     float_str := λ s, Some s |}.

Definition blank : Widget :=
  {| active := false; text := VStr ""; filename := VNone; color := "";
     font_name := VStr ""; sensitive := true; is_switch := false |}.

Definition plain_label : Label := {| label_active := true; label_font := "normal" |}.

(** An option as [__init__] leaves it: not changed, enabled. *)
Definition fresh (k : Klass) (d : pyval) (roles : list string) (row : nat) : OptionWrapper :=
  {| klass := k; _changed := false; _enabled := true; _default := d;
     _label := Some plain_label;
     _widgets := list_to_map ((λ r, (r, blank)) <$> roles);
     _prefs := ∅; _row := row |}.

(** The handlers [_bind] connects for the option at index [i], unblocked. *)
Definition connected (i : nat) (o : OptionWrapper) : list (nat * string * string * nat) :=
  ((i, "label", "_on_label_toggled"), O)
    :: ((λ b, ((widget b, handler b), O)) <$> default [] (_signals i o)).

Definition app_of (os : list (OptionWrapper * OptionPath)) (rows : list Row)
    (cp : ConfigParser) : Application :=
  {| options := os;
     indicators_model := rows;
     handlers := list_to_map (mjoin (imap (λ i op, connected i op.1) os));
     config := cp;
     shown_errors := [];
     written := [];
     main_running := true |}.

Definition empty_config : ConfigParser := {| _defaults := ∅; _sections := ∅ |}.

Definition indicator_row (name : string) (enabled inconsistent : bool) : Row :=
  {| NAME := name; DISPLAY_NAME := name; ENABLED := enabled;
     INCONSISTENT := inconsistent; PAGE := 0 |}.


(** ** Vocabulary of the statements *)

(** The table after the first, resp. the second loop of [block_signals]. *)
Definition blocked_by (widgets : list BindingTuple) (h : gmap (nat * string * string) nat)
    : gmap (nat * string * string) nat :=
  foldl (λ h b, if change b then alter S (widget b, handler b) h else h) h widgets.
Definition unblocked_by (widgets : list BindingTuple) (h : gmap (nat * string * string) nat)
    : gmap (nat * string * string) nat :=
  foldl (λ h b, if change b then alter Nat.pred (widget b, handler b) h else h) h widgets.

(** How many items of [widgets] make [block_signals] block the handler [k]. *)
Definition blocks_of (widgets : list BindingTuple) (k : nat * string * string) : nat :=
  length (filter (λ b, change b = true ∧ (widget b, handler b) = k) widgets).

(** A method keeps [Inv] whatever it does, whether it returns or raises. *)
Definition preserves {A} (Inv : Application → Prop) (m : M Application A) : Prop :=
  ∀ a, Inv a → Inv (m a).2.

(** The [_changed] flags of all the options. *)
Definition changed_flags (a : Application) : list bool :=
  (λ op, _changed op.1) <$> options a.


Definition path_of (s k : string) : OptionPath := {| section := s; key := k |}.

(** One option of each of three kinds, with its widgets. *)
Definition background_option : OptionWrapper :=
  fresh BackgroundOption (VStr "") ["file"; "color"; "is_file"; "is_color"] 0.
Definition icon_option : OptionWrapper :=
  fresh IconOption (VStr "") ["file"; "icon"; "is_file"; "is_icon"] 0.
Definition string_option : OptionWrapper := fresh StringOption (VStr "default") [""] 0.

Definition background_app : Application :=
  app_of [(background_option, path_of "appearance" "background")] [] empty_config.
Definition icon_app : Application :=
  app_of [(icon_option, path_of "appearance" "logo")] [] empty_config.
Definition string_app : Application :=
  app_of [(string_option, path_of "appearance" "theme-name")] [] empty_config.


(** Total correctness: from a state in [P] the method returns, in a state
    and with a value in [Q]. *)
Definition hoare {A} (P : Application → Prop) (m : M Application A)
    (Q : A → Application → Prop) : Prop :=
  ∀ a, P a → ∃ x a', m a = (Return x, a') ∧ Q x a'.

(** An option with its dirty mark wiped: what [touch] cannot change. *)
Definition untouched (o : OptionWrapper) : OptionWrapper :=
  with_label None (with_changed false o).

Definition clean_options (a : Application) : list (OptionWrapper * OptionPath) :=
  prod_map untouched id <$> options a.

(** The state of the cycle of [_on_toggled] for a row. *)
Definition toggle_state (x : Row) : Z :=
  (int_of_bool (ENABLED x) * 1 + int_of_bool (INCONSISTENT x) * 2 + 1) mod 3.

(** The indicator of the clock, bound to the only row of the model. *)
Definition clock_option : OptionWrapper := fresh IndicatorOption (VBool true) [] 0.
Definition clock_app : Application :=
  app_of [(clock_option, path_of "clock" "enabled")]
         [indicator_row "clock" true false] empty_config.


(** The options up to their dirty marks are [c] and the indicator model is
    [m]: what holds across the calls of the leaf handlers. *)
Definition settled (c : list (OptionWrapper * OptionPath)) (m : list Row)
    (a : Application) : Prop :=
  clean_options a = c ∧ indicators_model a = m.


(** The toolkit calls [_on_toggled] of option [i] for a click on the toggle
    of row [path]. *)
Definition toggled (pf : Platform) (i path : nat) : M Application unit :=
  run_handler pf "_on_toggled" i (RowRef path).

(** The columns [ENABLED] and [INCONSISTENT] of row [r], and the [_changed]
    and [_enabled] attributes of option [i]. *)
Definition row_state (a : Application) (r : nat) : option (bool * bool) :=
  (λ x, (ENABLED x, INCONSISTENT x)) <$> indicators_model a !! r.
Definition changed_of (a : Application) (i : nat) : option bool :=
  (λ op, _changed op.1) <$> options a !! i.
Definition enabled_of (a : Application) (i : nat) : option bool :=
  (λ op, _enabled op.1) <$> options a !! i.


(** The signals a write by the program emits ([emit] and [emit_shared] are
    called with no other), and those the platform does emit for some write. *)
Definition written_signals : list string :=
  ["toggled"; "notify"; "changed"; "selection-changed"; "row-changed"].

Definition programmatic (pf : Platform) (sig : string) : Prop :=
  sig ∈ written_signals ∧ ∃ d, emits pf sig d = true.

(** No handler of [ws] can run for a write by the program: each is blocked
    (or not connected) in the table [h], or waits for a signal that only
    the user causes. *)
Definition silent (pf : Platform) (h : gmap (nat * string * string) nat)
    (ws : list BindingTuple) : Prop :=
  ∀ b, b ∈ ws → programmatic pf (signal b) → h !! (widget b, handler b) ≠ Some O.

(** The dirty flags are [cf] and the handlers of option [i] are silent. *)
Definition quiet (pf : Platform) (i : nat) (cf : list bool) (a : Application) : Prop :=
  changed_flags a = cf
  ∧ ∀ o p, options a !! i = Some (o, p) →
      silent pf (handlers a) (default [] (_signals i o))
      ∧ (klass o = IndicatorOption → ¬ programmatic pf "row-changed").

(** Every handler of the option is flagged for [block_signals], or bound to
    a signal no write by the program emits on this platform. *)
Definition guarded (pf : Platform) (i : nat) (o : OptionWrapper) : Prop :=
  ∀ b, b ∈ default [] (_signals i o) → change b = true ∨ ¬ programmatic pf (signal b).


(** The state with the store left out: what [save] has no business with. *)
Definition sans_config (a : Application) : Application := with_config empty_config a.

(** The store kept in memory and the last store written to the output file. *)
Definition stored (a : Application) (s k : string) : option (option string) :=
  _sections (config a) !! s ≫= λ d, d !! k.
Definition last_written (a : Application) : option ConfigParser := last (written a).

(** Options in a given dirty state. *)
Definition dirty (enabled : bool) (o : OptionWrapper) : OptionWrapper :=
  with_changed true (with_enabled enabled o).

Definition section_of (l : list (string * string)) : gmap string (option string) :=
  list_to_map ((λ kv, (kv.1, Some kv.2)) <$> l).

(** The clock indicator was enabled in the file; the user has switched it
    off.  [clock_only] is a file with that key alone, [clock_with_default]
    has a key in [DEFAULT] as well. *)
Definition clock_only : ConfigParser :=
  {| _defaults := ∅; _sections := {[ "clock" := section_of [("enabled", "1")] ]} |}.
Definition clock_with_default : ConfigParser :=
  {| _defaults := section_of [("x", "1")];
     _sections := {[ "clock" := section_of [("enabled", "1")] ]} |}.
Definition clock_off_app (cp : ConfigParser) : Application :=
  app_of [(dirty false clock_option, path_of "clock" "enabled")]
         [indicator_row "clock" false true] cp.

(** The user has ticked and unticked the label of [theme-name], whose
    section is not in the file, and switched [allow-other-users] on. *)
Definition allow_option : OptionWrapper :=
  with_widgets {[ "" := with_active true blank ]} (fresh BooleanOption (VBool false) [""] 0).
Definition theme_off_app : Application :=
  app_of [(dirty false string_option, path_of "appearance" "theme-name");
          (dirty true allow_option, path_of "greeter" "allow-other-users")]
         [] empty_config.

(** A file that sets the clock's time format. *)
Definition time_format_option : OptionWrapper := fresh StringOption (VStr "") [""] 0.
Definition time_format_app : Application :=
  app_of [(time_format_option, path_of "clock" "time-format")] [] empty_config.
Definition time_format_file (value : string) : ConfigParser :=
  {| _defaults := ∅; _sections := {[ "clock" := section_of [("time-format", value)] ]} |}.

Definition default_of (a : Application) (i : nat) : option pyval :=
  (λ op, _default op.1) <$> options a !! i.
Definition text_of (a : Application) (i : nat) (role : string) : option pyval :=
  options a !! i ≫= λ op, text <$> _widgets op.1 !! role.


(** What the pruning loop leaves of the sections [m]: those of
    [sections_to_delete] are gone. *)
Definition pruned (cp : ConfigParser) : ConfigParser :=
  with_sections (foldl (λ m s, delete s m) (_sections cp) (sections_to_delete cp)) cp.


(** ** The writes of a value setter, as data

    [_set_widget_value] of every class but [IndicatorOption] comes down to a
    list of property writes that the value alone decides, or to an
    exception raised before the first write. *)

Inductive prop_write : Type :=
  | Active (v : bool)
  | Text (v : pyval)
  | Filename (v : pyval)
  | Color (v : string)
  | FontName (v : pyval).

Definition apply_write (pw : prop_write) : Widget → Widget :=
  match pw with
  | Active v => with_active v
  | Text v => with_text v
  | Filename v => with_filename v
  | Color v => with_color v
  | FontName v => with_font_name v
  end.

Definition writes_of (pf : Platform) (o : OptionWrapper) (value : pyval)
    : exn + list (string * prop_write) :=
  match klass o with
  | BooleanOption => inr [("", Active (to_bool value))]
  | StringOption => inr [("", Text value)]
  | IntegerOption => inr [("", Text (VStr (py_str value)))]
  | ChoiceOption => inl NotImplementedError
  | FontOption => inr [("", FontName value)]
  | PathOption =>
      if negb (py_bool value) then inr [("", Filename VNone)]
      else match value with
           | VStr s =>
               inr [("", Filename (VStr (if isabs s then s
                                         else abspath_join pf (pref o "current_dir") s)))]
           | _ => inl TypeError
           end
  | BackgroundOption =>
      match value with
      | VStr s =>
          let is_file := negb (startswith "#" s) in
          inr ([("is_file", Active is_file); ("is_color", Active (negb is_file))]
               ++ (if negb (py_bool value) || negb is_file
                   then [("file", Filename VNone)] else [])
               ++ (if is_file then [("file", Filename value)]
                   else match color_parse pf (match int_str 16 (tail1 s) with
                                              | Some _ => s
                                              | None => tail1 s
                                              end) with
                        | Some c => [("color", Color c)]
                        | None => []
                        end))%list
      | _ => inl AttributeError
      end
  | IconOption =>
      match value with
      | VStr s =>
          let is_file := negb (startswith "#" s) in
          inr ([("is_file", Active is_file); ("is_icon", Active (negb is_file))]
               ++ (if negb (py_bool value) || negb is_file
                   then [("file", Filename VNone)] else [])
               ++ (if is_file then [("file", Filename value)]
                   else [("icon", Text (VStr (tail1 s)))]))%list
      | _ => inl AttributeError
      end
  | FontScaleOption =>
      inr ([("use", Active (py_bool value)); ("disabled", Active (negb (py_bool value)))]
           ++ (if py_bool value then [("scale", Text value)] else []))%list
  | OSKOption =>
      let use_onboard := py_eq value (VStr "#onboard") in
      inr [("use_onboard", Active use_onboard);
           ("use_command", Active (negb use_onboard));
           ("command", Text (if negb use_onboard then value else VStr ""))]
  | IndicatorOption => inr []
  end.

(** One write, with the signals it emits. *)
Definition perform (pf : Platform) (run : string → nat → sigargs → M Application unit)
    (i : nat) (x : string * prop_write) : M Application unit :=
  match x.2 with
  | Active v => set_active pf run i x.1 v
  | Text v => set_text pf run i x.1 v
  | Filename v => select_filename pf run i x.1 v
  | Color v => set_color pf run i x.1 v
  | FontName v => set_font_name pf run i x.1 v
  end.

(** What a list of writes makes of the widget of role [r]. *)
Definition written_by (L : list (string * prop_write)) (r : string) (w : Widget) : Widget :=
  foldl (λ w x, if decide (x.1 = r) then apply_write x.2 w else w) w L.

(** The widgets of an option with [h] applied to each, by role. *)
Definition retouch (h : string → Widget → Widget) (ws : gmap string Widget)
    : gmap string Widget :=
  map_imap (λ r w, Some (h r w)) ws.

(** The controls: the widgets of every option and the rows of the model. *)
Definition controls (a : Application) : list (gmap string Widget) * list Row :=
  ((λ op, _widgets op.1) <$> options a, indicators_model a).

(** A function on widgets sets the property [π] to a constant or keeps it. *)
Definition const_or_keep {A} (π : Widget → A) (f : Widget → Widget) : Prop :=
  (∀ w w', π (f w) = π (f w')) ∨ (∀ w, π (f w) = π w).


(** The options [c] with the widgets of option [i] retouched by [h]. *)
Definition place (i : nat) (u : OptionWrapper) (p : OptionPath)
    (c : list (OptionWrapper * OptionPath)) (h : string → Widget → Widget)
    : list (OptionWrapper * OptionPath) :=
  <[i := (with_widgets (retouch h (_widgets u)) u, p)]> c.

Definition leaf_names : list string :=
  ["_on_change"; "_on_notify_active_signal"; "_on_row_changed"].

(** A handler that writes no control, or [_on_icon_changed] when the writes
    [P] made so far have already set the [is_icon] toggle. *)
Definition harmless (P : list (string * prop_write)) (b : BindingTuple) : Prop :=
  handler b ∈ leaf_names
  ∨ (handler b = "_on_icon_changed" ∧ ∀ w, active (written_by P "is_icon" w) = true).

(** The handlers the write [x] can reach, after the writes [P], are harmless. *)
Definition safe_write (i : nat) (u : OptionWrapper) (P : list (string * prop_write))
    (x : string * prop_write) : Prop :=
  ∀ b, b ∈ default [] (_signals i u) → (widget b).2 = x.1 →
       signal b ∈ written_signals → harmless (P ++ [x]) b.

Fixpoint safe (i : nat) (u : OptionWrapper) (P L : list (string * prop_write)) : Prop :=
  match L with
  | [] => True
  | x :: L' => safe_write i u P x ∧ safe i u (P ++ [x]) L'
  end.

(** The roles the writes [L] need are among the widgets [ws]. *)
Definition roles_exist (ws : gmap string Widget) (L : list (string * prop_write)) : bool :=
  forallb (λ x, bool_decide (is_Some (ws !! x.1))) L.


(** What the value setter of option [i] makes of the options (up to their
    dirty marks) and of the rows when it returns; [None] when it raises.
    [u] is the option, [p] its path, [c] the options and [m] the rows. *)
Definition value_written (pf : Platform) (i : nat) (u : OptionWrapper) (p : OptionPath)
    (v : pyval) (c : list (OptionWrapper * OptionPath)) (m : list Row)
    : option (list (OptionWrapper * OptionPath) * list Row) :=
  match klass u with
  | IndicatorOption =>
      match m !! _row u with
      | Some x => Some (c, <[_row u := with_ENABLED (to_bool v) x]> m)
      | None => None
      end
  | _ =>
      match writes_of pf u v with
      | inr L => if roles_exist (_widgets u) L
                 then Some (place i u p c (written_by L), m) else None
      | inl _ => None
      end
  end.

(** ** Vocabulary of the further properties *)

(** The option with [_enabled] and the sensitivity of its widgets set to [v]. *)
Definition enabled_as (v : bool) (o : OptionWrapper) : OptionWrapper :=
  with_widgets (with_sensitive v <$> _widgets o) (with_enabled v o).

(** The state with the option at index [i] replaced. *)
Definition with_option (i : nat) (o : OptionWrapper) (a : Application) : Application :=
  with_options (alter (prod_map (λ _, o) id) i (options a)) a.

(** A method that looks at the options and the rows only, and writes
    nothing: on two states that agree on them it gives the same outcome
    and leaves each state as it is. *)
Definition reads {A} (m : M Application A) : Prop :=
  ∀ a a', options a' = options a → indicators_model a' = indicators_model a →
    (m a').1 = (m a).1 ∧ (m a).2 = a ∧ (m a').2 = a'.

(** The store with [value] under [(section, option)], in a section made
    for it when there is none. *)
Definition upsert (cp : ConfigParser) (section option_ value : string) : ConfigParser :=
  with_sections
    (<[section := <[optionxform option_ := Some value]>
                    (default ∅ (_sections cp !! section))]> (_sections cp)) cp.

(** The store with the key of [(section, option)] taken out of the section [d]. *)
Definition without (cp : ConfigParser) (section option_ : string)
    (d : gmap string (option string)) : ConfigParser :=
  with_sections (<[section := delete (optionxform option_) d]> (_sections cp)) cp.



(** ** More sample states *)

(** An application with one option of the class [k], fresh, over an empty
    store. *)
Definition single (k : Klass) (d : pyval) (roles : list string) (s key_ : string)
    : Application :=
  app_of [(fresh k d roles 0, path_of s key_)] [] empty_config.

Definition xft_dpi_app : Application :=
  single IntegerOption (VInt 96) [""] "appearance" "xft-dpi".
Definition show_panel_app : Application :=
  single BooleanOption (VBool true) [""] "panel" "show-panel".
Definition osk_app : Application :=
  single OSKOption (VStr "#onboard") ["use_onboard"; "use_command"; "command"] "a11y" "osk".

(** The user has typed [text] into the entry of an enabled string option. *)
Definition typed (text s key_ : string) (cp : ConfigParser) : Application :=
  app_of [(dirty true (with_widgets {[ "" := with_text (VStr text) blank ]}
                         (fresh StringOption (VStr "") [""] 0)),
           path_of s key_)] [] cp.

(** A file whose key [background] has no value. *)
Definition valueless_background : ConfigParser :=
  {| _defaults := ∅; _sections := {[ "appearance" := {[ "background" := None ]} ]} |}.

(** The option at index [k], with its path, is [x]. *)
Definition kept (k : nat) (x : OptionWrapper * OptionPath) (a : Application) : Prop :=
  options a !! k = Some x.

(** The default [read] gives an option:
    [self.config[section][key] if option.enabled
     else OPTIONS[section][key][OPTION_INDEX.DEFAULT]],
    where [enabled] has just been set to [has_option(section, key)]. *)
Definition default_for (cp : ConfigParser) (p : OptionPath) : exn + pyval :=
  if has_option cp (section p) (key p)
  then rmap (from_option VStr VNone) (getitem cp (section p) (key p))
  else OPTIONS_default p.

(** Two indicators over one model and one renderer: the clock on row 0,
    the layout on row 1. *)
Definition indicators_app : Application :=
  app_of [(fresh IndicatorOption (VBool true) [] 0, path_of "clock" "enabled");
          (fresh IndicatorOption (VBool true) [] 1, path_of "layout" "enabled")]
         [indicator_row "clock" true false; indicator_row "layout" true false]
         empty_config.

(** The characters of ASCII. *)
Definition is_ascii (c : ascii) : bool := (nat_of_ascii c <? 128)%nat.

(** What the store [cp] holds under [(s, k)], in the section itself. *)
Definition held (cp : ConfigParser) (s k : string) : option (option string) :=
  _sections cp !! s ≫= λ d, d !! k.

(** A file that sets the theme. *)
Definition theme_file : ConfigParser :=
  {| _defaults := ∅;
     _sections := {[ "appearance" := section_of [("theme-name", "Adwaita")] ]} |}.

(** A file that sets the theme in [DEFAULT] and again in [appearance]; the
    user has unticked the label of [theme-name], alone ([theme_reverted])
    or as in [theme_off_app]. *)
Definition theme_under_default : ConfigParser :=
  {| _defaults := section_of [("theme-name", "Adwaita")];
     _sections := {[ "appearance" := section_of [("theme-name", "dark")] ]} |}.
Definition theme_reverted : Application :=
  app_of [(dirty false string_option, path_of "appearance" "theme-name")] []
         theme_under_default.
Definition theme_off_under_default : Application :=
  with_config theme_under_default theme_off_app.

(** Some changed and enabled option of [a] sits in the section [s]. *)
Definition claimed (a : Application) (s : string) : Prop :=
  ∃ i o p, options a !! i = Some (o, p) ∧ _changed o = true ∧ _enabled o = true
           ∧ section p = s.


(** * Properties *)

(** ** Round trips of [str] and [int] *)

Lemma digit_char_cases d :
  0 <= d < 10 →
  digit_val (digit_char d) = Some d ∧ is_space (digit_char d) = false ∧
  Ascii.eqb (digit_char d) "_" = false ∧ Ascii.eqb (digit_char d) "-" = false ∧
  Ascii.eqb (digit_char d) "+" = false ∧
  (d ≠ 0 → Ascii.eqb (digit_char d) "0" = false).
Proof.
  intros Hd.
  assert (d = 0 ∨ d = 1 ∨ d = 2 ∨ d = 3 ∨ d = 4 ∨ d = 5 ∨ d = 6 ∨ d = 7 ∨
          d = 8 ∨ d = 9) as Hc by lia.
  repeat (destruct Hc as [-> | Hc]); try subst d; repeat split; try reflexivity;
    intros; congruence.
Qed.

Lemma int_digits_digit d acc us eo rest :
  0 <= d < 10 →
  int_digits 10 acc us eo (String (digit_char d) rest)
  = int_digits 10 (acc * 10 + d) true true rest.
Proof.
  intros Hd. destruct (digit_char_cases d Hd) as (Hv & _ & Hu & _).
  cbn [int_digits]. rewrite Hu, Hv.
  destruct (d <? 10) eqn:E; [done | lia].
Qed.

Lemma int_digits_str_digits fuel : ∀ n rest us eo,
  0 <= n < 10 ^ Z.of_nat (S fuel) →
  int_digits 10 0 us eo (str_digits (S fuel) n rest)
  = int_digits 10 n true true rest.
Proof.
  induction fuel as [|fuel IH]; intros n rest us eo Hn.
  - change (10 ^ Z.of_nat 1) with 10 in Hn.
    cbn [str_digits]. destruct (n <? 10) eqn:E; [|lia].
    rewrite Z.mod_small by lia. by rewrite (int_digits_digit n) by lia.
  - cbn [str_digits]. cbn [str_digits] in IH.
    destruct (n <? 10) eqn:E.
    + rewrite Z.mod_small by lia. by rewrite (int_digits_digit n) by lia.
    + rewrite IH.
      * rewrite (int_digits_digit (n mod 10)) by (apply Z.mod_pos_bound; lia).
        f_equal. pose proof (Z.div_mod n 10). lia.
      * split; [apply Z.div_pos; lia |].
        apply Z.div_lt_upper_bound; [lia |].
        rewrite Nat2Z.inj_succ, Z.pow_succ_r in Hn by lia. lia.
Qed.

Lemma digit_char_is_digit d : 0 <= d < 10 → is_digit (digit_char d) = true.
Proof.
  intros Hd.
  assert (d = 0 ∨ d = 1 ∨ d = 2 ∨ d = 3 ∨ d = 4 ∨ d = 5 ∨ d = 6 ∨ d = 7 ∨
          d = 8 ∨ d = 9) as Hc by lia.
  repeat (destruct Hc as [-> | Hc]); try subst d; reflexivity.
Qed.

Lemma str_digits_all_digits fuel : ∀ n acc,
  0 <= n → all_chars is_digit acc = true →
  all_chars is_digit (str_digits fuel n acc) = true.
Proof.
  induction fuel as [|fuel IH]; intros n acc Hn Hacc; [done |].
  cbn [str_digits].
  assert (all_chars is_digit (String (digit_char (n mod 10)) acc) = true) as H.
  { cbn [all_chars]. rewrite Hacc, digit_char_is_digit; [done |].
    apply Z.mod_pos_bound; lia. }
  destruct (n <? 10); [done |]. apply IH; [apply Z.div_pos; lia | done].
Qed.

Lemma is_digit_not_space c : is_digit c = true → is_space c = false.
Proof.
  unfold is_digit, is_space. intros H.
  apply andb_true_iff in H as [H1 H2].
  apply Nat.leb_le in H1. apply Nat.leb_le in H2.
  apply orb_false_iff; split.
  - apply andb_false_iff. right. apply Nat.leb_gt. lia.
  - apply Nat.eqb_neq. lia.
Qed.

Lemma rstrip_no_space s :
  all_chars (λ c, negb (is_space c)) s = true → rstrip s = s.
Proof.
  induction s as [|c s IH]; [done |].
  cbn [all_chars rstrip]. intros [Hc Hs]%andb_true_iff.
  rewrite (IH Hs). apply negb_true_iff in Hc. rewrite Hc.
  by destruct s.
Qed.

Lemma all_chars_impl (P Q : ascii → bool) s :
  (∀ c, P c = true → Q c = true) →
  all_chars P s = true → all_chars Q s = true.
Proof.
  intros HPQ. induction s as [|c s IH]; [done |].
  cbn [all_chars]. intros [Hc Hs]%andb_true_iff.
  by rewrite (HPQ _ Hc), (IH Hs).
Qed.

Lemma log2_fuel n : 0 <= n → n < 10 ^ Z.of_nat (S (Z.to_nat (Z.log2 n))).
Proof.
  intros Hn. rewrite Nat2Z.inj_succ, Z2Nat.id by apply Z.log2_nonneg.
  destruct (Z.eq_dec n 0) as [-> | Hne]; [done |].
  pose proof (Z.log2_spec n ltac:(lia)) as [_ Hlt].
  eapply Z.lt_le_trans; [exact Hlt |].
  apply Z.pow_le_mono_l. lia.
Qed.

Lemma strip_no_space s :
  all_chars not_space s = true → rstrip (lstrip s) = s.
Proof.
  intros Hs. rewrite <- (rstrip_no_space s) at 2 by done. f_equal.
  destruct s as [|c s]; [done |].
  cbn [all_chars] in Hs. apply andb_true_iff in Hs as [Hc _].
  apply negb_true_iff in Hc. cbn [lstrip]. by rewrite Hc.
Qed.

Lemma str_nat_digits n : 0 <= n → all_chars is_digit (str_nat n) = true.
Proof. intros Hn. by apply str_digits_all_digits. Qed.

Lemma digits_not_space s :
  all_chars is_digit s = true → all_chars not_space s = true.
Proof.
  apply all_chars_impl. intros c Hc. unfold not_space.
  by rewrite (is_digit_not_space _ Hc).
Qed.

(** [str_nat n] starts with a digit, so neither a sign nor the prefix
    ["0x"] is read from it. *)
Lemma int_unsigned_str_nat n : 0 <= n → int_unsigned 10 (str_nat n) = Some n.
Proof.
  intros Hn.
  assert (int_digits 10 0 false false (str_nat n) = Some n) as Hp.
  { unfold str_nat. rewrite int_digits_str_digits; [done |].
    split; [done | by apply log2_fuel]. }
  unfold int_unsigned. destruct (str_nat n) as [|c [|x s]]; [done | |].
  - by destruct c as [[] [] [] [] [] [] [] []].
  - destruct (Ascii.eqb_spec c "0") as [-> | _]; [done |].
    by destruct c as [[] [] [] [] [] [] [] []].
Qed.

Lemma int_str_str_nat n : 0 <= n → int_str 10 (str_nat n) = Some n.
Proof.
  intros Hn. pose proof (str_nat_digits n Hn) as Hd.
  pose proof (int_unsigned_str_nat n Hn) as Hu.
  unfold int_str. rewrite strip_no_space by by apply digits_not_space.
  destruct (str_nat n) as [|c s]; [done |].
  cbn [all_chars] in Hd. apply andb_true_iff in Hd as [Hc _].
  destruct c as [[] [] [] [] [] [] [] []]; try done.
Qed.

Lemma int_str_str_int n : int_str 10 (str_int n) = Some n.
Proof.
  unfold str_int. destruct (n <? 0) eqn:E; [|apply int_str_str_nat; lia].
  assert (0 <= - n) as Hn by lia.
  unfold int_str. rewrite strip_no_space.
  - rewrite (int_unsigned_str_nat _ Hn). cbn. f_equal. lia.
  - cbn [all_chars]. by rewrite digits_not_space by by apply str_nat_digits.
Qed.

(** C8. Boolean: [to_bool] gives back the boolean from the formatted value
    [int(active)], both as the [int] the getter returns and as the text
    [save] stores; [to_bool] is true on a string exactly when its lower-case
    form is one of the five words.  Integer: [int(str(n)) == n] for every
    integer [n]. *)
Theorem parse_format_round_trip :
  (∀ b : bool, to_bool (VInt (int_of_bool b)) = b
               ∧ to_bool (VStr (py_str (VInt (int_of_bool b)))) = b)
  ∧ (∀ s : string, to_bool (VStr s) = true ↔ lower s ∈ true_words)
  ∧ (∀ n : Z, py_int (VStr (py_str (VInt n))) = inr n).
Proof.
  split; [by intros [] |]. split.
  - intros s. unfold to_bool. apply bool_decide_eq_true.
  - intros n. unfold py_int, py_str. by rewrite int_str_str_int.
Qed.

(** ** The state monad *)

Lemma bind_return {A B} (m : M Application A) (k : A → M Application B) a x a' :
  m a = (Return x, a') → (m ≫= k) a = k x a'.
Proof. intros H. unfold mbind, M_bind. by rewrite H. Qed.

Lemma bind_raise {A B} (m : M Application A) (k : A → M Application B) a e a' :
  m a = (Raise e, a') → (m ≫= k) a = (Raise e, a').
Proof. intros H. unfold mbind, M_bind. by rewrite H. Qed.

Lemma bind_returns {A B} (m : M Application A) (k : A → M Application B) a y a2 :
  (m ≫= k) a = (Return y, a2) →
  ∃ x a1, m a = (Return x, a1) ∧ k x a1 = (Return y, a2).
Proof.
  unfold mbind, M_bind. destruct (m a) as [[x | e] a1]; [eauto | done].
Qed.

Lemma preserves_ret {A} Inv (x : A) : preserves Inv (mret x).
Proof. by intros a. Qed.

Lemma preserves_raise {A} Inv e : preserves Inv (@raise Application A e).
Proof. by intros a. Qed.

Lemma preserves_gets {A} Inv (f : Application → A) : preserves Inv (gets f).
Proof. by intros a. Qed.

Lemma preserves_lift {A} Inv (r : exn + A) : preserves Inv (lift r).
Proof. by destruct r as [e | x]; intros a. Qed.

Lemma preserves_modify Inv (f : Application → Application) :
  (∀ a, Inv a → Inv (f a)) → preserves Inv (modify f).
Proof. intros H a. apply H. Qed.

Lemma preserves_bind {A B} Inv (m : M Application A) (k : A → M Application B) :
  preserves Inv m → (∀ x, preserves Inv (k x)) → preserves Inv (m ≫= k).
Proof.
  intros Hm Hk a Ha. unfold mbind, M_bind.
  specialize (Hm a Ha). destruct (m a) as [[x | e] a1]; [by apply Hk | done].
Qed.

Lemma preserves_for_each {A} Inv (l : list A) (body : A → M Application unit) :
  (∀ x, x ∈ l → preserves Inv (body x)) → preserves Inv (for_each l body).
Proof.
  induction l as [|x l IH]; intros H; [apply preserves_ret |].
  cbn [for_each]. apply preserves_bind.
  - apply H. by left.
  - intros _. apply IH. intros y Hy. apply H. by right.
Qed.

Lemma preserves_impl {A} (Inv Inv' : Application → Prop) (m : M Application A) a :
  preserves Inv m → Inv a → (∀ a', Inv a' → Inv' a') → Inv' (m a).2.
Proof. intros Hm Ha HI. apply HI, Hm, Ha. Qed.

(** ** [block_signals] *)

Lemma block_all_spec ws a :
  block_all ws a = (Return tt, with_handlers (blocked_by ws (handlers a)) a).
Proof.
  revert a. induction ws as [|b ws IH]; intros a; [by destruct a |].
  unfold block_all in *. cbn [for_each]. unfold blocked_by. cbn [foldl].
  destruct (change b).
  - erewrite bind_return by reflexivity. by rewrite IH.
  - erewrite bind_return by reflexivity. by rewrite IH.
Qed.

Lemma unblock_all_spec ws a :
  unblock_all ws a = (Return tt, with_handlers (unblocked_by ws (handlers a)) a).
Proof.
  revert a. induction ws as [|b ws IH]; intros a; [by destruct a |].
  unfold unblock_all in *. cbn [for_each]. unfold unblocked_by. cbn [foldl].
  destruct (change b).
  - erewrite bind_return by reflexivity. by rewrite IH.
  - erewrite bind_return by reflexivity. by rewrite IH.
Qed.

Lemma blocks_of_cons b ws k :
  blocks_of (b :: ws) k
  = ((if bool_decide (change b = true ∧ (widget b, handler b) = k) then 1 else 0)
     + blocks_of ws k)%nat.
Proof.
  unfold blocks_of. rewrite filter_cons.
  destruct (decide (change b = true ∧ (widget b, handler b) = k)) as [H | H].
  - by rewrite bool_decide_true.
  - by rewrite bool_decide_false.
Qed.

Lemma lookup_blocked_by ws h k :
  blocked_by ws h !! k = (λ n, n + blocks_of ws k)%nat <$> h !! k.
Proof.
  revert h. induction ws as [|b ws IH]; intros h.
  - cbn. destruct (h !! k); cbn; [f_equal; lia | done].
  - unfold blocked_by in *. cbn [foldl]. rewrite IH, blocks_of_cons.
    destruct (change b) eqn:Eb.
    + rewrite lookup_alter. destruct (decide ((widget b, handler b) = k)) as [-> | Hne].
      * rewrite bool_decide_true by done.
        destruct (h !! _); cbn; [f_equal; lia | done].
      * rewrite bool_decide_false by (intros [_ ?]; done).
        destruct (h !! k); cbn; [f_equal; lia | done].
    + rewrite bool_decide_false by (intros [? _]; done).
      destruct (h !! k); cbn; [f_equal; lia | done].
Qed.

Lemma lookup_unblocked_by ws h k :
  unblocked_by ws h !! k = (λ n, n - blocks_of ws k)%nat <$> h !! k.
Proof.
  revert h. induction ws as [|b ws IH]; intros h.
  - cbn. destruct (h !! k); cbn; [f_equal; lia | done].
  - unfold unblocked_by in *. cbn [foldl]. rewrite IH, blocks_of_cons.
    destruct (change b) eqn:Eb.
    + rewrite lookup_alter. destruct (decide ((widget b, handler b) = k)) as [-> | Hne].
      * rewrite bool_decide_true by done.
        destruct (h !! _); cbn; [f_equal; lia | done].
      * rewrite bool_decide_false by (intros [_ ?]; done).
        destruct (h !! k); cbn; [f_equal; lia | done].
    + rewrite bool_decide_false by (intros [? _]; done).
      destruct (h !! k); cbn; [f_equal; lia | done].
Qed.

Lemma unblocked_blocked ws h : unblocked_by ws (blocked_by ws h) = h.
Proof.
  apply map_eq. intros k. rewrite lookup_unblocked_by, lookup_blocked_by.
  destruct (h !! k); cbn; [f_equal; lia | done].
Qed.

(** C1, as the code has it. When the wrapped call returns, [block_signals]
    returns its result after the unblock loop has run: the table is the one
    the call left, with every handler [block_signals] blocked unblocked as
    many times; if the call left the table alone, every handler has the
    block count it had before [block_signals]. *)
Theorem block_signals_unblocks_on_return {A} ws (f : M Application A) a x a1 :
  f (block_all ws a).2 = (Return x, a1) →
  ∃ a2, block_signals ws f a = (Return x, a2)
        ∧ a2 = with_handlers (unblocked_by ws (handlers a1)) a1
        ∧ (handlers a1 = handlers (block_all ws a).2 → handlers a2 = handlers a).
Proof.
  intros Hf. eexists. split; [|split; [reflexivity |]].
  - unfold block_signals. rewrite block_all_spec in Hf. cbn [snd] in Hf.
    erewrite bind_return by apply block_all_spec.
    erewrite bind_return by exact Hf.
    erewrite bind_return by apply unblock_all_spec. done.
  - intros Hh. rewrite block_all_spec in Hh. cbn in Hh. cbn.
    rewrite Hh. apply unblocked_blocked.
Qed.

Lemma block_signals_unblocks_on_return_witness :
  ∃ a2, block_signals (default [] (_signals 0 string_option))
          (_set_widget_value gtk3 (run_handler gtk3) 0 (VStr "dark")) string_app
        = (Return tt, a2)
        ∧ handlers a2 = handlers string_app.
Proof.
  destruct (block_signals_unblocks_on_return
              (default [] (_signals 0 string_option))
              (_set_widget_value gtk3 (run_handler gtk3) 0 (VStr "dark"))
              string_app tt
              (_set_widget_value gtk3 (run_handler gtk3) 0 (VStr "dark")
                 (block_all (default [] (_signals 0 string_option)) string_app).2).2)
    as (a2 & Hrun & _ & Hh).
  - reflexivity.
  - exists a2. split; [exact Hrun |]. apply Hh. reflexivity.
Defined.

(** C1 fails when the wrapped call raises: [_set_widget_value(None)] of a
    [BackgroundOption] raises [AttributeError], the exception leaves
    [block_signals] before the second loop, and the handler of [is_file],
    unblocked before, stays blocked. *)
Lemma block_signals_raise_leaves_blocked :
  let ws := default [] (_signals 0 background_option) in
  let r := block_signals ws (_set_widget_value gtk3 (run_handler gtk3) 0 VNone)
             background_app in
  r.1 = Raise AttributeError
  ∧ handlers background_app !! (0%nat, "is_file", "_on_change") = Some 0%nat
  ∧ handlers r.2 !! (0%nat, "is_file", "_on_change") = Some 1%nat.
Proof. vm_compute. done. Qed.

(** ** Total correctness rules *)

Lemma hoare_ret {A} (P : Application → Prop) (x : A) (Q : A → Application → Prop) :
  (∀ a, P a → Q x a) → hoare P (mret x) Q.
Proof. intros H a Ha. exists x, a. split; [done | by apply H]. Qed.

Lemma hoare_bind {A B} P (m : M Application A) (k : A → M Application B) R Q :
  hoare P m R → (∀ x, hoare (R x) (k x) Q) → hoare P (m ≫= k) Q.
Proof.
  intros Hm Hk a Ha. destruct (Hm a Ha) as (x & a1 & Hx & HR).
  destruct (Hk x a1 HR) as (y & a2 & Hy & HQ).
  exists y, a2. split; [|done]. by rewrite (bind_return _ _ _ _ _ Hx).
Qed.

Lemma hoare_conseq {A} (P P' : Application → Prop) (m : M Application A)
    (Q Q' : A → Application → Prop) :
  hoare P' m Q' → (∀ a, P a → P' a) → (∀ x a, Q' x a → Q x a) → hoare P m Q.
Proof.
  intros Hm HP HQ a Ha. destruct (Hm a (HP a Ha)) as (x & a' & Hx & Hq).
  exists x, a'. split; [done | by apply HQ].
Qed.

Lemma hoare_gets {A} (P : Application → Prop) (f : Application → A) :
  hoare P (gets f) (λ x a, x = f a ∧ P a).
Proof. intros a Ha. by exists (f a), a. Qed.

Lemma hoare_modify (P : Application → Prop) (f : Application → Application) :
  hoare P (modify f) (λ _ a', ∃ a, a' = f a ∧ P a).
Proof. intros a Ha. exists tt, (f a). split; [done |]. by exists a. Qed.

Lemma hoare_for_each {A} Inv (l : list A) (body : A → M Application unit) :
  (∀ x, x ∈ l → hoare Inv (body x) (λ _, Inv)) →
  hoare Inv (for_each l body) (λ _, Inv).
Proof.
  induction l as [|x l IH]; intros H; [by apply hoare_ret |].
  cbn [for_each]. eapply hoare_bind.
  - apply H. by left.
  - intros u. apply IH. intros y Hy. apply H. by right.
Qed.

Lemma hoare_fact {A} (P : Application → Prop) (φ : Prop) (m : M Application A) Q :
  (∀ a, P a → φ) → (φ → hoare P m Q) → hoare P m Q.
Proof. intros Hf Hm a Ha. apply Hm; [by eapply Hf | done]. Qed.

Lemma hoare_swallow {A} (P : Application → Prop) (m : M Application A) Q :
  hoare P m (λ _, Q) → hoare P (swallow m) (λ _, Q).
Proof.
  intros Hm a Ha. destruct (Hm a Ha) as (x & a' & Hx & Hq).
  exists tt, a'. unfold swallow. by rewrite Hx.
Qed.

(** ** What [touch] and the leaf handlers leave alone *)

Lemma clean_options_alter (f : OptionWrapper → OptionWrapper) i a :
  (∀ o, untouched (f o) = untouched o) →
  clean_options (with_options (alter (prod_map f id) i (options a)) a) = clean_options a.
Proof.
  intros Hf. unfold clean_options. cbn.
  rewrite (list_fmap_alter (prod_map untouched id) (prod_map f id) id).
  - by apply list_alter_id.
  - apply Forall_true. intros [o p]. cbn. by rewrite Hf.
Qed.

Lemma clean_options_length a a' :
  clean_options a' = clean_options a → length (options a') = length (options a).
Proof.
  unfold clean_options. intros H.
  apply (f_equal length) in H. by rewrite !length_fmap in H.
Qed.

Lemma clean_options_lookup a i o p :
  options a !! i = Some (o, p) → clean_options a !! i = Some (untouched o, p).
Proof. intros H. unfold clean_options. by rewrite list_lookup_fmap, H. Qed.

Lemma clean_options_lookup_inv a i u p :
  clean_options a !! i = Some (u, p) →
  ∃ o, options a !! i = Some (o, p) ∧ untouched o = u.
Proof.
  unfold clean_options. rewrite list_lookup_fmap.
  destruct (options a !! i) as [[o q]|]; [|done]. cbn. intros [= <- <-]. eauto.
Qed.

Lemma get_option_hoare (P : Application → Prop) i :
  (∀ a, P a → (i < length (options a))%nat) →
  hoare P (get_option i) (λ o a, P a ∧ ∃ p, options a !! i = Some (o, p)).
Proof.
  intros Hi a Ha. destruct (lookup_lt_is_Some_2 _ _ (Hi a Ha)) as [[o p] Ho].
  exists o, a. unfold get_option. rewrite Ho. eauto.
Qed.

Lemma touch_settled c m i : hoare (settled c m) (touch i) (λ _, settled c m).
Proof.
  intros a [Hc Hm]. eexists tt, _. split; [reflexivity |].
  split; [|done]. cbn. rewrite <- Hc. by apply clean_options_alter.
Qed.

Lemma settled_length c m a : settled c m a → length (options a) = length c.
Proof. intros [<- _]. unfold clean_options. by rewrite length_fmap. Qed.

Lemma leaf_handler_settled c m h i args :
  (i < length c)%nat →
  hoare (settled c m) (leaf_handler h i args) (λ _, settled c m).
Proof.
  intros Hi. unfold leaf_handler.
  destruct (String.eqb h "_on_change"); [apply touch_settled |].
  destruct (String.eqb h "_on_notify_active_signal").
  { destruct args as [| name |]; try by apply hoare_ret.
    destruct (String.eqb name "active"); [apply touch_settled | by apply hoare_ret]. }
  destruct (String.eqb h "_on_row_changed"); [|by apply hoare_ret].
  destruct args as [| |r]; try by apply hoare_ret.
  eapply hoare_bind.
  - apply get_option_hoare. intros a Ha. by rewrite (settled_length _ _ _ Ha).
  - intros o. eapply hoare_conseq with (P' := settled c m) (Q' := λ _, settled c m);
      [| by intros a [Ha _] | done].
    destruct (Nat.eqb r (_row o)); [apply touch_settled | by apply hoare_ret].
Qed.

Lemma emit_to_leaf_settled c m i role sig args :
  (i < length c)%nat →
  hoare (settled c m) (emit_to leaf_handler i role sig args) (λ _, settled c m).
Proof.
  intros Hi. unfold emit_to. eapply hoare_bind.
  - apply get_option_hoare. intros a Ha. by rewrite (settled_length _ _ _ Ha).
  - intros o. eapply hoare_conseq with (P' := settled c m) (Q' := λ _, settled c m);
      [| by intros a [Ha _] | done].
    apply hoare_for_each. intros b _.
    destruct (_ && _); [|by apply hoare_ret].
    eapply hoare_bind; [apply hoare_gets |].
    intros n. eapply hoare_conseq with (P' := settled c m) (Q' := λ _, settled c m);
      [| by intros a [_ Ha] | done].
    destruct n as [[|n]|]; try by apply hoare_ret.
    by apply hoare_swallow, leaf_handler_settled.
Qed.

Lemma emit_shared_leaf_settled pf c m role sig args differs :
  hoare (settled c m) (emit_shared pf leaf_handler role sig args differs)
        (λ _, settled c m).
Proof.
  unfold emit_shared. destruct (emits pf sig differs); [|by apply hoare_ret].
  eapply hoare_bind; [apply hoare_gets |].
  intros n. apply (hoare_fact _ (n = length c)).
  { intros a [-> Ha]. by apply settled_length in Ha. }
  intros ->.
  eapply hoare_conseq with (P' := settled c m) (Q' := λ _, settled c m);
    [| by intros a [_ Ha] | done].
  apply hoare_for_each. intros j Hj%elem_of_seq.
  eapply hoare_bind.
  - apply get_option_hoare. intros a Ha. rewrite (settled_length _ _ _ Ha). lia.
  - intros o. eapply hoare_conseq with (P' := settled c m) (Q' := λ _, settled c m);
      [| by intros a [Ha _] | done].
    destruct (klass o); try by apply hoare_ret.
    apply emit_to_leaf_settled. lia.
Qed.

Lemma row_set_leaf_settled pf c m r f x :
  m !! r = Some x →
  hoare (settled c m) (row_set pf leaf_handler r f) (λ _, settled c (<[r := f x]> m)).
Proof.
  intros Hx. unfold row_set. eapply hoare_bind with (R := λ y a, y = x ∧ settled c m a).
  - intros a [Hc Hm]. exists x, a. unfold get_row. by rewrite Hm, Hx.
  - intros y. apply (hoare_fact _ (y = x)); [by intros a [-> _] |]. intros ->.
    eapply hoare_bind with (R := λ _, settled c (<[r := f x]> m)).
    + intros a [_ [Hc Hm]]. eexists tt, _. split; [reflexivity |].
      split; [done |]. cbn. by rewrite Hm.
    + intros _. apply emit_shared_leaf_settled.
Qed.

(** ** [IndicatorOption._on_toggled] *)

(** One call of [_on_toggled] for the row of the option: the row and the
    option after it, from the state of the cycle before it. *)
Lemma _on_toggled_spec pf a i o p x :
  options a !! i = Some (o, p) →
  indicators_model a !! _row o = Some x →
  ∃ a' o',
    _on_toggled pf leaf_handler i (_row o) a = (Return tt, a')
    ∧ options a' !! i = Some (o', p)
    ∧ klass o' = klass o ∧ _row o' = _row o
    ∧ _enabled o' = (toggle_state x <? 2)
    ∧ _changed o' = negb (1 <? toggle_state x)
    ∧ indicators_model a' !! _row o
      = Some (with_INCONSISTENT (1 <? toggle_state x)
                (with_ENABLED (negb (toggle_state x mod 2 =? 0)) x)).
Proof.
  intros Ho Hx.
  set (st := toggle_state x).
  set (x1 := with_ENABLED (negb (st mod 2 =? 0)) x).
  set (x2 := with_INCONSISTENT (1 <? st) x1).
  set (m := indicators_model a). set (r := _row o).
  assert (r < length m)%nat as Hr by (by eapply lookup_lt_Some).
  destruct (row_set_leaf_settled pf (clean_options a) m r
              (with_ENABLED (negb (st mod 2 =? 0))) x Hx a) as ([] & a1 & H1 & S1);
    [done |].
  assert (<[r := x1]> m !! r = Some x1) as Hx1 by (by apply list_lookup_insert_eq).
  destruct (row_set_leaf_settled pf (clean_options a) (<[r := x1]> m) r
              (with_INCONSISTENT (1 <? st)) x1 Hx1 a1 S1) as ([] & a2 & H2 & S2).
  fold x2 in S2. destruct S2 as [Hc2 Hm2].
  destruct (clean_options_lookup_inv a2 i (untouched o) p) as (o2 & Ho2 & Hu).
  { rewrite Hc2. by apply clean_options_lookup. }
  set (g := λ o : OptionWrapper,
         if 1 <? st then with_changed false o
         else modify_font "bold" (with_changed true o)).
  set (a3 := with_options (alter (prod_map (with_enabled (st <? 2)) id) i (options a2)) a2).
  exists (with_options (alter (prod_map g id) i (options a3)) a3),
         (g (with_enabled (st <? 2) o2)).
  split; [|split; [|split; [|split; [|split; [|split]]]]].
  - unfold _on_toggled.
    erewrite bind_return by (unfold get_option; by rewrite Ho).
    fold r. rewrite Nat.eqb_refl. cbn [negb].
    erewrite bind_return by (unfold get_row, r; by rewrite Hx).
    fold (toggle_state x). fold st.
    erewrite bind_return by exact H1.
    erewrite bind_return by exact H2.
    erewrite bind_return by reflexivity.
    fold a3. unfold g. by destruct (1 <? st).
  - cbn. rewrite !list_lookup_alter_eq, Ho2. done.
  - apply (f_equal klass) in Hu. cbn in Hu. rewrite <- Hu.
    unfold g. by destruct (1 <? st).
  - apply (f_equal _row) in Hu. cbn in Hu. unfold r. rewrite <- Hu.
    unfold g. by destruct (1 <? st).
  - unfold g. by destruct (1 <? st).
  - unfold g. by destruct (1 <? st).
  - cbn. rewrite Hm2. apply list_lookup_insert_eq. by rewrite length_insert.
Qed.

Lemma toggled_step pf a i o p x :
  options a !! i = Some (o, p) →
  indicators_model a !! _row o = Some x →
  ∃ a' o' x',
    toggled pf i (_row o) a = (Return tt, a')
    ∧ options a' !! i = Some (o', p) ∧ klass o' = klass o ∧ _row o' = _row o
    ∧ indicators_model a' !! _row o = Some x'
    ∧ ENABLED x' = negb (toggle_state x mod 2 =? 0)
    ∧ INCONSISTENT x' = (1 <? toggle_state x)
    ∧ row_state a' (_row o) = Some (ENABLED x', INCONSISTENT x')
    ∧ enabled_of a' i = Some (toggle_state x <? 2)
    ∧ changed_of a' i = Some (negb (1 <? toggle_state x)).
Proof.
  intros Ho Hx.
  destruct (_on_toggled_spec pf a i o p x Ho Hx)
    as (a' & o' & Hrun & Ho' & Hk & Hr & He & Hc & Hx').
  eexists a', o', _. split; [exact Hrun |]. split; [exact Ho' |].
  split; [exact Hk |]. split; [exact Hr |]. split; [exact Hx' |].
  split; [done |]. split; [done |].
  unfold row_state, enabled_of, changed_of. rewrite Hx', Ho'. cbn.
  by rewrite He, Hc.
Qed.

(** C2, as the code cycles. From a row that is enabled and not inconsistent,
    the first toggle enters (enabled=false, inconsistent=true), disables the
    option and leaves [changed == false]; the second gives
    (enabled=false, inconsistent=false) and the third
    (enabled=true, inconsistent=false), both with [changed == true]: three
    toggles return to the start.  And any toggle of an inconsistent row
    leaves the inconsistent state with [changed == true]. *)
Theorem indicator_cycle pf a i o p x :
  options a !! i = Some (o, p) →
  klass o = IndicatorOption →
  indicators_model a !! _row o = Some x →
  (ENABLED x = true → INCONSISTENT x = false →
   ∃ a1 a2 a3,
     toggled pf i (_row o) a = (Return tt, a1)
     ∧ toggled pf i (_row o) a1 = (Return tt, a2)
     ∧ toggled pf i (_row o) a2 = (Return tt, a3)
     ∧ row_state a1 (_row o) = Some (false, true)
     ∧ changed_of a1 i = Some false ∧ enabled_of a1 i = Some false
     ∧ row_state a2 (_row o) = Some (false, false) ∧ changed_of a2 i = Some true
     ∧ row_state a3 (_row o) = Some (true, false) ∧ changed_of a3 i = Some true)
  ∧ (INCONSISTENT x = true →
     ∃ a1 e,
       toggled pf i (_row o) a = (Return tt, a1)
       ∧ row_state a1 (_row o) = Some (e, false)
       ∧ changed_of a1 i = Some true).
Proof.
  intros Ho Hk Hx. split.
  - intros HE HI.
    destruct (toggled_step pf a i o p x Ho Hx)
      as (a1 & o1 & x1 & R1 & Ho1 & _ & Hr1 & Hx1 & E1 & I1 & S1 & En1 & C1).
    assert (toggle_state x = 2) as T0 by (unfold toggle_state; by rewrite HE, HI).
    rewrite T0 in *. cbn in E1, I1, En1, C1. rewrite E1, I1 in S1.
    rewrite <- Hr1 in Hx1.
    destruct (toggled_step pf a1 i o1 p x1 Ho1 Hx1)
      as (a2 & o2 & x2 & R2 & Ho2 & _ & Hr2 & Hx2 & E2 & I2 & S2 & En2 & C2).
    assert (toggle_state x1 = 0) as T1 by (unfold toggle_state; by rewrite E1, I1).
    rewrite T1 in *. cbn in E2, I2, En2, C2. rewrite E2, I2 in S2.
    rewrite <- Hr2 in Hx2.
    destruct (toggled_step pf a2 i o2 p x2 Ho2 Hx2)
      as (a3 & o3 & x3 & R3 & Ho3 & _ & Hr3 & Hx3 & E3 & I3 & S3 & En3 & C3).
    assert (toggle_state x2 = 1) as T2 by (unfold toggle_state; by rewrite E2, I2).
    rewrite T2 in *. cbn in E3, I3, En3, C3. rewrite E3, I3 in S3.
    rewrite Hr2, Hr1 in *.
    exists a1, a2, a3. by repeat split.
  - intros HI.
    destruct (toggled_step pf a i o p x Ho Hx)
      as (a1 & o1 & x1 & R1 & Ho1 & _ & Hr1 & Hx1 & E1 & I1 & S1 & En1 & C1).
    assert (toggle_state x = 0 ∨ toggle_state x = 1) as T0.
    { unfold toggle_state. rewrite HI. destruct (ENABLED x); [by right | by left]. }
    exists a1, (ENABLED x1). split; [exact R1 |].
    destruct T0 as [T0 | T0]; rewrite T0 in *; cbn in I1, C1; by rewrite I1 in S1.
Qed.

Lemma indicator_cycle_witness :
  ∃ a1 a2 a3,
    toggled gtk3 0 0 clock_app = (Return tt, a1)
    ∧ toggled gtk3 0 0 a1 = (Return tt, a2)
    ∧ toggled gtk3 0 0 a2 = (Return tt, a3)
    ∧ row_state a3 0 = Some (true, false).
Proof.
  destruct (indicator_cycle gtk3 clock_app 0 clock_option (path_of "clock" "enabled")
              (indicator_row "clock" true false)) as [H _];
    [reflexivity | reflexivity | reflexivity |].
  destruct (H eq_refl eq_refl) as (a1 & a2 & a3 & R1 & R2 & R3 & _ & _ & _ & _ & _ & S3 & _).
  by exists a1, a2, a3.
Defined.

(** C2 fails on the order of the cycle: with the clock's row enabled and not
    inconsistent, it is the first toggle that enters
    (enabled=false, inconsistent=true); after the second toggle the row is
    (enabled=false, inconsistent=false) and the option is changed. *)
Lemma second_toggle_is_not_inconsistent :
  let a1 := (toggled gtk3 0 0 clock_app).2 in
  let a2 := (toggled gtk3 0 0 a1).2 in
  row_state clock_app 0 = Some (true, false)
  ∧ row_state a1 0 = Some (false, true)
  ∧ row_state a2 0 = Some (false, false)
  ∧ changed_of a2 0 = Some true.
Proof. cbv zeta. repeat split; reflexivity. Qed.

(** ** The value setter and the dirty flag *)

Lemma for_each_noop {A} (l : list A) (body : A → M Application unit) a :
  (∀ x, x ∈ l → body x a = (Return tt, a)) → for_each l body a = (Return tt, a).
Proof.
  induction l as [|x l IH]; intros H; [done |].
  cbn [for_each]. rewrite (bind_return _ _ _ tt a) by (apply H; by left).
  apply IH. intros y Hy. apply H. by right.
Qed.

Lemma emit_silent pf run i role sig args d a o p :
  options a !! i = Some (o, p) →
  sig ∈ written_signals →
  silent pf (handlers a) (default [] (_signals i o)) →
  emit pf run i role sig args d a = (Return tt, a).
Proof.
  intros Ho Hsig Hs. unfold emit. destruct (emits pf sig d) eqn:E; [|done].
  unfold emit_to. rewrite (bind_return _ _ _ o a) by (unfold get_option; by rewrite Ho).
  apply for_each_noop. intros b Hb.
  destruct (String.eqb (widget b).2 role && String.eqb (signal b) sig) eqn:Em; [|done].
  apply andb_true_iff in Em as [_ Es%String.eqb_eq].
  erewrite bind_return by reflexivity.
  assert (handlers a !! (widget b, handler b) ≠ Some O) as Hn.
  { apply Hs; [done |]. split; [by rewrite Es | exists d; by rewrite Es]. }
  by destruct (handlers a !! (widget b, handler b)) as [[|n]|].
Qed.

Lemma changed_flags_alter (f : OptionWrapper → OptionWrapper) i a :
  (∀ o, _changed (f o) = _changed o) →
  changed_flags (with_options (alter (prod_map f id) i (options a)) a) = changed_flags a.
Proof.
  intros Hf. unfold changed_flags. cbn.
  rewrite (list_fmap_alter _ (prod_map f id) id).
  - by apply list_alter_id.
  - apply Forall_true. intros [o p]. cbn. by rewrite Hf.
Qed.

Lemma _signals_put i o role w w' :
  _widgets o !! role = Some w → is_switch w' = is_switch w →
  _signals i (with_widgets (<[role := w']> (_widgets o)) o) = _signals i o.
Proof.
  intros Hw Hsw. unfold _signals. cbn. f_equal. f_equal.
  destruct (decide (role = "")) as [-> | Hne].
  - by rewrite lookup_insert_eq, Hw.
  - by rewrite lookup_insert_ne.
Qed.

Lemma get_widget_inv i role a r a' :
  get_widget i role a = (r, a') →
  a' = a ∧ match r with
           | Return w => ∃ o p, options a !! i = Some (o, p) ∧ _widgets o !! role = Some w
           | Raise _ => True
           end.
Proof.
  unfold get_widget, get_option, mbind, M_bind.
  destruct (options a !! i) as [[o p]|]; [|by intros [= <- <-]].
  destruct (_widgets o !! role) as [w|] eqn:Hw; intros [= <- <-]; eauto.
Qed.

(** A property write: read the widget, store the new one, emit. *)
Lemma widget_write_quiet pf i cf role (g : Widget → Widget)
    (rest : Widget → M Application unit) :
  (∀ w, is_switch (g w) = is_switch w) →
  (∀ w, preserves (quiet pf i cf) (rest w)) →
  preserves (quiet pf i cf)
    (get_widget i role ≫= λ w, put_widget i role (g w) ≫= λ _, rest w).
Proof.
  intros Hg Hrest a Ha.
  destruct (get_widget i role a) as [[w | e] a0] eqn:Hget;
    destruct (get_widget_inv _ _ _ _ _ Hget) as [-> Hw].
  2: { by rewrite (bind_raise _ _ _ _ _ Hget). }
  destruct Hw as (o & p & Ho & Hw).
  rewrite (bind_return _ _ _ _ _ Hget).
  erewrite bind_return by reflexivity.
  apply Hrest. destruct Ha as [Hcf Hq]. split.
  - rewrite <- Hcf. by apply changed_flags_alter.
  - cbn. intros o1 p1. rewrite list_lookup_alter_eq, Ho. cbn. intros [= <- <-].
    cbn. rewrite (_signals_put i o role w) by done. by apply Hq in Ho.
Qed.

Lemma emit_quiet pf run i cf role sig args d :
  sig ∈ written_signals → preserves (quiet pf i cf) (emit pf run i role sig args d).
Proof.
  intros Hsig a Ha.
  destruct (options a !! i) as [[o p]|] eqn:Ho.
  - rewrite (emit_silent pf run i role sig args d a o p); [done.. |].
    by apply (proj2 Ha) in Ho as [? _].
  - unfold emit. destruct (emits pf sig d); [|done].
    unfold emit_to, get_option, mbind, M_bind. by rewrite Ho.
Qed.

Ltac written := unfold written_signals; repeat constructor.

Lemma set_active_quiet pf run i cf role v :
  preserves (quiet pf i cf) (set_active pf run i role v).
Proof.
  apply (widget_write_quiet pf i cf role (with_active v)); [done |].
  intros w. apply preserves_bind; [|intros _]; apply emit_quiet; written.
Qed.

Lemma set_text_quiet pf run i cf role v :
  preserves (quiet pf i cf) (set_text pf run i role v).
Proof.
  apply (widget_write_quiet pf i cf role (with_text v)); [done |].
  intros w. apply preserves_bind; [|intros _]; apply emit_quiet; written.
Qed.

Lemma set_font_name_quiet pf run i cf role v :
  preserves (quiet pf i cf) (set_font_name pf run i role v).
Proof.
  apply (widget_write_quiet pf i cf role (with_font_name v)); [done |].
  intros w. apply emit_quiet; written.
Qed.

Lemma set_color_quiet pf run i cf role v :
  preserves (quiet pf i cf) (set_color pf run i role v).
Proof.
  apply (widget_write_quiet pf i cf role (with_color v)); [done |].
  intros w. apply emit_quiet; written.
Qed.

Lemma select_filename_quiet pf run i cf role v :
  preserves (quiet pf i cf) (select_filename pf run i role v).
Proof.
  apply (widget_write_quiet pf i cf role (with_filename v)); [done |].
  intros w. apply emit_quiet; written.
Qed.

Lemma row_set_quiet pf run i cf r f :
  ¬ programmatic pf "row-changed" →
  preserves (quiet pf i cf) (row_set pf run r f).
Proof.
  intros Hn a Ha. unfold row_set.
  destruct (get_row r a) as [[x | e] a0] eqn:Hget.
  2: { rewrite (bind_raise _ _ _ _ _ Hget). unfold get_row in Hget.
       destruct (indicators_model a !! r); inversion Hget; by subst. }
  assert (a0 = a) as ->.
  { unfold get_row in Hget. destruct (indicators_model a !! r); by inversion Hget. }
  rewrite (bind_return _ _ _ _ _ Hget).
  erewrite bind_return by reflexivity.
  unfold emit_shared.
  destruct (emits pf "row-changed" (negb (bool_decide (f x = x)))) eqn:E; [|done].
  destruct Hn. split; [written | eauto].
Qed.

Ltac quiet_steps :=
  unfold unselect_all;
  repeat match goal with
    | |- preserves _ (mret _) => apply preserves_ret
    | |- preserves _ (raise _) => apply preserves_raise
    | |- preserves _ (set_active _ _ _ _ _) => apply set_active_quiet
    | |- preserves _ (set_text _ _ _ _ _) => apply set_text_quiet
    | |- preserves _ (set_font_name _ _ _ _ _) => apply set_font_name_quiet
    | |- preserves _ (set_color _ _ _ _ _) => apply set_color_quiet
    | |- preserves _ (select_filename _ _ _ _ _) => apply select_filename_quiet
    | |- preserves _ (_ ≫= _) => apply preserves_bind; [|intros ?]
    | |- preserves _ (if ?c then _ else _) => destruct c
    | |- preserves _ (match ?c with _ => _ end) => destruct c
    end.

Lemma _set_widget_value_quiet pf run i cf v :
  preserves (quiet pf i cf) (_set_widget_value pf run i v).
Proof.
  intros a Ha. unfold _set_widget_value.
  destruct (options a !! i) as [[o p]|] eqn:Ho.
  2: { unfold get_option, mbind, M_bind. by rewrite Ho. }
  rewrite (bind_return _ _ _ o a) by (unfold get_option; by rewrite Ho).
  destruct (klass o) eqn:Hk;
    try (refine ((_ : preserves (quiet pf i cf) _) a Ha); by quiet_steps).
  apply (row_set_quiet pf run i cf); [|done].
  by apply (proj2 Ha) in Ho as [_ Hn]; apply Hn.
Qed.

Lemma blocks_of_pos ws b :
  b ∈ ws → change b = true → (0 < blocks_of ws (widget b, handler b))%nat.
Proof.
  intros Hb Hc. unfold blocks_of.
  assert (b ∈ filter (λ b' : BindingTuple,
                        change b' = true ∧ (widget b', handler b') = (widget b, handler b)) ws)
    as Hin by (by apply list_elem_of_filter).
  destruct (filter _ ws); [by apply elem_of_nil in Hin | cbn; lia].
Qed.

(** After the first loop of [block_signals], the handlers of a guarded
    option are silent. *)
Lemma guarded_silent pf i o h :
  guarded pf i o →
  silent pf (blocked_by (default [] (_signals i o)) h) (default [] (_signals i o)).
Proof.
  intros Hg b Hb Hp. destruct (Hg b Hb) as [Hc | Hn]; [|done].
  rewrite lookup_blocked_by. pose proof (blocks_of_pos _ b Hb Hc).
  destruct (h !! (widget b, handler b)) as [n|]; cbn; [|done].
  intros [= ?]. lia.
Qed.

(** The setter leaves the dirty flag of every option as it was when the
    handlers of the option are guarded, whether the write returns or raises. *)
Lemma set_value_guarded pf run a i o p v :
  options a !! i = Some (o, p) →
  guarded pf i o →
  (klass o = IndicatorOption → ¬ programmatic pf "row-changed") →
  changed_flags (set_value pf run i v a).2 = changed_flags a.
Proof.
  intros Ho Hg Hrow. unfold set_value.
  rewrite (bind_return _ _ _ o a) by (unfold get_option; by rewrite Ho).
  destruct (_signals i o) as [ws|] eqn:Hs.
  - unfold block_signals. erewrite bind_return by apply block_all_spec.
    set (a1 := with_handlers (blocked_by ws (handlers a)) a).
    assert (quiet pf i (changed_flags a) a1) as Hq.
    { split; [done |]. intros o1 p1. cbn. rewrite Ho. intros [= <- <-].
      split; [|done]. rewrite Hs. cbn. pose proof (guarded_silent pf i o (handlers a) Hg) as H.
      by rewrite Hs in H. }
    pose proof (_set_widget_value_quiet pf run i (changed_flags a) v a1 Hq) as [Hcf _].
    destruct (_set_widget_value pf run i v a1) as [[[] | e] a2] eqn:Hf.
    + rewrite (bind_return _ _ _ _ _ Hf).
      erewrite bind_return by apply unblock_all_spec. done.
    + by rewrite (bind_raise _ _ _ _ _ Hf).
  - assert (quiet pf i (changed_flags a) a) as Hq.
    { split; [done |]. intros o1 p1. rewrite Ho. intros [= <- <-].
      split; [|done]. rewrite Hs. by intros b Hb%elem_of_nil. }
    by pose proof (_set_widget_value_quiet pf run i (changed_flags a) v a Hq) as [Hcf _].
Qed.

Lemma not_written pf sig : sig ∉ written_signals → ¬ programmatic pf sig.
Proof. by intros Hn [Hin _]. Qed.

Ltac unwritten :=
  apply not_written; unfold written_signals;
  let H := fresh in
  intros H; repeat (apply elem_of_cons in H as [H | H]; [discriminate H |]);
  by apply elem_of_nil in H.

(** Which classes [_bind] guards: all but [IconOption] and
    [IndicatorOption], whose own handlers [_on_icon_changed],
    [_on_row_changed] and [_on_toggled] get no blocking flag. *)
Lemma guarded_klass pf i o :
  (klass o = IconOption → ¬ programmatic pf "changed") →
  (klass o = IndicatorOption →
   ¬ programmatic pf "row-changed" ∧ ¬ programmatic pf "toggled") →
  guarded pf i o.
Proof.
  intros Hicon Hind b. unfold _signals.
  destruct (klass o) eqn:Hk;
    destruct (from_option is_switch false (_widgets o !! "")); cbn;
    rewrite ?elem_of_cons, ?elem_of_nil; intros Hb;
    repeat (destruct Hb as [-> | Hb]); try done; cbn;
    first [ by left | right; unwritten | right; by apply Hicon | right; by apply Hind ].
Qed.

(** Where the value setter does leave the [changed] flag of every option
    as it was, whether the write returns or raises: for an option of any
    class but [IconOption] and [IndicatorOption] on every platform; for
    these two, whose own handlers [_bind] does not flag for blocking, this
    lemma covers only a platform that emits no [changed], resp. no
    [row-changed] and [toggled], for a write by the program. *)
Theorem value_setter_keeps_changed pf a i o p v :
  options a !! i = Some (o, p) →
  (klass o = IconOption → ¬ programmatic pf "changed") →
  (klass o = IndicatorOption →
   ¬ programmatic pf "row-changed" ∧ ¬ programmatic pf "toggled") →
  changed_flags (set_value pf (run_handler pf) i v a).2 = changed_flags a.
Proof.
  intros Ho Hicon Hind. apply (set_value_guarded pf _ a i o p v Ho).
  - by apply guarded_klass.
  - intros Hk. by apply Hind.
Qed.

Lemma value_setter_keeps_changed_witness :
  changed_flags (set_value gtk3 (run_handler gtk3) 0 (VStr "dark") string_app).2
  = changed_flags string_app.
Proof.
  apply (value_setter_keeps_changed gtk3 string_app 0 string_option
           (path_of "appearance" "theme-name") (VStr "dark")).
  - reflexivity.
  - intros H. discriminate H.
  - intros H. discriminate H.
Defined.

(** C4 fails for an [IconOption] given an icon name.  [WidgetsBinding] names
    the handler [_on_icon_changed] of the icon entry without the flag that
    [_bind] needs to block it, so the setter leaves it connected; writing the
    value ["#face"] sets the text of the entry, the toolkit emits [changed],
    the handler runs [touch], and the option, not changed before the
    assignment, is changed when the setter returns. *)
Lemma icon_value_setter_sets_changed :
  let r := set_value gtk3 (run_handler gtk3) 0 (VStr "#face") icon_app in
  r.1 = Return tt
  ∧ changed_of icon_app 0 = Some false
  ∧ changed_of r.2 0 = Some true.
Proof. cbv zeta. repeat split; reflexivity. Qed.

(** ** [save] *)

Lemma preserves_get_option Inv i : preserves Inv (get_option i).
Proof. intros a Ha. unfold get_option. by destruct (options a !! i) as [[]|]. Qed.

Lemma preserves_get_path Inv i : preserves Inv (get_path i).
Proof. intros a Ha. unfold get_path. by destruct (options a !! i) as [[]|]. Qed.

Lemma preserves_get_row Inv r : preserves Inv (get_row r).
Proof. intros a Ha. unfold get_row. by destruct (indicators_model a !! r). Qed.

Lemma preserves_get_widget Inv i role : preserves Inv (get_widget i role).
Proof.
  unfold get_widget. apply preserves_bind; [apply preserves_get_option |].
  intros o. destruct (_widgets o !! role); [apply preserves_ret | apply preserves_raise].
Qed.

Ltac reads_steps :=
  repeat match goal with
    | |- preserves _ (mret _) => apply preserves_ret
    | |- preserves _ (raise _) => apply preserves_raise
    | |- preserves _ (lift _) => apply preserves_lift
    | |- preserves _ (gets _) => apply preserves_gets
    | |- preserves _ (get_option _) => apply preserves_get_option
    | |- preserves _ (get_path _) => apply preserves_get_path
    | |- preserves _ (get_row _) => apply preserves_get_row
    | |- preserves _ (get_widget _ _) => apply preserves_get_widget
    | |- preserves _ (_ ≫= _) => apply preserves_bind; [|intros ?]
    | |- preserves _ (if ?c then _ else _) => destruct c
    | |- preserves _ (match ?c with _ => _ end) => destruct c
    end.

(** The getters only read. *)
Lemma _get_widget_value_reads pf Inv i : preserves Inv (_get_widget_value pf i).
Proof. unfold _get_widget_value. by reads_steps. Qed.

Lemma preserves_set_config a0 cp :
  preserves (λ a, sans_config a = sans_config a0) (set_config cp).
Proof. by intros a Ha. Qed.

Lemma save_option_sans_config pf a0 i :
  preserves (λ a, sans_config a = sans_config a0) (save_option pf i).
Proof.
  unfold save_option.
  repeat first
    [ apply preserves_set_config
    | apply _get_widget_value_reads
    | progress reads_steps ].
Qed.

Lemma prune_sans_config a0 :
  preserves (λ a, sans_config a = sans_config a0) prune.
Proof.
  unfold prune. apply preserves_bind; [apply preserves_gets |].
  intros cp. apply preserves_for_each. intros s _.
  repeat first [ apply preserves_set_config | progress reads_steps ].
Qed.

(** Up to its write to the output file, [save] changes nothing but the
    store, however it ends. *)
Lemma diff_sans_config pf a n :
  sans_config (for_each (seq 0 n) (save_option pf) a).2 = sans_config a.
Proof.
  apply (preserves_for_each (λ a', sans_config a' = sans_config a)); [|done].
  intros i _. apply save_option_sans_config.
Qed.

(** [save] never touches an option, a row or a handler, and quits nothing,
    whether it returns or raises. *)
Lemma save_leaves_options pf io a :
  let a' := (save pf io a).2 in
  options a' = options a ∧ indicators_model a' = indicators_model a
  ∧ handlers a' = handlers a ∧ main_running a' = main_running a.
Proof.
  cbv zeta.
  assert (preserves (λ a', options a' = options a
                           ∧ indicators_model a' = indicators_model a
                           ∧ handlers a' = handlers a
                           ∧ main_running a' = main_running a) (save pf io)) as H;
    [|by apply H].
  assert (∀ (P : Application → Prop) a0 a1,
            sans_config a1 = sans_config a0 →
            options a1 = options a0 ∧ indicators_model a1 = indicators_model a0
            ∧ handlers a1 = handlers a0 ∧ main_running a1 = main_running a0) as Hs.
  { intros _ a0 a1 H. unfold sans_config in H.
    destruct a0, a1. cbn in *. by inversion H. }
  unfold save. apply preserves_bind; [apply preserves_gets |]. intros n.
  apply preserves_bind.
  { intros a1 (H1 & H2 & H3 & H4).
    pose proof (diff_sans_config pf a1 n) as Hd.
    apply (Hs (λ _, True)) in Hd as (-> & -> & -> & ->). done. }
  intros _. apply preserves_bind.
  { intros a1 (H1 & H2 & H3 & H4).
    pose proof (prune_sans_config a1 a1 eq_refl) as Hd.
    apply (Hs (λ _, True)) in Hd as (-> & -> & -> & ->). done. }
  intros _. destruct io as [msg|].
  - apply preserves_bind; [by intros a1 |]. intros _. apply preserves_ret.
  - apply preserves_bind; [apply preserves_gets |]. intros cp.
    apply preserves_bind; [by intros a1 |]. intros _. apply preserves_ret.
Qed.

(** *** Pruning *)

Lemma lookup_foldl_delete {A} (l : list string) (m : gmap string A) s :
  foldl (λ m s, delete s m) m l !! s = if decide (s ∈ l) then None else m !! s.
Proof.
  revert m. induction l as [|x l IH]; intros m; cbn [foldl].
  - by rewrite decide_False by apply not_elem_of_nil.
  - rewrite IH. destruct (decide (s ∈ l)) as [Hin | Hnin].
    + by rewrite decide_True by (by right).
    + destruct (decide (s = x)) as [-> | Hne].
      * rewrite decide_True by (by left). apply lookup_delete_eq.
      * rewrite decide_False by (by intros [?|?]%elem_of_cons).
        by apply lookup_delete_ne.
Qed.

Lemma for_each_delitem (l : list string) a :
  NoDup l → "DEFAULT" ∉ l → (∀ s, s ∈ l → is_Some (_sections (config a) !! s)) →
  for_each l (λ s, cp ← gets config; cp' ← lift (delitem cp s); set_config cp') a
  = (Return tt,
     with_config (with_sections (foldl (λ m s, delete s m) (_sections (config a)) l)
                    (config a)) a).
Proof.
  revert a. induction l as [|x l IH]; intros a Hnd Hdef Hin.
  - cbn. by destruct a as [? ? ? []].
  - apply NoDup_cons in Hnd as [Hx Hnd]. cbn [for_each foldl].
    assert (x ≠ "DEFAULT") as Hxd by (intros ->; apply Hdef; by left).
    assert (delitem (config a) x
            = inr (with_sections (delete x (_sections (config a))) (config a))) as Hdel.
    { unfold delitem, default_section, has_section.
      destruct (String.eqb_spec x "DEFAULT"); [done |].
      rewrite bool_decide_true; [done | apply Hin; by left]. }
    erewrite bind_return; last first.
    { erewrite bind_return by reflexivity. rewrite Hdel. cbn [lift].
      erewrite bind_return by reflexivity. reflexivity. }
    rewrite IH; [done | done | by intros ?; apply Hdef; right |].
    intros s Hs. cbn. rewrite lookup_delete_ne; [apply Hin; by right |].
    by intros ->.
Qed.

Lemma prune_spec a : prune a = (Return tt, with_config (pruned (config a)) a).
Proof.
  unfold prune. erewrite bind_return by reflexivity.
  apply for_each_delitem.
  - unfold sections_to_delete, cp_iter. rewrite filter_cons_False by (by intros [? _]).
    apply NoDup_filter, NoDup_fst_map_to_list.
  - unfold sections_to_delete. by intros [[? _] _]%list_elem_of_filter.
  - unfold sections_to_delete, cp_iter. intros s [[Hs _] Hin]%list_elem_of_filter.
    apply elem_of_cons in Hin as [-> | Hin]; [done |].
    apply list_elem_of_fmap in Hin as ([s' d] & -> & Hin).
    apply elem_of_map_to_list in Hin. by exists d.
Qed.

Lemma proxy_len_zero cp s d :
  s ≠ "DEFAULT" → _sections cp !! s = Some d →
  proxy_len cp s = 0%nat ↔ d = ∅ ∧ _defaults cp = ∅.
Proof.
  intros Hs Hd. unfold proxy_len, default_section.
  destruct (String.eqb_spec s "DEFAULT"); [done |]. rewrite Hd. cbn.
  rewrite map_size_empty_iff. split.
  - intros H. split; [by apply map_positive_l in H |].
    apply map_empty. intros k. apply (f_equal (λ m, m !! k)) in H.
    rewrite lookup_empty in H. by apply lookup_union_None in H as [_ ?].
  - intros [-> ->]. apply map_empty. intros k.
    by rewrite lookup_union, !lookup_empty.
Qed.

(** Which sections the pruning keeps. *)
Lemma pruned_sections cp s :
  _sections (pruned cp) !! s
  = match _sections cp !! s with
    | Some d => if decide (s ≠ "DEFAULT" ∧ d = ∅ ∧ _defaults cp = ∅) then None else Some d
    | None => None
    end.
Proof.
  unfold pruned. cbn [_sections with_sections]. rewrite lookup_foldl_delete.
  destruct (_sections cp !! s) as [d|] eqn:Hd.
  - destruct (decide (s ∈ sections_to_delete cp)) as [Hin | Hnin].
    + unfold sections_to_delete in Hin.
      apply list_elem_of_filter in Hin as [[Hs Hlen] _].
      apply (proxy_len_zero cp s d Hs Hd) in Hlen as [He Hdef].
      by rewrite decide_True by (repeat split; assumption).
    + rewrite decide_False; [done |]. intros (Hs & He & Hdef). apply Hnin.
      unfold sections_to_delete. apply list_elem_of_filter. split.
      * split; [done |]. by apply (proxy_len_zero cp s d).
      * unfold cp_iter. right. apply list_elem_of_fmap. exists (s, d).
        split; [done |]. by apply elem_of_map_to_list.
  - by destruct (decide _).
Qed.

Lemma sans_config_fields a1 a0 :
  sans_config a1 = sans_config a0 →
  options a1 = options a0 ∧ indicators_model a1 = indicators_model a0
  ∧ handlers a1 = handlers a0 ∧ shown_errors a1 = shown_errors a0
  ∧ written a1 = written a0 ∧ main_running a1 = main_running a0.
Proof.
  unfold sans_config. intros H. destruct a0, a1. cbn in *. by inversion H.
Qed.

(** C5, as the code prunes. After a [save] that succeeds, the store written
    is the store the diff left, pruned: the keys of [DEFAULT] are never
    removed, and a section other than [DEFAULT] is absent exactly when it
    has no key of its own and [DEFAULT] has no key either (an empty section
    stays when [DEFAULT] has keys, which its proxy counts as its own). *)
Theorem save_prunes_empty_sections pf a a' :
  save pf None a = (Return true, a') →
  ∃ am,
    for_each (seq 0 (length (options a))) (save_option pf) a = (Return tt, am)
    ∧ last_written a' = Some (config a')
    ∧ _defaults (config a') = _defaults (config am)
    ∧ ∀ s, _sections (config a') !! s
           = match _sections (config am) !! s with
             | Some d =>
                 if decide (s ≠ "DEFAULT" ∧ d = ∅ ∧ _defaults (config am) = ∅)
                 then None else Some d
             | None => None
             end.
Proof.
  unfold save. intros H.
  apply bind_returns in H as (n & a0 & [= <- <-] & H).
  apply bind_returns in H as ([] & am & Hdiff & H).
  exists am. split; [done |].
  rewrite (bind_return _ _ _ _ _ (prune_spec am)) in H.
  cbn in H. injection H as <-. cbn. split; [|split; [done |]].
  - unfold last_written. cbn. by rewrite last_snoc.
  - intros s. apply pruned_sections.
Qed.

Lemma save_prunes_empty_sections_witness :
  ∃ a', save gtk3 None (clock_off_app clock_only) = (Return true, a')
        ∧ _sections (config a') !! "clock" = None
        ∧ last_written a' = Some (config a').
Proof.
  exists (save gtk3 None (clock_off_app clock_only)).2.
  destruct (save_prunes_empty_sections gtk3 (clock_off_app clock_only)
              (save gtk3 None (clock_off_app clock_only)).2 eq_refl)
    as (am & _ & Hw & _ & _).
  split; [reflexivity |]. split; [reflexivity | exact Hw].
Defined.

(** C5 fails when [DEFAULT] has a key: the only key of section ["clock"] is
    removed, and the section, left without keys, is still in the store that
    is written. *)
Lemma empty_section_kept_with_defaults :
  let r := save gtk3 None (clock_off_app clock_with_default) in
  r.1 = Return true
  ∧ stored (clock_off_app clock_with_default) "clock" "enabled" = Some (Some "1")
  ∧ (last_written r.2 ≫= λ cp, _sections cp !! "clock") = Some ∅.
Proof. cbv zeta. repeat split; reflexivity. Qed.

(** C7. When [save] reaches the write and the write fails with an [OSError],
    [save] shows the error and returns [False]; the options, the rows and
    the handlers are what they were before [save], nothing is recorded as
    written, and [_on_ok_clicked] leaves the main loop running. *)
Theorem save_write_failure pf msg a am :
  for_each (seq 0 (length (options a))) (save_option pf) a = (Return tt, am) →
  ∃ a',
    save pf (Some msg) a = (Return false, a')
    ∧ shown_errors a' = (shown_errors a ++ [OSError msg])%list
    ∧ options a' = options a
    ∧ indicators_model a' = indicators_model a
    ∧ handlers a' = handlers a
    ∧ written a' = written a
    ∧ _on_ok_clicked pf (Some msg) a = (Return tt, a')
    ∧ main_running a' = main_running a.
Proof.
  intros Hdiff.
  pose proof (diff_sans_config pf a (length (options a))) as Hs.
  rewrite Hdiff in Hs. cbn in Hs.
  apply sans_config_fields in Hs as (Ho & Hm & Hh & He & Hw & Hr).
  assert (save pf (Some msg) a
          = (Return false,
             with_shown_errors (shown_errors am ++ [OSError msg])
               (with_config (pruned (config am)) am))) as Hsave.
  { unfold save. erewrite bind_return by reflexivity.
    rewrite (bind_return _ _ _ _ _ Hdiff).
    rewrite (bind_return _ _ _ _ _ (prune_spec am)). reflexivity. }
  eexists. split; [exact Hsave |]. cbn.
  rewrite He, Ho, Hm, Hh, Hw, Hr. repeat split; try done.
  unfold _on_ok_clicked. rewrite (bind_return _ _ _ _ _ Hsave). cbn.
  by rewrite He.
Qed.

Lemma save_write_failure_witness :
  ∃ a', save gtk3 (Some "Permission denied") (clock_off_app clock_only) = (Return false, a')
        ∧ options a' = options (clock_off_app clock_only)
        ∧ main_running a' = true.
Proof.
  destruct (save_write_failure gtk3 "Permission denied" (clock_off_app clock_only)
              (for_each (seq 0 1) (save_option gtk3) (clock_off_app clock_only)).2 eq_refl)
    as (a' & Hs & _ & Ho & _ & _ & _ & _ & Hr).
  exists a'. split; [exact Hs |]. split; [exact Ho | exact Hr].
Defined.

(** C3 on an input the code cannot handle. [theme-name] is changed and
    disabled and the file has no section ["appearance"]: [remove_option]
    raises [NoSectionError], which the branch for enabled options avoids by
    adding the section first.  [save] stops there: nothing is written, and
    the changed and enabled [allow-other-users] never reaches the store. *)
Theorem save_raises_on_missing_section :
  let r := save gtk3 None theme_off_app in
  changed_of theme_off_app 0 = Some true ∧ enabled_of theme_off_app 0 = Some false
  ∧ changed_of theme_off_app 1 = Some true ∧ enabled_of theme_off_app 1 = Some true
  ∧ r.1 = Raise (NoSectionError "appearance")
  ∧ written r.2 = []
  ∧ stored r.2 "greeter" "allow-other-users" = None.
Proof. cbv zeta. repeat split; reflexivity. Qed.

(** C10 on an input the code cannot handle. The clock's only key is removed
    by a first [save], whose pruning deletes the emptied section; the
    options are as before, still changed, and a second [save] raises
    [NoSectionError] at the same removal instead of applying it again.
    The same happens when the first [save] failed to write and is retried. *)
Theorem second_save_raises :
  let a := clock_off_app clock_only in
  let first := save gtk3 None a in
  let second := save gtk3 None first.2 in
  let failed := save gtk3 (Some "Permission denied") a in
  let retried := save gtk3 None failed.2 in
  first.1 = Return true ∧ options first.2 = options a
  ∧ second.1 = Raise (NoSectionError "clock")
  ∧ failed.1 = Return false ∧ options failed.2 = options a
  ∧ retried.1 = Raise (NoSectionError "clock") ∧ written retried.2 = [].
Proof. cbv zeta. repeat split; reflexivity. Qed.

(** C6 on inputs the code cannot handle. The parser interpolates what it
    returns: for the stored time format [%H:%M], reading the key raises
    [InterpolationSyntaxError] out of [read], before the default is set and
    [reset] is called; for the stored text [50%%] the default becomes [50%],
    not the stored string. *)
Theorem read_interpolates_stored_value :
  let r := read gtk3 (time_format_file "%H:%M") None time_format_app in
  let q := read gtk3 (time_format_file "50%%") None time_format_app in
  r.1 = Raise (InterpolationSyntaxError "time-format" "clock")
  ∧ stored r.2 "clock" "time-format" = Some (Some "%H:%M")
  ∧ enabled_of r.2 0 = Some true
  ∧ default_of r.2 0 = Some (VStr "")
  ∧ q.1 = Return tt
  ∧ stored q.2 "clock" "time-format" = Some (Some "50%%")
  ∧ default_of q.2 0 = Some (VStr "50%")
  ∧ text_of q.2 0 "" = Some (VStr "50%").
Proof. cbv zeta. repeat split; reflexivity. Qed.

(** ** [reset] twice *)

(** *** A list of constant writes is idempotent *)

Lemma const_or_keep_id {A} (π : Widget → A) : const_or_keep π (λ w, w).
Proof. by right. Qed.

Lemma const_or_keep_compose {A} (π : Widget → A) (f g : Widget → Widget) :
  const_or_keep π f → const_or_keep π g → const_or_keep π (λ w, f (g w)).
Proof.
  intros [Hf | Hf] Hg; [by left |].
  destruct Hg as [Hg | Hg]; [left | right]; intros; rewrite !Hf; auto.
Qed.

Lemma written_by_cons x L r w :
  written_by (x :: L) r w
  = written_by L r (if decide (x.1 = r) then apply_write x.2 w else w).
Proof. done. Qed.

Lemma written_by_fields L r :
  const_or_keep active (written_by L r) ∧ const_or_keep text (written_by L r)
  ∧ const_or_keep filename (written_by L r) ∧ const_or_keep color (written_by L r)
  ∧ const_or_keep font_name (written_by L r)
  ∧ (∀ w, sensitive (written_by L r w) = sensitive w)
  ∧ (∀ w, is_switch (written_by L r w) = is_switch w).
Proof.
  induction L as [|[role pw] L (Ha & Ht & Hf & Hc & Hn & Hs & Hw)].
  - repeat split; by right.
  - assert (∀ {A} (π : Widget → A),
              const_or_keep π (written_by L r) →
              const_or_keep π (apply_write pw) →
              const_or_keep π (written_by ((role, pw) :: L) r)) as Hstep.
    { intros A π HL Hpw. cbn [fst snd].
      destruct (decide (role = r)) as [-> | Hne].
      - eapply (const_or_keep_compose π (written_by L r) (apply_write pw)) in Hpw; [|done].
        destruct Hpw as [H | H]; [left | right]; intros; rewrite !written_by_cons;
          cbn [fst snd]; rewrite !decide_True by done; auto.
      - destruct HL as [H | H]; [left | right]; intros; rewrite !written_by_cons;
          cbn [fst snd]; rewrite !decide_False by done; auto. }
    repeat split.
    + apply Hstep; [done |]. destruct pw; first [by left | by right].
    + apply Hstep; [done |]. destruct pw; first [by left | by right].
    + apply Hstep; [done |]. destruct pw; first [by left | by right].
    + apply Hstep; [done |]. destruct pw; first [by left | by right].
    + apply Hstep; [done |]. destruct pw; first [by left | by right].
    + intros w. rewrite written_by_cons. cbn [fst snd]. rewrite Hs.
      destruct (decide (role = r)); [by destruct pw | done].
    + intros w. rewrite written_by_cons. cbn [fst snd]. rewrite Hw.
      destruct (decide (role = r)); [by destruct pw | done].
Qed.

Lemma Widget_ext (w w' : Widget) :
  active w = active w' → text w = text w' → filename w = filename w' →
  color w = color w' → font_name w = font_name w' → sensitive w = sensitive w' →
  is_switch w = is_switch w' → w = w'.
Proof. destruct w, w'. cbn. by intros -> -> -> -> -> -> ->. Qed.

Lemma written_by_idempotent L r w :
  written_by L r (written_by L r w) = written_by L r w.
Proof.
  destruct (written_by_fields L r) as (Ha & Ht & Hf & Hc & Hn & Hs & Hw).
  assert (∀ {A} (π : Widget → A), const_or_keep π (written_by L r) →
            π (written_by L r (written_by L r w)) = π (written_by L r w)) as H.
  { intros A π [Hk | Hk]; [apply Hk | by rewrite Hk]. }
  apply Widget_ext; auto.
Qed.

(** *** One write, with the handlers it wakes *)

Lemma hoare_preserves {A} (P : Application → Prop) (m : M Application A) Q :
  hoare P m (λ _, Q) → ∀ a, P a → Q (m a).2.
Proof. intros H a Ha. destruct (H a Ha) as (x & a' & -> & Hq). done. Qed.

Lemma hoare_swallow_preserves {A} (Q : Application → Prop) (m : M Application A) :
  preserves Q m → hoare Q (swallow m) (λ _, Q).
Proof.
  intros Hm a Ha. specialize (Hm a Ha). unfold swallow.
  destruct (m a) as [[x | e] a']; by exists tt, a'.
Qed.

Lemma _signals_untouched i o : _signals i (untouched o) = _signals i o.
Proof. done. Qed.

Lemma update_option_clean i f a o p :
  options a !! i = Some (o, p) →
  clean_options (with_options (alter (prod_map f id) i (options a)) a)
  = <[i := (untouched (f o), p)]> (clean_options a).
Proof.
  intros Ho. unfold clean_options. cbn. apply list_eq. intros j.
  destruct (decide (i = j)) as [<- | Hne].
  - rewrite list_lookup_fmap, list_lookup_alter_eq, Ho. cbn.
    rewrite list_lookup_insert_eq; [done |].
    rewrite length_fmap. by eapply lookup_lt_Some.
  - by rewrite list_lookup_insert_ne, !list_lookup_fmap, list_lookup_alter_ne.
Qed.

Lemma emit_to_settled run c m i role sig args :
  (i < length c)%nat →
  (∀ u p b, c !! i = Some (u, p) → b ∈ default [] (_signals i u) →
            (widget b).2 = role → signal b = sig →
            preserves (settled c m) (run (handler b) i args)) →
  hoare (settled c m) (emit_to run i role sig args) (λ _, settled c m).
Proof.
  intros Hi Hrun a Ha.
  assert (i < length (options a))%nat as Hia by (by rewrite (settled_length _ _ _ Ha)).
  destruct (lookup_lt_is_Some_2 _ _ Hia) as [[o p] Ho].
  unfold emit_to. rewrite (bind_return _ _ _ o a) by (unfold get_option; by rewrite Ho).
  assert (c !! i = Some (untouched o, p)) as Hc.
  { destruct Ha as [<- _]. by apply clean_options_lookup. }
  apply (hoare_for_each (settled c m)); [|done].
  intros b Hb.
  destruct (String.eqb (widget b).2 role && String.eqb (signal b) sig) eqn:Em;
    [|by apply hoare_ret].
  apply andb_true_iff in Em as [Er%String.eqb_eq Es%String.eqb_eq].
  eapply hoare_bind; [apply hoare_gets |].
  intros n. eapply hoare_conseq with (P' := settled c m) (Q' := λ _, settled c m);
    [| by intros a' [_ Ha'] | done].
  destruct n as [[|n]|]; try by apply hoare_ret.
  apply hoare_swallow_preserves. by apply (Hrun (untouched o) p).
Qed.

Lemma emit_settled pf run c m i role sig args d :
  (i < length c)%nat →
  (∀ u p b, c !! i = Some (u, p) → b ∈ default [] (_signals i u) →
            (widget b).2 = role → signal b = sig →
            preserves (settled c m) (run (handler b) i args)) →
  hoare (settled c m) (emit pf run i role sig args d) (λ _, settled c m).
Proof.
  intros Hi Hrun. unfold emit. destruct (emits pf sig d); [|by apply hoare_ret].
  by apply emit_to_settled.
Qed.

Lemma leaf_run_handler pf h i args :
  h ∈ leaf_names → run_handler pf h i args = leaf_handler h i args.
Proof.
  unfold leaf_names. rewrite !elem_of_cons, elem_of_nil.
  by intros [-> | [-> | [-> | []]]].
Qed.

Lemma with_widgets_same o ws : _widgets o = ws → with_widgets ws o = o.
Proof. intros <-. by destruct o. Qed.

Lemma with_active_same w : active w = true → with_active true w = w.
Proof. destruct w. cbn. by intros ->. Qed.

Lemma with_options_same a : with_options (options a) a = a.
Proof. by destruct a. Qed.

Lemma emit_leaf_settled pf c m i role sig args d :
  (i < length c)%nat →
  hoare (settled c m) (emit pf leaf_handler i role sig args d) (λ _, settled c m).
Proof.
  intros Hi. apply emit_settled; [done |]. intros u p b _ _ _ _.
  intros a Ha. by apply (hoare_preserves _ _ _ (leaf_handler_settled c m _ i args Hi)).
Qed.

(** [_on_icon_changed] leaves the controls alone once [is_icon] is set. *)
Lemma _on_icon_changed_settled pf c m i u p args :
  c !! i = Some (u, p) →
  (∀ w, _widgets u !! "is_icon" = Some w → active w = true) →
  preserves (settled c m) (run_handler pf "_on_icon_changed" i args).
Proof.
  intros Hc Hact.
  assert (i < length c)%nat as Hi by (by eapply lookup_lt_Some).
  change (run_handler pf "_on_icon_changed" i args)
    with (set_active pf leaf_handler i "is_icon" true ≫= λ _, touch i).
  apply preserves_bind.
  2: { intros _ a Ha. by apply (hoare_preserves _ _ _ (touch_settled c m i)). }
  intros a Ha. unfold set_active.
  destruct (get_widget i "is_icon" a) as [[w | e] a0] eqn:Hget;
    destruct (get_widget_inv _ _ _ _ _ Hget) as [-> Hw].
  2: { by rewrite (bind_raise _ _ _ _ _ Hget). }
  destruct Hw as (o & p' & Ho & Hw).
  assert (untouched o = u ∧ p' = p) as [Hu ->].
  { destruct Ha as [<- _]. rewrite (clean_options_lookup _ _ _ _ Ho) in Hc.
    by inversion Hc. }
  assert (active w = true) as Hw1.
  { apply Hact. rewrite <- Hu. exact Hw. }
  assert (put_widget i "is_icon" (with_active true w) a = (Return tt, a)) as Hput.
  { unfold put_widget, update_option, modify. f_equal.
    rewrite with_active_same by done.
    assert (alter (prod_map (λ o, with_widgets (<["is_icon" := w]> (_widgets o)) o) id)
              i (options a) = options a) as ->; [|apply with_options_same].
    apply list_eq. intros j. destruct (decide (i = j)) as [<- | Hne].
    - rewrite list_lookup_alter_eq, Ho. cbn.
      by rewrite insert_id, with_widgets_same.
    - by rewrite list_lookup_alter_ne. }
  rewrite (bind_return _ _ _ _ _ Hget), (bind_return _ _ _ _ _ Hput).
  refine (hoare_preserves (settled c m) _ _ _ a Ha).
  eapply hoare_bind; [|intros u0]; by apply emit_leaf_settled.
Qed.

Lemma lookup_retouch h ws r : retouch h ws !! r = h r <$> ws !! r.
Proof. unfold retouch. rewrite map_lookup_imap. by destruct (ws !! r). Qed.

Lemma written_by_snoc P x r w :
  written_by (P ++ [x]) r w
  = if decide (x.1 = r) then apply_write x.2 (written_by P r w) else written_by P r w.
Proof. unfold written_by. by rewrite foldl_snoc. Qed.

Lemma retouch_snoc P x ws w0 :
  ws !! x.1 = Some w0 →
  <[x.1 := apply_write x.2 (written_by P x.1 w0)]> (retouch (written_by P) ws)
  = retouch (written_by (P ++ [x])) ws.
Proof.
  intros Hw. apply map_eq. intros r. rewrite lookup_retouch.
  destruct (decide (x.1 = r)) as [<- | Hne].
  - rewrite lookup_insert_eq, Hw. cbn. by rewrite written_by_snoc, decide_True.
  - rewrite lookup_insert_ne, lookup_retouch by done.
    destruct (ws !! r); [|done]. cbn. by rewrite written_by_snoc, decide_False.
Qed.

Lemma placed_option i u p c0 h m a :
  c0 !! i = Some (u, p) →
  settled (place i u p c0 h) m a →
  ∃ o, options a !! i = Some (o, p) ∧ untouched o = with_widgets (retouch h (_widgets u)) u.
Proof.
  intros Hc [Ha _]. apply clean_options_lookup_inv. rewrite Ha. unfold place.
  apply list_lookup_insert_eq. by eapply lookup_lt_Some.
Qed.

Lemma place_length i u p c0 h : length (place i u p c0 h) = length c0.
Proof. unfold place. apply length_insert. Qed.

Lemma place_lookup i u p c0 h :
  c0 !! i = Some (u, p) →
  place i u p c0 h !! i = Some (with_widgets (retouch h (_widgets u)) u, p).
Proof. intros Hc. unfold place. apply list_lookup_insert_eq. by eapply lookup_lt_Some. Qed.

Lemma _signals_retouch i u P :
  _signals i (with_widgets (retouch (written_by P) (_widgets u)) u) = _signals i u.
Proof.
  unfold _signals. cbn. rewrite lookup_retouch.
  destruct (_widgets u !! "") as [w|]; [|done]. cbn.
  destruct (written_by_fields P "") as (_ & _ & _ & _ & _ & _ & Hsw). by rewrite Hsw.
Qed.

(** A property write on an option whose widgets are the initial ones after
    the writes [P]. *)
Lemma write_settled i c0 m u p P role pw (rest : Widget → M Application unit) a :
  c0 !! i = Some (u, p) →
  (∀ w, hoare (settled (place i u p c0 (written_by (P ++ [(role, pw)]))) m) (rest w)
              (λ _, settled (place i u p c0 (written_by (P ++ [(role, pw)]))) m)) →
  settled (place i u p c0 (written_by P)) m a →
  match _widgets u !! role with
  | Some _ =>
      ∃ a', (get_widget i role ≫= λ w,
             put_widget i role (apply_write pw w) ≫= λ _, rest w) a = (Return tt, a')
            ∧ settled (place i u p c0 (written_by (P ++ [(role, pw)]))) m a'
  | None =>
      ∃ a', (get_widget i role ≫= λ w,
             put_widget i role (apply_write pw w) ≫= λ _, rest w) a
            = (Raise AttributeError, a')
  end.
Proof.
  intros Hc Hrest Ha.
  destruct (placed_option i u p c0 _ m a Hc Ha) as (o & Ho & Hu).
  assert (_widgets o = retouch (written_by P) (_widgets u)) as Hws.
  { by apply (f_equal _widgets) in Hu. }
  destruct (_widgets u !! role) as [w0|] eqn:Hw0.
  - assert (get_widget i role a = (Return (written_by P role w0), a)) as Hget.
    { unfold get_widget, get_option, mbind, M_bind. rewrite Ho, Hws, lookup_retouch, Hw0.
      done. }
    set (w := written_by P role w0) in *.
    set (a1 := (put_widget i role (apply_write pw w) a).2).
    destruct (Hrest w a1) as ([] & a' & Hr & Hs).
    { destruct Ha as [Ha Hm]. split; [|done].
      unfold a1, put_widget, update_option, modify. cbn [snd].
      rewrite (update_option_clean i _ a o p Ho), Ha. unfold place.
      rewrite list_insert_insert_eq. do 2 f_equal.
      change (untouched (with_widgets ?W o)) with (with_widgets W (untouched o)).
      rewrite Hu, Hws. cbn [with_widgets klass _changed _enabled _default _label
                             _widgets _prefs _row].
      by rewrite <- (retouch_snoc P (role, pw) (_widgets u) w0 Hw0). }
    exists a'. split; [|done].
    rewrite (bind_return _ _ _ _ _ Hget).
    by erewrite bind_return by reflexivity.
  - exists a. apply bind_raise.
    unfold get_widget, get_option, mbind, M_bind. by rewrite Ho, Hws, lookup_retouch, Hw0.
Qed.

(** The signals of a safe write wake harmless handlers only. *)
Lemma safe_emit pf i c0 m u p P x sig args d :
  c0 !! i = Some (u, p) →
  safe_write i u P x →
  sig ∈ written_signals →
  hoare (settled (place i u p c0 (written_by (P ++ [x]))) m)
        (emit pf (run_handler pf) i x.1 sig args d)
        (λ _, settled (place i u p c0 (written_by (P ++ [x]))) m).
Proof.
  intros Hc Hsafe Hsig.
  assert (i < length c0)%nat as Hi by (by eapply lookup_lt_Some).
  apply emit_settled; [by rewrite place_length |].
  intros u' p' b Hu' Hb Hrole <-.
  rewrite (place_lookup i u p c0 _ Hc) in Hu'. injection Hu' as <- <-.
  rewrite _signals_retouch in Hb.
  destruct (Hsafe b Hb Hrole Hsig) as [Hleaf | [Hicon Hact]].
  - rewrite (leaf_run_handler pf _ i args Hleaf). intros a Ha.
    apply (hoare_preserves _ _ _ (leaf_handler_settled _ m _ i args
             ltac:(by rewrite place_length)) a Ha).
  - rewrite Hicon.
    apply (_on_icon_changed_settled pf _ m i _ p args (place_lookup i u p c0 _ Hc)).
    intros w. cbn. rewrite lookup_retouch.
    destruct (_widgets u !! "is_icon") as [w0|]; [|done]. cbn. intros [= <-].
    apply Hact.
Qed.

Lemma perform_settled pf i c0 m u p P x a :
  c0 !! i = Some (u, p) →
  safe_write i u P x →
  settled (place i u p c0 (written_by P)) m a →
  match _widgets u !! x.1 with
  | Some _ =>
      ∃ a', perform pf (run_handler pf) i x a = (Return tt, a')
            ∧ settled (place i u p c0 (written_by (P ++ [x]))) m a'
  | None => ∃ a', perform pf (run_handler pf) i x a = (Raise AttributeError, a')
  end.
Proof.
  intros Hc Hsafe Ha. destruct x as [role pw].
  assert (∀ sig args d, sig ∈ written_signals →
            hoare (settled (place i u p c0 (written_by (P ++ [(role, pw)]))) m)
              (emit pf (run_handler pf) i role sig args d)
              (λ _, settled (place i u p c0 (written_by (P ++ [(role, pw)]))) m)) as He.
  { intros sig args d Hsig. by apply (safe_emit pf i c0 m u p P (role, pw)). }
  destruct pw as [v | v | v | v | v]; cbn [perform fst snd].
  - apply (write_settled i c0 m u p P role (Active v) _ a Hc); [|done].
    intros w. eapply hoare_bind; [|intros ?]; apply He; written.
  - apply (write_settled i c0 m u p P role (Text v) _ a Hc); [|done].
    intros w. eapply hoare_bind; [|intros ?]; apply He; written.
  - apply (write_settled i c0 m u p P role (Filename v) _ a Hc); [|done].
    intros w. apply He; written.
  - apply (write_settled i c0 m u p P role (Color v) _ a Hc); [|done].
    intros w. apply He; written.
  - apply (write_settled i c0 m u p P role (FontName v) _ a Hc); [|done].
    intros w. apply He; written.
Qed.

(** *** The writes of a setter, one after the other *)

Lemma exec_settled pf i c0 m u p L :
  c0 !! i = Some (u, p) →
  ∀ P a, safe i u P L →
    settled (place i u p c0 (written_by P)) m a →
    if roles_exist (_widgets u) L
    then ∃ a', for_each L (perform pf (run_handler pf) i) a = (Return tt, a')
               ∧ settled (place i u p c0 (written_by (P ++ L))) m a'
    else ∃ e a', for_each L (perform pf (run_handler pf) i) a = (Raise e, a').
Proof.
  intros Hc. induction L as [|x L IH]; intros P a Hsafe Ha.
  - cbn. exists a. by rewrite app_nil_r.
  - destruct Hsafe as [Hx Hsafe]. cbn [roles_exist forallb for_each].
    pose proof (perform_settled pf i c0 m u p P x a Hc Hx Ha) as Hp.
    destruct (_widgets u !! x.1) as [w0|] eqn:Hw0.
    + destruct Hp as (a1 & Hrun & Ha1).
      rewrite bool_decide_true by done. cbn [andb].
      specialize (IH (P ++ [x])%list a1 Hsafe Ha1). fold (roles_exist (_widgets u) L).
      rewrite <- app_assoc in IH. cbn [app] in IH.
      destruct (roles_exist (_widgets u) L).
      * destruct IH as (a' & Hrun' & Ha'). exists a'.
        by rewrite (bind_return _ _ _ _ _ Hrun).
      * destruct IH as (e & a' & Hrun'). exists e, a'.
        by rewrite (bind_return _ _ _ _ _ Hrun).
    + destruct Hp as (a1 & Hrun).
      rewrite bool_decide_false by (by intros [? ?]). cbn [andb].
      exists AttributeError, a1. by rewrite (bind_raise _ _ _ _ _ Hrun).
Qed.

Lemma bind_ret_l {A B} (x : A) (k : A → M Application B) a : (mret x ≫= k) a = k x a.
Proof. done. Qed.

Lemma bind_unit_r (m : M Application unit) a : (m ≫= λ _, mret tt) a = m a.
Proof. unfold mbind, M_bind. by destruct (m a) as [[[] | e] a']. Qed.

Lemma bind_ext {A B} (m : M Application A) (k k' : A → M Application B) a :
  (∀ x a', k x a' = k' x a') → (m ≫= k) a = (m ≫= k') a.
Proof. intros H. unfold mbind, M_bind. destruct (m a) as [[x | e] a']; [apply H | done]. Qed.

Ltac plan_eq :=
  unfold unselect_all; cbn [for_each perform fst snd app];
  repeat match goal with
    | |- (mret tt ≫= _) _ = _ => rewrite bind_ret_l
    | |- (?m ≫= _) _ = (?m ≫= _) _ => apply bind_ext; intros [] ?
    | |- ?m ?a = (?m ≫= λ _, mret tt) ?a => symmetry; apply bind_unit_r
    | |- mret tt ?a = mret tt ?a => reflexivity
    end.

(** [_set_widget_value] makes the writes of [writes_of], in order. *)
Lemma _set_widget_value_writes pf run i v a o p :
  options a !! i = Some (o, p) →
  klass o ≠ IndicatorOption →
  _set_widget_value pf run i v a
  = match writes_of pf o v with
    | inl e => (Raise e, a)
    | inr L => for_each L (perform pf run i) a
    end.
Proof.
  intros Ho Hk. unfold _set_widget_value, writes_of.
  rewrite (bind_return _ _ _ o a) by (unfold get_option; by rewrite Ho).
  destruct (klass o); try done.
  - plan_eq.
  - plan_eq.
  - plan_eq.
  - plan_eq.
  - destruct (negb (py_bool v)); [plan_eq |]. destruct v; try done. plan_eq.
  - destruct v as [| | |s]; try done. cbv zeta.
    destruct (negb (startswith "#" s)); destruct (negb (py_bool (VStr s))); cbn [orb negb];
      try destruct (color_parse pf _); plan_eq.
  - destruct v as [| | |s]; try done. cbv zeta.
    destruct (negb (startswith "#" s)); destruct (negb (py_bool (VStr s))); cbn [orb negb];
      plan_eq.
  - destruct (py_bool v); plan_eq.
  - plan_eq.
Qed.

Ltac not_written_in H :=
  exfalso; unfold written_signals in H;
  repeat (apply elem_of_cons in H as [H | H]; [discriminate H |]);
  by apply elem_of_nil in H.

Ltac safe_write_tac Hk :=
  let b := fresh "b" in
  let Hb := fresh "Hb" in
  let Hrole := fresh "Hrole" in
  let Hsig := fresh "Hsig" in
  intros b Hb Hrole Hsig; unfold _signals in Hb; rewrite Hk in Hb;
  destruct (from_option is_switch false _); cbn in Hb;
  rewrite ?elem_of_cons, ?elem_of_nil in Hb;
  repeat (destruct Hb as [-> | Hb]); try done;
  cbn in Hrole; try discriminate Hrole; cbn in Hsig;
  first [ by (left; unfold leaf_names; cbn; repeat constructor)
        | not_written_in Hsig
        | by (right; split; [reflexivity | intros w; reflexivity]) ].

(** The writes of a setter are safe: they wake [_on_change] and
    [_on_notify_active_signal] only, and [_on_icon_changed] after the
    [is_icon] toggle has been set. *)
Lemma writes_safe pf i u v L :
  writes_of pf u v = inr L → safe i u [] L.
Proof.
  unfold writes_of. destruct (klass u) eqn:Hk.
  - intros [= <-]. split; [safe_write_tac Hk | done].
  - intros [= <-]. split; [safe_write_tac Hk | done].
  - intros [= <-]. split; [safe_write_tac Hk | done].
  - done.
  - intros [= <-]. split; [safe_write_tac Hk | done].
  - destruct (negb (py_bool v)); [|destruct v; try done];
      intros [= <-]; (split; [safe_write_tac Hk | done]).
  - destruct v as [| | |s]; try done. cbv zeta.
    destruct (negb (startswith "#" s)); destruct (negb (py_bool (VStr s))); cbn [orb negb];
      try destruct (color_parse pf _);
      intros [= <-]; cbn [safe app]; repeat split; safe_write_tac Hk.
  - destruct v as [| | |s]; try done. cbv zeta.
    destruct (negb (startswith "#" s)); destruct (negb (py_bool (VStr s))); cbn [orb negb];
      intros [= <-]; cbn [safe app]; repeat split; safe_write_tac Hk.
  - destruct (py_bool v); intros [= <-]; cbn [safe app]; repeat split; safe_write_tac Hk.
  - intros [= <-]. cbn [safe app]. repeat split; safe_write_tac Hk.
  - by intros [= <-].
Qed.

(** *** The row write of an [IndicatorOption] *)

Lemma row_changed_leaf i u b :
  b ∈ default [] (_signals i u) → signal b = "row-changed" → handler b ∈ leaf_names.
Proof.
  unfold _signals. destruct (klass u); destruct (from_option is_switch false _); cbn;
    rewrite ?elem_of_cons, ?elem_of_nil; intros Hb;
    repeat (destruct Hb as [-> | Hb]); try done; cbn; try discriminate.
  all: intros _; unfold leaf_names; repeat constructor.
Qed.

Lemma emit_shared_settled pf c m args d :
  hoare (settled c m) (emit_shared pf (run_handler pf) "" "row-changed" args d)
        (λ _, settled c m).
Proof.
  unfold emit_shared. destruct (emits pf "row-changed" d); [|by apply hoare_ret].
  eapply hoare_bind; [apply hoare_gets |].
  intros n. apply (hoare_fact _ (n = length c)).
  { intros a [-> Ha]. by apply settled_length in Ha. }
  intros ->.
  eapply hoare_conseq with (P' := settled c m) (Q' := λ _, settled c m);
    [| by intros a [_ Ha] | done].
  apply hoare_for_each. intros j Hj%elem_of_seq.
  eapply hoare_bind.
  - apply get_option_hoare. intros a Ha. rewrite (settled_length _ _ _ Ha). lia.
  - intros o. eapply hoare_conseq with (P' := settled c m) (Q' := λ _, settled c m);
      [| by intros a [Ha _] | done].
    destruct (klass o); try by apply hoare_ret.
    apply emit_to_settled; [lia |].
    intros u p b _ Hb _ Hsig.
    rewrite (leaf_run_handler pf _ j args (row_changed_leaf j u b Hb Hsig)).
    intros a Ha.
    apply (hoare_preserves _ _ _ (leaf_handler_settled c m _ j args ltac:(lia)) a Ha).
Qed.

Lemma row_set_settled pf c m r f a :
  settled c m a →
  match m !! r with
  | Some x => ∃ a', row_set pf (run_handler pf) r f a = (Return tt, a')
                    ∧ settled c (<[r := f x]> m) a'
  | None => ∃ e a', row_set pf (run_handler pf) r f a = (Raise e, a')
  end.
Proof.
  intros Ha. unfold row_set. destruct (m !! r) as [x|] eqn:Hx.
  - assert (get_row r a = (Return x, a)) as Hget.
    { unfold get_row. destruct Ha as [_ ->]. by rewrite Hx. }
    rewrite (bind_return _ _ _ _ _ Hget). erewrite bind_return by reflexivity.
    destruct (emit_shared_settled pf c (<[r := f x]> m) (RowRef r)
                (negb (bool_decide (f x = x)))
                (with_model (<[r := f x]> (indicators_model a)) a))
      as ([] & a' & Hrun & Ha').
    { destruct Ha as [Hc Hm]. split; [done |]. cbn. by rewrite Hm. }
    by exists a'.
  - exists (KeyError "row"), a. apply bind_raise.
    unfold get_row. destruct Ha as [_ ->]. by rewrite Hx.
Qed.

(** *** The setter as a function of the controls *)

Lemma place_nil i u p c0 :
  c0 !! i = Some (u, p) → place i u p c0 (written_by []) = c0.
Proof.
  intros Hc. unfold place. apply list_insert_id. rewrite Hc. do 2 f_equal.
  assert (retouch (written_by []) (_widgets u) = _widgets u) as ->.
  { apply map_eq. intros r. rewrite lookup_retouch. by destruct (_widgets u !! r). }
  symmetry. by apply with_widgets_same.
Qed.

Lemma _set_widget_value_effect pf i v a o p :
  options a !! i = Some (o, p) →
  match value_written pf i (untouched o) p v (clean_options a) (indicators_model a) with
  | Some (c', m') =>
      ∃ a', _set_widget_value pf (run_handler pf) i v a = (Return tt, a')
            ∧ settled c' m' a'
  | None => ∃ e a', _set_widget_value pf (run_handler pf) i v a = (Raise e, a')
  end.
Proof.
  intros Ho.
  assert (settled (clean_options a) (indicators_model a) a) as Ha by done.
  pose proof (clean_options_lookup _ _ _ _ Ho) as Hc.
  unfold value_written.
  destruct (decide (klass o = IndicatorOption)) as [Hk | Hk].
  - change (klass (untouched o)) with (klass o). rewrite Hk.
    change (_row (untouched o)) with (_row o).
    unfold _set_widget_value.
    rewrite (bind_return _ _ _ o a) by (unfold get_option; by rewrite Ho).
    rewrite Hk.
    pose proof (row_set_settled pf _ _ (_row o) (with_ENABLED (to_bool v)) a Ha) as Hr.
    by destruct (indicators_model a !! _row o).
  - rewrite (_set_widget_value_writes pf _ i v a o p Ho Hk).
    change (writes_of pf (untouched o) v) with (writes_of pf o v).
    change (klass (untouched o)) with (klass o).
    assert (match writes_of pf o v with
            | inr L => if roles_exist (_widgets (untouched o)) L
                       then Some (place i (untouched o) p (clean_options a) (written_by L),
                                  indicators_model a)
                       else None
            | inl _ => None
            end
            = match klass o with
              | IndicatorOption =>
                  match indicators_model a !! _row (untouched o) with
                  | Some x => Some (clean_options a,
                                    <[_row (untouched o) := with_ENABLED (to_bool v) x]>
                                      (indicators_model a))
                  | None => None
                  end
              | _ => match writes_of pf o v with
                     | inr L => if roles_exist (_widgets (untouched o)) L
                                then Some (place i (untouched o) p (clean_options a)
                                             (written_by L), indicators_model a)
                                else None
                     | inl _ => None
                     end
              end) as <- by (by destruct (klass o)).
    destruct (writes_of pf o v) as [e | L] eqn:HL; [by exists e, a |].
    pose proof (exec_settled pf i (clean_options a) (indicators_model a) (untouched o) p L
                  Hc [] a (writes_safe pf i (untouched o) v L HL)) as Hexec.
    rewrite (place_nil i _ p _ Hc) in Hexec. specialize (Hexec Ha).
    by destruct (roles_exist (_widgets (untouched o)) L).
Qed.

Lemma value_written_length pf i u p v c m c' m' :
  value_written pf i u p v c m = Some (c', m') → length c' = length c.
Proof.
  unfold value_written.
  assert (∀ L, (if roles_exist (_widgets u) L
                then Some (place i u p c (written_by L), m) else None) = Some (c', m')
               → length c' = length c) as HL.
  { intros L. destruct (roles_exist _ L); [|done]. intros [= <- _]. apply place_length. }
  destruct (klass u); try (destruct (writes_of pf u v); [done | by apply HL]).
  destruct (m !! _row u); [|done]. by intros [= <- _].
Qed.

Lemma set_value_effect pf i v a o p :
  options a !! i = Some (o, p) →
  match value_written pf i (untouched o) p v (clean_options a) (indicators_model a) with
  | Some (c', m') =>
      ∃ a', set_value pf (run_handler pf) i v a = (Return tt, a') ∧ settled c' m' a'
  | None => ∃ e a', set_value pf (run_handler pf) i v a = (Raise e, a')
  end.
Proof.
  intros Ho. unfold set_value.
  rewrite (bind_return _ _ _ o a) by (unfold get_option; by rewrite Ho).
  destruct (_signals i o) as [ws|]; [|by apply _set_widget_value_effect].
  unfold block_signals. erewrite bind_return by apply block_all_spec.
  pose proof (_set_widget_value_effect pf i v
                (with_handlers (blocked_by ws (handlers a)) a) o p Ho) as Hf.
  change (clean_options (with_handlers _ a)) with (clean_options a) in Hf.
  change (indicators_model (with_handlers _ a)) with (indicators_model a) in Hf.
  destruct (value_written pf i (untouched o) p v (clean_options a) (indicators_model a))
    as [[c' m']|].
  - destruct Hf as (a' & Hrun & Ha'). eexists. split.
    + rewrite (bind_return _ _ _ _ _ Hrun).
      erewrite bind_return by apply unblock_all_spec. reflexivity.
    + exact Ha'.
  - destruct Hf as (e & a' & Hrun). exists e, a'.
    by rewrite (bind_raise _ _ _ _ _ Hrun).
Qed.

(** [reset()]: the setter on the default, then the dirty mark is wiped. *)
Lemma reset_effect pf i a o p :
  options a !! i = Some (o, p) →
  match value_written pf i (untouched o) p (_default o) (clean_options a)
          (indicators_model a) with
  | Some (c', m') =>
      ∃ a', reset pf (run_handler pf) i a = (Return tt, a') ∧ settled c' m' a'
            ∧ changed_of a' i = Some false
  | None => ∃ e a', reset pf (run_handler pf) i a = (Raise e, a')
  end.
Proof.
  intros Ho. unfold reset.
  rewrite (bind_return _ _ _ o a) by (unfold get_option; by rewrite Ho).
  pose proof (set_value_effect pf i (_default o) a o p Ho) as Hs.
  destruct (value_written pf i (untouched o) p (_default o) (clean_options a)
              (indicators_model a)) as [[c' m']|] eqn:Hv.
  - destruct Hs as (a' & Hrun & Ha'). eexists. split; [|split].
    + rewrite (bind_return _ _ _ _ _ Hrun). reflexivity.
    + destruct Ha' as [Hc Hm]. split; [|done]. cbn. rewrite <- Hc.
      by apply clean_options_alter.
    + assert (i < length (options a'))%nat as Hi.
      { rewrite (settled_length _ _ _ Ha'), (value_written_length _ _ _ _ _ _ _ _ _ Hv).
        unfold clean_options. rewrite length_fmap. by eapply lookup_lt_Some. }
      destruct (lookup_lt_is_Some_2 _ _ Hi) as [[o' p'] Ho'].
      unfold changed_of. cbn. by rewrite list_lookup_alter_eq, Ho'.
  - destruct Hs as (e & a' & Hrun). exists e, a'.
    by rewrite (bind_raise _ _ _ _ _ Hrun).
Qed.

Lemma retouch_idempotent L ws :
  retouch (written_by L) (retouch (written_by L) ws) = retouch (written_by L) ws.
Proof.
  apply map_eq. intros r. rewrite !lookup_retouch.
  destruct (ws !! r); [|done]. cbn. by rewrite written_by_idempotent.
Qed.

Lemma roles_exist_retouch h ws L : roles_exist (retouch h ws) L = roles_exist ws L.
Proof.
  unfold roles_exist. induction L as [|x L IH]; [done |]. cbn. rewrite IH. f_equal.
  rewrite lookup_retouch. by destruct (ws !! x.1).
Qed.

(** Writing the same value again writes the same controls. *)
Lemma value_written_idempotent pf i u p v c m c' m' :
  c !! i = Some (u, p) →
  value_written pf i u p v c m = Some (c', m') →
  ∃ u', c' !! i = Some (u', p) ∧ _default u' = _default u
        ∧ value_written pf i u' p v c' m' = Some (c', m').
Proof.
  intros Hc. unfold value_written.
  destruct (decide (klass u = IndicatorOption)) as [Hk | Hk].
  - rewrite Hk. destruct (m !! _row u) as [x|] eqn:Hx; [|done]. intros [= <- <-].
    exists u. split; [done |]. split; [done |]. rewrite Hk.
    rewrite list_lookup_insert_eq by (by eapply lookup_lt_Some).
    rewrite list_insert_insert_eq. by destruct x.
  - assert (∀ X Y : option (list (OptionWrapper * OptionPath) * list Row),
              match klass u with IndicatorOption => X | _ => Y end = Y) as Hm
      by (intros; by destruct (klass u)).
    rewrite Hm. destruct (writes_of pf u v) as [e | L] eqn:HL; [done |].
    destruct (roles_exist (_widgets u) L) eqn:Hr; [|done]. intros [= <- <-].
    exists (with_widgets (retouch (written_by L) (_widgets u)) u).
    split; [by apply place_lookup |]. split; [done |].
    change (klass (with_widgets _ u)) with (klass u). rewrite Hm.
    change (writes_of pf (with_widgets _ u) v) with (writes_of pf u v). rewrite HL.
    cbn [_widgets with_widgets]. rewrite roles_exist_retouch, Hr.
    do 2 f_equal. unfold place. rewrite list_insert_insert_eq. cbn.
    by rewrite retouch_idempotent.
Qed.

Lemma controls_clean a a' :
  clean_options a' = clean_options a → indicators_model a' = indicators_model a →
  controls a' = controls a.
Proof.
  intros Hc Hm. unfold controls. rewrite Hm. f_equal.
  apply (f_equal (fmap (λ op : OptionWrapper * OptionPath, _widgets op.1))) in Hc.
  unfold clean_options in Hc. rewrite <- !list_fmap_compose in Hc. exact Hc.
Qed.

(** C9. If [reset()] returns, calling it again returns as well, the option
    is not changed after either call, and the controls (the widgets of all
    options and the rows of the indicator model) are after the second call
    what they were after the first. *)
Theorem reset_idempotent pf a i a1 :
  reset pf (run_handler pf) i a = (Return tt, a1) →
  ∃ a2, reset pf (run_handler pf) i a1 = (Return tt, a2)
        ∧ changed_of a1 i = Some false
        ∧ changed_of a2 i = Some false
        ∧ controls a2 = controls a1.
Proof.
  intros Hrun.
  destruct (options a !! i) as [[o p]|] eqn:Ho.
  2: { unfold reset, get_option, mbind, M_bind in Hrun. by rewrite Ho in Hrun. }
  pose proof (reset_effect pf i a o p Ho) as H1.
  destruct (value_written pf i (untouched o) p (_default o) (clean_options a)
              (indicators_model a)) as [[c1 m1]|] eqn:Hv.
  2: { destruct H1 as (e & a' & H1). by rewrite H1 in Hrun. }
  destruct H1 as (a' & H1 & Ha1 & Hch1). rewrite H1 in Hrun. injection Hrun as ->.
  destruct (value_written_idempotent pf i _ p _ _ _ _ _
              (clean_options_lookup _ _ _ _ Ho) Hv) as (u1 & Hu1 & Hd & Hv1).
  destruct (clean_options_lookup_inv a1 i u1 p) as (o1 & Ho1 & Huo).
  { by destruct Ha1 as [-> _]. }
  pose proof (reset_effect pf i a1 o1 p Ho1) as H2.
  assert (_default o1 = _default o) as Hdo.
  { apply (f_equal _default) in Huo. cbn in Huo. by rewrite Huo, Hd. }
  destruct Ha1 as [Hc1 Hm1]. rewrite Huo, Hdo, Hc1, Hm1, Hv1 in H2.
  destruct H2 as (a2 & H2 & [Hc2 Hm2] & Hch2).
  exists a2. split; [done |]. split; [done |]. split; [done |].
  apply controls_clean; congruence.
Qed.


(** * Further properties of the option engine *)

(** A run whose outcome is [Return x], as an equation on the run. *)
Lemma returns_as {A} (m : M Application A) a x :
  (m a).1 = Return x → m a = (Return x, (m a).2).
Proof. destruct (m a). cbn. by intros ->. Qed.

Lemma reset_idempotent_witness :
  ∃ a2, reset gtk3 (run_handler gtk3) 0 (reset gtk3 (run_handler gtk3) 0 icon_app).2
        = (Return tt, a2)
        ∧ changed_of (reset gtk3 (run_handler gtk3) 0 icon_app).2 0 = Some false
        ∧ changed_of a2 0 = Some false
        ∧ controls a2 = controls (reset gtk3 (run_handler gtk3) 0 icon_app).2.
Proof.
  apply (reset_idempotent gtk3 icon_app 0 (reset gtk3 (run_handler gtk3) 0 icon_app).2).
  apply returns_as. reflexivity.
Defined.

(** ** The value getter after the value setter *)

Lemma get_option_at i a o p :
  options a !! i = Some (o, p) → get_option i a = (Return o, a).
Proof. intros Ho. unfold get_option. by rewrite Ho. Qed.

Lemma get_widget_at i role a o p w :
  options a !! i = Some (o, p) → _widgets o !! role = Some w →
  get_widget i role a = (Return w, a).
Proof.
  intros Ho Hw. unfold get_widget.
  rewrite (bind_return _ _ _ _ _ (get_option_at i a o p Ho)). by rewrite Hw.
Qed.

(** When the writes of the setter find their widgets, the setter returns
    and the widgets of the option are the old ones with the writes made. *)
Lemma set_value_plan pf i v a o p L :
  options a !! i = Some (o, p) → klass o ≠ IndicatorOption →
  writes_of pf o v = inr L → roles_exist (_widgets o) L = true →
  ∃ a' o', set_value pf (run_handler pf) i v a = (Return tt, a')
    ∧ options a' !! i = Some (o', p)
    ∧ untouched o' = with_widgets (retouch (written_by L) (_widgets o)) (untouched o)
    ∧ indicators_model a' = indicators_model a.
Proof.
  intros Ho Hk HL Hr.
  pose proof (set_value_effect pf i v a o p Ho) as H.
  unfold value_written in H.
  change (klass (untouched o)) with (klass o) in H.
  change (writes_of pf (untouched o) v) with (writes_of pf o v) in H.
  change (_widgets (untouched o)) with (_widgets o) in H.
  rewrite HL, Hr in H.
  assert (∀ X Y : option (list (OptionWrapper * OptionPath) * list Row),
            match klass o with IndicatorOption => X | _ => Y end = Y) as Hm
    by (intros; by destruct (klass o)).
  rewrite Hm in H. destruct H as (a' & Hrun & Ha').
  destruct (placed_option i _ p _ _ _ a' (clean_options_lookup _ _ _ _ Ho) Ha')
    as (o' & Ho' & Hu).
  exists a', o'. repeat split; try done. by destruct Ha'.
Qed.

Lemma untouched_fields o u :
  untouched o = u →
  klass o = klass u ∧ _widgets o = _widgets u ∧ _prefs o = _prefs u
  ∧ _row o = _row u ∧ _default o = _default u ∧ _enabled o = _enabled u.
Proof. intros <-. by repeat split. Qed.
Lemma retouched_widget o' o L role w :
  untouched o' = with_widgets (retouch (written_by L) (_widgets o)) (untouched o) →
  _widgets o !! role = Some w →
  _widgets o' !! role = Some (written_by L role w).
Proof.
  intros Hu Hw. apply untouched_fields in Hu as (_ & -> & _). cbn.
  by rewrite lookup_retouch, Hw.
Qed.

Ltac role_exists H := cbn; rewrite ?H; try rewrite !bool_decide_true by eauto; reflexivity.

(** The value of a [StringOption] whose entry is there: what the setter
    is given, the getter returns. *)
Theorem string_option_value_round_trip pf a i o p w s :
  options a !! i = Some (o, p) → klass o = StringOption →
  _widgets o !! "" = Some w →
  ∃ a', set_value pf (run_handler pf) i (VStr s) a = (Return tt, a')
        ∧ _get_widget_value pf i a' = (Return (VStr s), a').
Proof.
  intros Ho Hk Hw.
  destruct (set_value_plan pf i (VStr s) a o p [("", Text (VStr s))] Ho)
    as (a' & o' & Hrun & Ho' & Hu & _).
  { by rewrite Hk. } { unfold writes_of. by rewrite Hk. }
  { cbn. by rewrite Hw. }
  exists a'. split; [done |].
  unfold _get_widget_value.
  rewrite (bind_return _ _ _ _ _ (get_option_at i a' o' p Ho')).
  destruct (untouched_fields _ _ Hu) as (-> & _). cbn [klass with_widgets untouched with_label with_changed].
  rewrite Hk.
  rewrite (bind_return _ _ _ _ _
             (get_widget_at i "" a' o' p _ Ho' (retouched_widget _ _ _ _ _ Hu Hw))).
  reflexivity.
Qed.

Lemma string_option_value_round_trip_witness :
  ∃ a', set_value gtk3 (run_handler gtk3) 0 (VStr "Adwaita") string_app = (Return tt, a')
        ∧ _get_widget_value gtk3 0 a' = (Return (VStr "Adwaita"), a').
Proof.
  apply (string_option_value_round_trip gtk3 string_app 0 string_option
           (path_of "appearance" "theme-name") blank "Adwaita"); reflexivity.
Defined.
Ltac getter_of Ho' Hu Hk :=
  unfold _get_widget_value;
  rewrite (bind_return _ _ _ _ _ (get_option_at _ _ _ _ Ho'));
  let H := fresh in
  destruct (untouched_fields _ _ Hu) as (H & _);
  cbn [klass with_widgets untouched with_label with_changed] in H;
  rewrite H, Hk; clear H.

Ltac roles := repeat (case_decide; try done).

Ltac read_widget Ho' Hu Hw :=
  rewrite (bind_return _ _ _ _ _
             (get_widget_at _ _ _ _ _ _ Ho' (retouched_widget _ _ _ _ _ Hu Hw))).

(** The value of an [IntegerOption] whose entry is there: the setter
    writes [str(n)] into the entry and the getter reads [int] of that text,
    which is [n], for every integer [n]. *)
Theorem integer_option_value_round_trip pf a i o p w n :
  options a !! i = Some (o, p) → klass o = IntegerOption →
  _widgets o !! "" = Some w →
  ∃ a', set_value pf (run_handler pf) i (VInt n) a = (Return tt, a')
        ∧ _get_widget_value pf i a' = (Return (VInt n), a').
Proof.
  intros Ho Hk Hw.
  destruct (set_value_plan pf i (VInt n) a o p [("", Text (VStr (str_int n)))] Ho)
    as (a' & o' & Hrun & Ho' & Hu & _).
  { by rewrite Hk. } { unfold writes_of. by rewrite Hk. }
  { cbn. by rewrite Hw. }
  exists a'. split; [done |].
  getter_of Ho' Hu Hk. read_widget Ho' Hu Hw.
  cbn [written_by foldl fst snd apply_write text with_text].
  roles. cbn [text with_text py_int].
  by rewrite int_str_str_int.
Qed.

Lemma integer_option_value_round_trip_witness :
  ∃ a', set_value gtk3 (run_handler gtk3) 0 (VInt 120) xft_dpi_app = (Return tt, a')
        ∧ _get_widget_value gtk3 0 a' = (Return (VInt 120), a').
Proof.
  apply (integer_option_value_round_trip gtk3 xft_dpi_app 0
           (fresh IntegerOption (VInt 96) [""] 0)
           (path_of "appearance" "xft-dpi") blank 120); reflexivity.
Defined.

(** An [IntegerOption] given a text of ASCII characters, as [read] gives
    it the text of the file: the setter returns, and the getter returns the
    integer the text is a literal of ([int] skips tabs, line feeds, vertical
    tabs, form feeds, carriage returns and spaces around the literal, takes
    a sign and single underscores between digits) and raises [ValueError]
    when the text is no integer literal. *)
Theorem integer_option_reads_text pf a i o p w s :
  options a !! i = Some (o, p) → klass o = IntegerOption →
  _widgets o !! "" = Some w →
  all_chars is_ascii s = true →
  ∃ a', set_value pf (run_handler pf) i (VStr s) a = (Return tt, a')
        ∧ _get_widget_value pf i a'
          = (match int_str 10 s with
             | Some n => Return (VInt n)
             | None => Raise ValueError
             end, a').
Proof.
  intros Ho Hk Hw _.
  destruct (set_value_plan pf i (VStr s) a o p [("", Text (VStr s))] Ho)
    as (a' & o' & Hrun & Ho' & Hu & _).
  { by rewrite Hk. } { unfold writes_of. by rewrite Hk. }
  { cbn. by rewrite Hw. }
  exists a'. split; [done |].
  getter_of Ho' Hu Hk. read_widget Ho' Hu Hw.
  cbn [written_by foldl fst snd apply_write text with_text].
  roles. cbn [text with_text py_int].
  by destruct (int_str 10 s).
Qed.

Lemma integer_option_reads_text_witness :
  ∃ a', set_value gtk3 (run_handler gtk3) 0 (VStr " +1_20 ") xft_dpi_app = (Return tt, a')
        ∧ _get_widget_value gtk3 0 a' = (Return (VInt 120), a').
Proof.
  refine (integer_option_reads_text gtk3 xft_dpi_app 0
            (fresh IntegerOption (VInt 96) [""] 0)
            (path_of "appearance" "xft-dpi") blank " +1_20 " _ _ _ _); reflexivity.
Defined.

(** The value of a [BooleanOption] whose toggle is there: whatever the
    setter is given, the getter returns [int(to_bool(value))]. *)
Theorem boolean_option_value_round_trip pf a i o p w v :
  options a !! i = Some (o, p) → klass o = BooleanOption →
  _widgets o !! "" = Some w →
  ∃ a', set_value pf (run_handler pf) i v a = (Return tt, a')
        ∧ _get_widget_value pf i a' = (Return (VInt (int_of_bool (to_bool v))), a').
Proof.
  intros Ho Hk Hw.
  destruct (set_value_plan pf i v a o p [("", Active (to_bool v))] Ho)
    as (a' & o' & Hrun & Ho' & Hu & _).
  { by rewrite Hk. } { unfold writes_of. by rewrite Hk. }
  { cbn. by rewrite Hw. }
  exists a'. split; [done |].
  getter_of Ho' Hu Hk. read_widget Ho' Hu Hw.
  cbn [written_by foldl fst snd apply_write].
  by roles.
Qed.

Lemma boolean_option_value_round_trip_witness :
  ∃ a', set_value gtk3 (run_handler gtk3) 0 (VStr "Yes") show_panel_app = (Return tt, a')
        ∧ _get_widget_value gtk3 0 a' = (Return (VInt 1), a').
Proof.
  apply (boolean_option_value_round_trip gtk3 show_panel_app 0
           (fresh BooleanOption (VBool true) [""] 0)
           (path_of "panel" "show-panel") blank (VStr "Yes")); reflexivity.
Defined.

(** The value of an [OSKOption] whose three widgets are there: for every
    text, ["#onboard"] included, the getter returns what the setter was
    given. *)
Theorem osk_option_value_round_trip pf a i o p w1 w2 w3 s :
  options a !! i = Some (o, p) → klass o = OSKOption →
  _widgets o !! "use_onboard" = Some w1 →
  _widgets o !! "use_command" = Some w2 →
  _widgets o !! "command" = Some w3 →
  ∃ a', set_value pf (run_handler pf) i (VStr s) a = (Return tt, a')
        ∧ _get_widget_value pf i a' = (Return (VStr s), a').
Proof.
  intros Ho Hk H1 H2 H3.
  destruct (set_value_plan pf i (VStr s) a o p
              [("use_onboard", Active (String.eqb s "#onboard"));
               ("use_command", Active (negb (String.eqb s "#onboard")));
               ("command", Text (if negb (String.eqb s "#onboard")
                                 then VStr s else VStr ""))] Ho)
    as (a' & o' & Hrun & Ho' & Hu & _).
  { by rewrite Hk. } { unfold writes_of. rewrite Hk. reflexivity. }
  { cbn. by rewrite H1, H2, H3. }
  exists a'. split; [done |].
  getter_of Ho' Hu Hk. read_widget Ho' Hu H1.
  cbn [written_by foldl fst snd apply_write py_eq].
  roles.
  cbn [active with_active].
  destruct (String.eqb s "#onboard") eqn:E.
  - apply String.eqb_eq in E as ->. reflexivity.
  - cbn [negb]. read_widget Ho' Hu H3.
    cbn [written_by foldl fst snd apply_write py_eq].
    by roles.
Qed.

Lemma osk_option_value_round_trip_witness :
  ∃ a', set_value gtk3 (run_handler gtk3) 0 (VStr "florence") osk_app = (Return tt, a')
        ∧ _get_widget_value gtk3 0 a' = (Return (VStr "florence"), a').
Proof.
  apply (osk_option_value_round_trip gtk3 osk_app 0
           (fresh OSKOption (VStr "#onboard") ["use_onboard"; "use_command"; "command"] 0)
           (path_of "a11y" "osk") blank blank blank "florence"); reflexivity.
Defined.

Lemma startswith_hash t : startswith "#" ("#" +:+ t) = true.
Proof. unfold startswith. cbn. by destruct t. Qed.

(** The value of an [IconOption] whose four widgets are there, set to an
    icon name ["#" + t]: the getter returns the same text, except for the
    bare ["#"], which comes back as the empty string. *)
Theorem icon_option_name_round_trip pf a i o p w1 w2 w3 w4 t :
  options a !! i = Some (o, p) → klass o = IconOption →
  _widgets o !! "file" = Some w1 →
  _widgets o !! "icon" = Some w2 →
  _widgets o !! "is_file" = Some w3 →
  _widgets o !! "is_icon" = Some w4 →
  ∃ a', set_value pf (run_handler pf) i (VStr ("#" +:+ t)) a = (Return tt, a')
        ∧ _get_widget_value pf i a'
          = (Return (VStr (if String.eqb t "" then "" else "#" +:+ t)), a').
Proof.
  intros Ho Hk H1 H2 H3 H4.
  destruct (set_value_plan pf i (VStr ("#" +:+ t)) a o p
              [("is_file", Active false); ("is_icon", Active true);
               ("file", Filename VNone); ("icon", Text (VStr t))] Ho)
    as (a' & o' & Hrun & Ho' & Hu & _).
  { by rewrite Hk. }
  { unfold writes_of. rewrite Hk. cbv zeta. by rewrite startswith_hash. }
  { cbn. by rewrite H1, H2, H3, H4. }
  exists a'. split; [done |].
  getter_of Ho' Hu Hk. read_widget Ho' Hu H3.
  cbn [written_by foldl fst snd apply_write app].
  roles.
  cbn [active with_active].
  read_widget Ho' Hu H2.
  cbn [written_by foldl fst snd apply_write app].
  by roles.
Qed.

Lemma icon_option_name_round_trip_witness :
  ∃ a', set_value gtk3 (run_handler gtk3) 0 (VStr "#") icon_app = (Return tt, a')
        ∧ _get_widget_value gtk3 0 a' = (Return (VStr ""), a').
Proof.
  apply (icon_option_name_round_trip gtk3 icon_app 0 icon_option
           (path_of "appearance" "logo") blank blank blank blank ""); reflexivity.
Defined.
(** The value of an [IndicatorOption] whose row is in the model: the
    setter writes [to_bool(value)] into the [ENABLED] column of the row and
    leaves [INCONSISTENT]; the getter returns [int] of that column. *)
Theorem indicator_option_value_round_trip pf a i o p x v :
  options a !! i = Some (o, p) → klass o = IndicatorOption →
  indicators_model a !! _row o = Some x →
  ∃ a', set_value pf (run_handler pf) i v a = (Return tt, a')
        ∧ _get_widget_value pf i a' = (Return (VInt (int_of_bool (to_bool v))), a')
        ∧ row_state a' (_row o) = Some (to_bool v, INCONSISTENT x).
Proof.
  intros Ho Hk Hx.
  pose proof (set_value_effect pf i v a o p Ho) as H.
  unfold value_written in H.
  change (klass (untouched o)) with (klass o) in H.
  change (_row (untouched o)) with (_row o) in H.
  rewrite Hk, Hx in H. destruct H as (a' & Hrun & Hc & Hm).
  destruct (clean_options_lookup_inv a' i (untouched o) p) as (o' & Ho' & Hu).
  { rewrite Hc. by apply clean_options_lookup. }
  assert (indicators_model a' !! _row o = Some (with_ENABLED (to_bool v) x)) as Hx'.
  { rewrite Hm. apply list_lookup_insert_eq. by eapply lookup_lt_Some. }
  exists a'. split; [done |]. split.
  - unfold _get_widget_value.
    rewrite (bind_return _ _ _ _ _ (get_option_at i a' o' p Ho')).
    destruct (untouched_fields _ _ Hu) as (Hk' & _ & _ & Hr' & _).
    cbn in Hk', Hr'. rewrite Hk', Hk, Hr'.
    unfold get_row, mbind, M_bind. by rewrite Hx'.
  - unfold row_state. by rewrite Hx'.
Qed.

Lemma indicator_option_value_round_trip_witness :
  ∃ a', set_value gtk3 (run_handler gtk3) 0 (VStr "off") clock_app = (Return tt, a')
        ∧ _get_widget_value gtk3 0 a' = (Return (VInt 0), a')
        ∧ row_state a' 0%nat = Some (false, false).
Proof.
  apply (indicator_option_value_round_trip gtk3 clock_app 0 clock_option
           (path_of "clock" "enabled") (indicator_row "clock" true false) (VStr "off"));
    reflexivity.
Defined.
(** ** What the option engine leaves alone

    A property of the state that no write to the options, the rows or the
    handler table can break is kept by every method of an option, whether
    the method returns or raises. *)

Section Frame.
Context (pf : Platform).
Variable Inv : Application → Prop.
Hypothesis Inv_options : ∀ a v, Inv a → Inv (with_options v a).
Hypothesis Inv_model : ∀ a v, Inv a → Inv (with_model v a).
Hypothesis Inv_handlers : ∀ a v, Inv a → Inv (with_handlers v a).

Lemma frame_update_option i f : preserves Inv (update_option i f).
Proof. intros a Ha. by apply Inv_options. Qed.

Lemma frame_swallow {A} (m : M Application A) : preserves Inv m → preserves Inv (swallow m).
Proof. intros Hm a Ha. unfold swallow. specialize (Hm a Ha). by destruct (m a) as [[]]. Qed.

Lemma frame_block_all ws : preserves Inv (block_all ws).
Proof.
  apply preserves_for_each. intros b _. destruct (change b); [|apply preserves_ret].
  intros a Ha. by apply Inv_handlers.
Qed.

Lemma frame_unblock_all ws : preserves Inv (unblock_all ws).
Proof.
  apply preserves_for_each. intros b _. destruct (change b); [|apply preserves_ret].
  intros a Ha. by apply Inv_handlers.
Qed.

Lemma frame_block_signals {A} ws (f : M Application A) :
  preserves Inv f → preserves Inv (block_signals ws f).
Proof.
  intros Hf. unfold block_signals.
  apply preserves_bind; [apply frame_block_all | intros _].
  apply preserves_bind; [exact Hf | intros x].
  apply preserves_bind; [apply frame_unblock_all | intros _]. apply preserves_ret.
Qed.

Lemma frame_touch i : preserves Inv (touch i).
Proof. apply frame_update_option. Qed.

Lemma frame_leaf_handler h i args : preserves Inv (leaf_handler h i args).
Proof.
  unfold leaf_handler.
  repeat first [ apply frame_touch | progress reads_steps ].
Qed.

Section Run.
Variable run : string → nat → sigargs → M Application unit.
Hypothesis Hrun : ∀ h i args, preserves Inv (run h i args).

Lemma frame_emit_to i role sig args : preserves Inv (emit_to run i role sig args).
Proof.
  unfold emit_to. apply preserves_bind; [apply preserves_get_option | intros o].
  apply preserves_for_each. intros b _.
  destruct (_ && _); [|apply preserves_ret].
  apply preserves_bind; [apply preserves_gets | intros n].
  destruct n as [[|n]|]; try apply preserves_ret. apply frame_swallow, Hrun.
Qed.

Lemma frame_emit i role sig args d : preserves Inv (emit pf run i role sig args d).
Proof. unfold emit. destruct (emits pf sig d); [apply frame_emit_to | apply preserves_ret]. Qed.

Lemma frame_emit_shared role sig args d : preserves Inv (emit_shared pf run role sig args d).
Proof.
  unfold emit_shared. destruct (emits pf sig d); [|apply preserves_ret].
  apply preserves_bind; [apply preserves_gets | intros n].
  apply preserves_for_each. intros j _.
  apply preserves_bind; [apply preserves_get_option | intros o].
  destruct (klass o); try apply preserves_ret. apply frame_emit_to.
Qed.

Lemma frame_put_widget i role w : preserves Inv (put_widget i role w).
Proof. apply frame_update_option. Qed.

Ltac frame_steps :=
  unfold unselect_all;
  repeat match goal with
    | |- preserves _ (mret _) => apply preserves_ret
    | |- preserves _ (raise _) => apply preserves_raise
    | |- preserves _ (gets _) => apply preserves_gets
    | |- preserves _ (get_option _) => apply preserves_get_option
    | |- preserves _ (get_row _) => apply preserves_get_row
    | |- preserves _ (get_widget _ _) => apply preserves_get_widget
    | |- preserves _ (put_widget _ _ _) => apply frame_put_widget
    | |- preserves _ (update_option _ _) => apply frame_update_option
    | |- preserves _ (touch _) => apply frame_touch
    | |- preserves _ (emit _ _ _ _ _ _ _) => apply frame_emit
    | |- preserves _ (emit_shared _ _ _ _ _ _) => apply frame_emit_shared
    | |- preserves _ (_ ≫= _) => apply preserves_bind; [|intros ?]
    | |- preserves _ (if ?c then _ else _) => destruct c
    | |- preserves _ (match ?c with _ => _ end) => destruct c
    end.

Lemma frame_set_active i role v : preserves Inv (set_active pf run i role v).
Proof. unfold set_active. by frame_steps. Qed.
Lemma frame_set_text i role v : preserves Inv (set_text pf run i role v).
Proof. unfold set_text. by frame_steps. Qed.
Lemma frame_set_sensitive i role v : preserves Inv (set_sensitive pf run i role v).
Proof. unfold set_sensitive. by frame_steps. Qed.
Lemma frame_set_font_name i role v : preserves Inv (set_font_name pf run i role v).
Proof. unfold set_font_name. by frame_steps. Qed.
Lemma frame_set_color i role v : preserves Inv (set_color pf run i role v).
Proof. unfold set_color. by frame_steps. Qed.
Lemma frame_select_filename i role v : preserves Inv (select_filename pf run i role v).
Proof. unfold select_filename. by frame_steps. Qed.

Lemma frame_row_set r f : preserves Inv (row_set pf run r f).
Proof.
  unfold row_set. apply preserves_bind; [apply preserves_get_row | intros x].
  apply preserves_bind; [|intros _; apply frame_emit_shared].
  intros a Ha. by apply Inv_model.
Qed.

Lemma frame_label_set_active i v : preserves Inv (label_set_active pf run i v).
Proof.
  unfold label_set_active. apply preserves_bind; [apply preserves_get_option | intros o].
  destruct (_label o); [|apply preserves_raise].
  apply preserves_bind; [apply frame_update_option | intros _].
  destruct (emits pf _ _); [|apply preserves_ret].
  apply preserves_bind; [apply preserves_gets | intros n].
  destruct n as [[|n]|]; try apply preserves_ret. apply frame_swallow, Hrun.
Qed.

Lemma frame_OptionWrapper_set_enabled i v block :
  preserves Inv (OptionWrapper_set_enabled pf run i v block).
Proof.
  unfold OptionWrapper_set_enabled.
  apply preserves_bind; [apply frame_update_option | intros _].
  apply preserves_bind; [apply preserves_get_option | intros o].
  apply preserves_bind; [|intros _].
  - apply preserves_for_each. intros role _. apply frame_set_sensitive.
  - destruct (_ && _); [|apply preserves_ret].
    apply frame_block_signals, frame_label_set_active.
Qed.

Lemma frame__set_enabled i v block : preserves Inv (_set_enabled pf run i v block).
Proof.
  unfold _set_enabled.
  apply preserves_bind; [apply frame_OptionWrapper_set_enabled | intros _].
  apply preserves_bind; [apply preserves_get_option | intros o].
  destruct (klass o); try apply preserves_ret. apply frame_row_set.
Qed.

Lemma frame__set_widget_value i v : preserves Inv (_set_widget_value pf run i v).
Proof.
  unfold _set_widget_value, unselect_all.
  apply preserves_bind; [apply preserves_get_option | intros o].
  destruct (klass o);
    repeat match goal with
      | |- preserves _ (mret _) => apply preserves_ret
      | |- preserves _ (raise _) => apply preserves_raise
      | |- preserves _ (set_active _ _ _ _ _) => apply frame_set_active
      | |- preserves _ (set_text _ _ _ _ _) => apply frame_set_text
      | |- preserves _ (set_font_name _ _ _ _ _) => apply frame_set_font_name
      | |- preserves _ (set_color _ _ _ _ _) => apply frame_set_color
      | |- preserves _ (select_filename _ _ _ _ _) => apply frame_select_filename
      | |- preserves _ (row_set _ _ _ _) => apply frame_row_set
      | |- preserves _ (_ ≫= _) => apply preserves_bind; [|intros ?]
      | |- preserves _ (if ?c then _ else _) => destruct c
      | |- preserves _ (match ?c with _ => _ end) => destruct c
      end.
Qed.

Lemma frame_set_value i v : preserves Inv (set_value pf run i v).
Proof.
  unfold set_value. apply preserves_bind; [apply preserves_get_option | intros o].
  destruct (_signals i o); [apply frame_block_signals |]; apply frame__set_widget_value.
Qed.

Lemma frame_reset i : preserves Inv (reset pf run i).
Proof.
  unfold reset. apply preserves_bind; [apply preserves_get_option | intros o].
  apply preserves_bind; [apply frame_set_value | intros _]. apply frame_update_option.
Qed.

Lemma frame__on_label_toggled i : preserves Inv (_on_label_toggled pf run i).
Proof.
  unfold _on_label_toggled. apply preserves_bind; [apply preserves_get_option | intros o].
  destruct (_label o); [|apply preserves_raise].
  apply preserves_bind; [apply frame__set_enabled | intros _]. apply frame_touch.
Qed.

Lemma frame__on_toggled i path : preserves Inv (_on_toggled pf run i path).
Proof.
  unfold _on_toggled. apply preserves_bind; [apply preserves_get_option | intros o].
  destruct (negb _); [apply preserves_ret |].
  apply preserves_bind; [apply preserves_get_row | intros x].
  apply preserves_bind; [apply frame_row_set | intros _].
  apply preserves_bind; [apply frame_row_set | intros _].
  apply preserves_bind; [apply frame_update_option | intros _].
  destruct (1 <? _); [apply frame_update_option | apply frame_touch].
Qed.
End Run.

Lemma frame_run_handler h i args : preserves Inv (run_handler pf h i args).
Proof.
  unfold run_handler.
  repeat match goal with
    | |- preserves _ (if ?c then _ else _) => destruct c
    end.
  - apply preserves_bind; [|intros _; apply frame_touch].
    apply frame_set_active, frame_leaf_handler.
  - apply preserves_bind; [|intros _; apply frame_touch].
    apply frame_set_active, frame_leaf_handler.
  - apply preserves_bind; [|intros _; apply frame_touch].
    apply frame_set_active, frame_leaf_handler.
  - destruct args; try apply preserves_ret. apply frame__on_toggled, frame_leaf_handler.
  - apply frame__on_label_toggled, frame_leaf_handler.
  - apply frame_leaf_handler.
Qed.
End Frame.
(** ** The [enabled] setter *)

Lemma notify_binding i o b :
  b ∈ default [] (_signals i o) → signal b = "notify" →
  handler b = "_on_notify_active_signal".
Proof.
  unfold _signals. destruct (klass o); destruct (from_option is_switch false _); cbn;
    rewrite ?elem_of_cons, ?elem_of_nil; intros Hb;
    repeat (destruct Hb as [-> | Hb]); try done; cbn; try discriminate.
Qed.

(** A [notify] for a property other than [active] wakes no handler that
    does anything. *)
Lemma emit_notify_noop pf run i role name d a :
  (∀ j a', run "_on_notify_active_signal" j (Param name) a' = (Return tt, a')) →
  is_Some (options a !! i) →
  emit pf run i role "notify" (Param name) d a = (Return tt, a).
Proof.
  intros Hrun [[o p] Ho]. unfold emit. destruct (emits pf "notify" d); [|done].
  unfold emit_to. rewrite (bind_return _ _ _ _ _ (get_option_at i a o p Ho)).
  apply for_each_noop. intros b Hb.
  destruct (String.eqb (widget b).2 role && String.eqb (signal b) "notify") eqn:E; [|done].
  apply andb_true_iff in E as [_ Es%String.eqb_eq].
  erewrite bind_return by reflexivity.
  destruct (handlers a !! (widget b, handler b)) as [[|n]|]; try done.
  rewrite (notify_binding i o b Hb Es). unfold swallow. by rewrite Hrun.
Qed.

Lemma leaf_handler_notify name j a :
  String.eqb name "active" = false →
  leaf_handler "_on_notify_active_signal" j (Param name) a = (Return tt, a).
Proof. intros H. unfold leaf_handler. cbn. by rewrite H. Qed.

Lemma run_handler_notify pf name j a :
  String.eqb name "active" = false →
  run_handler pf "_on_notify_active_signal" j (Param name) a = (Return tt, a).
Proof. intros H. unfold run_handler, leaf_handler. cbn. by rewrite H. Qed.

Lemma with_option_lookup i o a o0 p :
  options a !! i = Some (o0, p) → options (with_option i o a) !! i = Some (o, p).
Proof. intros Ho. unfold with_option. cbn. by rewrite list_lookup_alter_eq, Ho. Qed.

Lemma with_option_with_option i o o' a :
  with_option i o' (with_option i o a) = with_option i o' a.
Proof.
  unfold with_option, with_options. cbn. f_equal.
  rewrite list_alter_alter_eq. apply list_alter_ext; [|done]. by intros [].
Qed.

Lemma update_option_at i f a o p :
  options a !! i = Some (o, p) →
  update_option i f a = (Return tt, with_option i (f o) a).
Proof.
  intros Ho. unfold update_option, modify, with_option. do 2 f_equal.
  apply list_alter_ext; [|done]. intros [o1 p1] Ho1. cbn. congruence.
Qed.
Lemma with_option_same i o p a :
  options a !! i = Some (o, p) → with_option i o a = a.
Proof.
  intros Ho. unfold with_option.
  rewrite (list_alter_ext _ id (options a) (options a) i);
    [|intros [o1 p1] H1; cbn; congruence | done].
  rewrite list_alter_id by done. apply with_options_same.
Qed.

Lemma set_sensitive_at pf run i role v a o p w :
  (∀ j a', run "_on_notify_active_signal" j (Param "sensitive") a' = (Return tt, a')) →
  options a !! i = Some (o, p) → _widgets o !! role = Some w →
  set_sensitive pf run i role v a
  = (Return tt, with_option i (with_widgets (alter (with_sensitive v) role (_widgets o)) o) a).
Proof.
  intros Hrun Ho Hw. unfold set_sensitive.
  rewrite (bind_return _ _ _ _ _ (get_widget_at i role a o p w Ho Hw)).
  unfold put_widget. rewrite (bind_return _ _ _ _ _ (update_option_at i _ a o p Ho)).
  assert (<[role := with_sensitive v w]> (_widgets o)
          = alter (with_sensitive v) role (_widgets o)) as ->.
  { apply map_eq. intros r. destruct (decide (role = r)) as [<- | Hne].
    - by rewrite lookup_insert_eq, lookup_alter_eq, Hw.
    - by rewrite lookup_insert_ne, lookup_alter_ne. }
  apply emit_notify_noop; [done |]. erewrite with_option_lookup; eauto.
Qed.

Lemma sensitive_loop pf run i v l :
  (∀ j a', run "_on_notify_active_signal" j (Param "sensitive") a' = (Return tt, a')) →
  ∀ a o p,
  options a !! i = Some (o, p) →
  (∀ r, r ∈ l → is_Some (_widgets o !! r)) →
  for_each l (λ role, set_sensitive pf run i role v) a
  = (Return tt,
     with_option i
       (with_widgets (foldl (λ ws r, alter (with_sensitive v) r ws) (_widgets o) l) o) a).
Proof.
  intros Hrun. induction l as [|r l IH]; intros a o p Ho Hl.
  - cbn. rewrite (with_widgets_same o) by done. by rewrite (with_option_same i o p).
  - destruct (Hl r) as [w Hw]; [by left |].
    cbn [for_each foldl].
    rewrite (bind_return _ _ _ _ _ (set_sensitive_at pf run i r v a o p w Hrun Ho Hw)).
    erewrite IH; [|by eapply with_option_lookup|].
    + by rewrite with_option_with_option.
    + intros r' Hr'. cbn. destruct (decide (r = r')) as [<- | Hne].
      * rewrite lookup_alter_eq, Hw. by eexists.
      * rewrite lookup_alter_ne by done. apply Hl. by right.
Qed.

Lemma lookup_foldl_alter {A} (f : A → A) (l : list string) :
  (∀ x, f (f x) = f x) →
  ∀ (m : gmap string A) k,
  foldl (λ ws r, alter f r ws) m l !! k
  = if decide (k ∈ l) then f <$> m !! k else m !! k.
Proof.
  intros Hf. induction l as [|r l IH]; intros m k; [done |].
  cbn [foldl]. rewrite IH.
  destruct (decide (r = k)) as [<- | Hne].
  - rewrite lookup_alter_eq. rewrite (decide_True (P := r ∈ r :: l)) by (by left).
    destruct (decide (r ∈ l)); [|done].
    destruct (m !! r); cbn; [by rewrite Hf | done].
  - rewrite lookup_alter_ne by done.
    destruct (decide (k ∈ l)) as [Hin | Hin].
    + by rewrite decide_True by (by right).
    + rewrite decide_False; [done |]. intros [-> | ?]%elem_of_cons; done.
Qed.

Lemma foldl_alter_keys {A} (f : A → A) (m : gmap string A) :
  (∀ x, f (f x) = f x) →
  foldl (λ ws r, alter f r ws) m (map_to_list m).*1 = f <$> m.
Proof.
  intros Hf. apply map_eq. intros k.
  rewrite lookup_foldl_alter, lookup_fmap by done.
  destruct (decide (k ∈ (map_to_list m).*1)) as [Hin | Hin]; [done |].
  destruct (m !! k) as [x|] eqn:Hk; [|done].
  destruct Hin. apply list_elem_of_fmap. exists (k, x). split; [done |].
  by apply elem_of_map_to_list.
Qed.

Lemma set_label_active_none v o : _label o = None → set_label_active v o = o.
Proof. intros H. unfold set_label_active. rewrite H. destruct o. cbn in *. by subst. Qed.

Lemma OptionWrapper_set_enabled_effect pf run i v block a o p :
  (∀ j a', run "_on_notify_active_signal" j (Param "sensitive") a' = (Return tt, a')) →
  options a !! i = Some (o, p) →
  OptionWrapper_set_enabled pf run i v block a
  = (Return tt,
     with_option i (if block then enabled_as v o
                    else set_label_active v (enabled_as v o)) a).
Proof.
  intros Hrun Ho. unfold OptionWrapper_set_enabled.
  rewrite (bind_return _ _ _ _ _ (update_option_at i _ a o p Ho)).
  pose proof (with_option_lookup i (with_enabled v o) a o p Ho) as Ho1.
  rewrite (bind_return _ _ _ _ _ (get_option_at i _ _ p Ho1)).
  erewrite bind_return.
  2: { apply (sensitive_loop pf run i v _ Hrun _ _ p Ho1).
       intros r [[r' w] [-> Hr]]%list_elem_of_fmap.
       apply elem_of_map_to_list in Hr. eauto. }
  rewrite with_option_with_option.
  change (_widgets (with_enabled v o)) with (_widgets o).
  rewrite foldl_alter_keys by (by intros []).
  fold (enabled_as v o).
  change (_label (with_enabled v o)) with (_label o).
  destruct block; [done |]. cbn [negb andb].
  destruct (_label o) as [l|] eqn:Hl.
  2: { rewrite bool_decide_false by (by intros [? ?]).
       rewrite set_label_active_none; [done | done]. }
  rewrite bool_decide_true by eauto.
  set (a2 := with_option i (enabled_as v o) a).
  assert (options a2 !! i = Some (enabled_as v o, p)) as Ho2
    by (by eapply with_option_lookup).
  unfold block_signals. erewrite bind_return by apply block_all_spec.
  set (ws := [{| widget := (i, "label"); signal := ""; handler := "_on_label_toggled";
                 change := true |}]).
  set (a3 := with_handlers (blocked_by ws (handlers a2)) a2).
  assert (label_set_active pf run i v a3
          = (Return tt, with_option i (set_label_active v (enabled_as v o)) a3)) as Hset.
  { unfold label_set_active.
    rewrite (bind_return _ _ _ _ _ (get_option_at i a3 _ p Ho2)).
    change (_label (enabled_as v o)) with (_label o). rewrite Hl.
    rewrite (bind_return _ _ _ _ _ (update_option_at i _ a3 _ p Ho2)).
    destruct (emits pf "toggled" _); [|done].
    erewrite bind_return by reflexivity.
    change (handlers (with_option i _ a3)) with (blocked_by ws (handlers a2)).
    rewrite lookup_blocked_by.
    destruct (handlers a2 !! (i, "label", "_on_label_toggled")) as [n|]; [|done].
    pose proof (blocks_of_pos ws _ ltac:(by left) eq_refl) as Hpos.
    cbn [widget handler fmap option_fmap option_map] in Hpos |- *.
    destruct (n + blocks_of ws (i, "label", "_on_label_toggled"))%nat eqn:E; [lia | done]. }
  rewrite (bind_return _ _ _ _ _ Hset).
  erewrite bind_return by apply unblock_all_spec.
  cbn [mret M_ret]. f_equal.
  change (handlers (with_option i _ a3)) with (blocked_by ws (handlers a2)).
  rewrite unblocked_blocked. unfold a3, a2, with_option, with_handlers, with_options. cbn.
  f_equal. rewrite list_alter_alter_eq. apply list_alter_ext; [|done]. by intros [].
Qed.
Lemma changed_flags_with_option i o' a o p :
  options a !! i = Some (o, p) → _changed o' = _changed o →
  changed_flags (with_option i o' a) = changed_flags a.
Proof.
  intros Ho Hc. unfold changed_flags, with_option. cbn.
  apply list_eq. intros j. rewrite !list_lookup_fmap.
  destruct (decide (i = j)) as [<- | Hne].
  - rewrite list_lookup_alter_eq, Ho. cbn. by rewrite Hc.
  - by rewrite list_lookup_alter_ne.
Qed.

Lemma with_option_other i o' a j :
  i ≠ j → options (with_option i o' a) !! j = options a !! j.
Proof. intros Hne. unfold with_option. cbn. by rewrite list_lookup_alter_ne. Qed.

Lemma _set_enabled_effect pf run i v block a o p :
  (∀ j a', run "_on_notify_active_signal" j (Param "sensitive") a' = (Return tt, a')) →
  options a !! i = Some (o, p) → klass o ≠ IndicatorOption →
  _set_enabled pf run i v block a
  = (Return tt,
     with_option i (if block then enabled_as v o
                    else set_label_active v (enabled_as v o)) a).
Proof.
  intros Hrun Ho Hk. unfold _set_enabled.
  rewrite (bind_return _ _ _ _ _
             (OptionWrapper_set_enabled_effect pf _ i v block a o p Hrun Ho)).
  erewrite bind_return
    by (eapply get_option_at, with_option_lookup, Ho).
  assert (klass (if block then enabled_as v o
                 else set_label_active v (enabled_as v o)) = klass o) as ->
    by (by destruct block).
  by destruct (klass o).
Qed.

Lemma set_enabled_at pf a i o p v :
  options a !! i = Some (o, p) → klass o ≠ IndicatorOption →
  set_enabled pf (run_handler pf) i v a
  = (Return tt, with_option i (set_label_active v (enabled_as v o)) a).
Proof.
  intros Ho Hk. unfold set_enabled.
  apply (_set_enabled_effect pf _ i v false a o p
           (λ j a', run_handler_notify pf "sensitive" j a' eq_refl) Ho Hk).
Qed.

(** Assigning [enabled] on an option that is no indicator returns; it sets
    [_enabled], the sensitivity of every widget of the option and the toggle
    of its label, and nothing else: no option gets changed, no handler
    stays blocked, the rows and the store are as they were. *)
Theorem set_enabled_effect pf a i o p v :
  options a !! i = Some (o, p) → klass o ≠ IndicatorOption →
  ∃ a', set_enabled pf (run_handler pf) i v a = (Return tt, a')
        ∧ a' = with_option i (set_label_active v (enabled_as v o)) a
        ∧ enabled_of a' i = Some v
        ∧ changed_flags a' = changed_flags a
        ∧ (∀ role w, _widgets o !! role = Some w →
             options a' !! i ≫= (λ op, _widgets op.1 !! role)
             = Some (with_sensitive v w)).
Proof.
  intros Ho Hk. eexists. split; [|split; [reflexivity |]].
  - by apply (set_enabled_at pf a i o p v).
  - split; [|split].
    + unfold enabled_of. by erewrite with_option_lookup.
    + by eapply changed_flags_with_option.
    + intros role w Hw. erewrite with_option_lookup by done. cbn.
      by rewrite lookup_fmap, Hw.
Qed.

Lemma set_enabled_effect_witness :
  ∃ a', set_enabled gtk3 (run_handler gtk3) 0 false string_app = (Return tt, a')
        ∧ a' = with_option 0 (set_label_active false (enabled_as false string_option))
                 string_app
        ∧ enabled_of a' 0 = Some false
        ∧ changed_flags a' = changed_flags string_app
        ∧ (∀ role w, _widgets string_option !! role = Some w →
             options a' !! 0%nat ≫= (λ op, _widgets op.1 !! role)
             = Some (with_sensitive false w)).
Proof.
  apply (set_enabled_effect gtk3 string_app 0 string_option
           (path_of "appearance" "theme-name") false).
  - reflexivity.
  - intros H. discriminate H.
Defined.

(** The user toggles the label of an option that is no indicator: the
    option is enabled as the label says, its widgets are sensitive
    accordingly, and it is changed, with its label in bold. *)
Theorem label_toggled_effect pf a i o p l :
  options a !! i = Some (o, p) → klass o ≠ IndicatorOption →
  _label o = Some l →
  ∃ a', run_handler pf "_on_label_toggled" i NoArgs a = (Return tt, a')
        ∧ a' = with_option i
                 (modify_font "bold" (with_changed true (enabled_as (label_active l) o))) a
        ∧ enabled_of a' i = Some (label_active l)
        ∧ changed_of a' i = Some true
        ∧ (∀ j, j ≠ i → options a' !! j = options a !! j).
Proof.
  intros Ho Hk Hl. eexists. split; [|split; [reflexivity |]].
  - change (run_handler pf "_on_label_toggled" i NoArgs)
      with (_on_label_toggled pf leaf_handler i).
    unfold _on_label_toggled.
    rewrite (bind_return _ _ _ _ _ (get_option_at i a o p Ho)). rewrite Hl.
    rewrite (bind_return _ _ _ _ _
               (_set_enabled_effect pf _ i (label_active l) true a o p
                  (λ j a', leaf_handler_notify "sensitive" j a' eq_refl) Ho Hk)).
    pose proof (with_option_lookup i (enabled_as (label_active l) o) a o p Ho) as Ho1.
    unfold touch. rewrite (update_option_at i _ _ _ p Ho1).
    by rewrite with_option_with_option.
  - split; [|split].
    + unfold enabled_of. by erewrite with_option_lookup.
    + unfold changed_of. by erewrite with_option_lookup.
    + intros j Hj. by apply with_option_other.
Qed.

Lemma label_toggled_effect_witness :
  ∃ a', run_handler gtk3 "_on_label_toggled" 0 NoArgs string_app = (Return tt, a')
        ∧ a' = with_option 0
                 (modify_font "bold"
                    (with_changed true (enabled_as (label_active plain_label) string_option)))
                 string_app
        ∧ enabled_of a' 0 = Some (label_active plain_label)
        ∧ changed_of a' 0 = Some true
        ∧ (∀ j, j ≠ 0%nat → options a' !! j = options string_app !! j).
Proof.
  apply (label_toggled_effect gtk3 string_app 0 string_option
           (path_of "appearance" "theme-name") plain_label).
  - reflexivity.
  - intros H. discriminate H.
  - reflexivity.
Defined.

(** Assigning [enabled] on an indicator whose row is in the model returns,
    sets [_enabled] and writes the opposite into the [INCONSISTENT] column
    of the row, whose [ENABLED] column stays. *)
Theorem indicator_set_enabled_row pf a i o p x v :
  options a !! i = Some (o, p) → klass o = IndicatorOption →
  indicators_model a !! _row o = Some x →
  ∃ a', set_enabled pf (run_handler pf) i v a = (Return tt, a')
        ∧ enabled_of a' i = Some v
        ∧ row_state a' (_row o) = Some (ENABLED x, negb v).
Proof.
  intros Ho Hk Hx. unfold set_enabled, _set_enabled.
  rewrite (bind_return _ _ _ _ _
             (OptionWrapper_set_enabled_effect pf _ i v false a o p
                (λ j a', run_handler_notify pf "sensitive" j a' eq_refl) Ho)).
  cbv iota.
  set (o1 := set_label_active v (enabled_as v o)).
  set (a1 := with_option i o1 a).
  assert (options a1 !! i = Some (o1, p)) as Ho1 by (by eapply with_option_lookup).
  rewrite (bind_return _ _ _ _ _ (get_option_at i _ _ p Ho1)).
  change (klass o1) with (klass o). rewrite Hk. change (_row o1) with (_row o).
  pose proof (row_set_settled pf (clean_options a1) (indicators_model a1) (_row o)
                (with_INCONSISTENT (negb v)) a1 ltac:(done)) as Hr.
  change (indicators_model a1) with (indicators_model a) in Hr. rewrite Hx in Hr.
  destruct Hr as (a' & Hrun & Hc & Hm).
  exists a'. split; [done |]. split.
  - destruct (clean_options_lookup_inv a' i (untouched o1) p) as (o' & Ho' & Hu).
    { rewrite Hc. by apply clean_options_lookup. }
    unfold enabled_of. rewrite Ho'. cbn.
    by destruct (untouched_fields _ _ Hu) as (_ & _ & _ & _ & _ & ->).
  - unfold row_state. rewrite Hm.
    rewrite list_lookup_insert_eq by (by eapply lookup_lt_Some). done.
Qed.

Lemma indicator_set_enabled_row_witness :
  ∃ a', set_enabled gtk3 (run_handler gtk3) 0 false clock_app = (Return tt, a')
        ∧ enabled_of a' 0 = Some false
        ∧ row_state a' 0%nat = Some (true, true).
Proof.
  apply (indicator_set_enabled_row gtk3 clock_app 0 clock_option
           (path_of "clock" "enabled") (indicator_row "clock" true false) false);
    reflexivity.
Defined.
(** ** [save], when it goes well *)

Lemma save_option_unchanged pf j a o p :
  options a !! j = Some (o, p) → _changed o = false →
  save_option pf j a = (Return tt, a).
Proof.
  intros Ho Hc. unfold save_option.
  rewrite (bind_return _ _ _ _ _ (get_option_at j a o p Ho)). by rewrite Hc.
Qed.

Lemma for_each_one {A} (P : Application → Prop) (l1 l2 : list A) x
    (body : A → M Application unit) a :
  (∀ y a', y ∈ (l1 ++ l2)%list → P a' → body y a' = (Return tt, a')) →
  preserves P (body x) → P a →
  for_each (l1 ++ x :: l2) body a = body x a.
Proof.
  intros Hn Hx Ha. induction l1 as [|y l1 IH].
  - cbn [app for_each]. unfold mbind, M_bind. specialize (Hx a Ha).
    destruct (body x a) as [[[] | e] a1]; [|done]. cbn in Hx.
    apply for_each_noop. intros y Hy. apply Hn; [|done]. by apply elem_of_app; right.
  - cbn [app for_each]. rewrite (bind_return _ _ _ tt a).
    + apply IH. intros z a' Hz. apply Hn. by right.
    + apply Hn; [by left | done].
Qed.

Lemma seq_split_at i n :
  (i < n)%nat → seq 0 n = (seq 0 i ++ i :: seq (S i) (n - S i))%list.
Proof.
  intros Hi. replace n with (i + S (n - S i))%nat at 1 by lia.
  by rewrite seq_app.
Qed.

(** When one option at most is changed, the diff loop of [save] is the
    body of the loop for that option. *)
Lemma diff_one pf i a :
  (i < length (options a))%nat →
  (∀ j o p, j ≠ i → options a !! j = Some (o, p) → _changed o = false) →
  for_each (seq 0 (length (options a))) (save_option pf) a = save_option pf i a.
Proof.
  intros Hi Hothers. rewrite (seq_split_at i _ Hi).
  apply (for_each_one (λ a', options a' = options a)); [| |done].
  - intros j a' Hj Ha'.
    assert (j ≠ i ∧ j < length (options a))%nat as [Hne Hlt].
    { apply elem_of_app in Hj as [Hj | Hj]; apply elem_of_seq in Hj; lia. }
    destruct (lookup_lt_is_Some_2 _ _ Hlt) as [[o p] Ho].
    apply (save_option_unchanged pf j a' o p); [by rewrite Ha' |].
    by eapply Hothers.
  - intros a' Ha'.
    pose proof (save_option_sans_config pf a' i a' eq_refl) as Hs.
    apply sans_config_fields in Hs as (-> & _). done.
Qed.

Lemma diff_none pf a :
  (∀ j o p, options a !! j = Some (o, p) → _changed o = false) →
  for_each (seq 0 (length (options a))) (save_option pf) a = (Return tt, a).
Proof.
  intros Hall. apply for_each_noop. intros j Hj%elem_of_seq.
  destruct (lookup_lt_is_Some_2 (options a) j ltac:(lia)) as [[o p] Ho].
  apply (save_option_unchanged pf j a o p Ho). by eapply Hall.
Qed.

(** The getters look at the options and the rows only, and write nothing. *)
Lemma reads_ret {A} (x : A) : reads (mret x).
Proof. by intros a a' _ _. Qed.

Lemma reads_raise {A} e : reads (@raise Application A e).
Proof. by intros a a' _ _. Qed.

Lemma reads_lift {A} (r : exn + A) : reads (lift r).
Proof. destruct r; [apply reads_raise | apply reads_ret]. Qed.

Lemma reads_bind {A B} (m : M Application A) (k : A → M Application B) :
  reads m → (∀ x, reads (k x)) → reads (m ≫= k).
Proof.
  intros Hm Hk a a' Ho Hr. destruct (Hm a a' Ho Hr) as (H1 & H2 & H3).
  unfold mbind, M_bind.
  destruct (m a) as [[x | e] a1], (m a') as [[x' | e'] a1']; cbn in *; simplify_eq.
  - by apply Hk.
  - done.
Qed.

Lemma reads_get_option i : reads (get_option i).
Proof.
  intros a a' Ho _. unfold get_option. rewrite Ho.
  by destruct (options a !! i) as [[]|].
Qed.

Lemma reads_get_row r : reads (get_row r).
Proof.
  intros a a' _ Hr. unfold get_row. rewrite Hr.
  by destruct (indicators_model a !! r).
Qed.

Lemma reads_get_widget i role : reads (get_widget i role).
Proof.
  unfold get_widget. apply reads_bind; [apply reads_get_option | intros o].
  destruct (_widgets o !! role); [apply reads_ret | apply reads_raise].
Qed.

Lemma _get_widget_value_reads_only pf i : reads (_get_widget_value pf i).
Proof.
  unfold _get_widget_value.
  repeat match goal with
    | |- reads (mret _) => apply reads_ret
    | |- reads (raise _) => apply reads_raise
    | |- reads (lift _) => apply reads_lift
    | |- reads (get_option _) => apply reads_get_option
    | |- reads (get_row _) => apply reads_get_row
    | |- reads (get_widget _ _) => apply reads_get_widget
    | |- reads (_ ≫= _) => apply reads_bind; [|intros ?]
    | |- reads (if ?c then _ else _) => destruct c
    | |- reads (match ?c with _ => _ end) => destruct c
    end.
Qed.

Lemma _get_widget_value_config pf i cp a r :
  _get_widget_value pf i a = (r, a) →
  _get_widget_value pf i (with_config cp a) = (r, with_config cp a).
Proof.
  intros H.
  destruct (_get_widget_value_reads_only pf i a (with_config cp a) eq_refl eq_refl)
    as (H1 & _ & H3).
  rewrite H in H1. cbn in H1.
  destruct (_get_widget_value pf i (with_config cp a)) as [r' a'].
  cbn in *. by subst.
Qed.
Lemma is_default_false s :
  is_default s = false → String.eqb s default_section = false ∧ s ≠ "DEFAULT".
Proof.
  unfold is_default. intros [_ H]%orb_false_iff. split; [done |].
  intros ->. by rewrite String.eqb_refl in H.
Qed.

Lemma with_config_with_config c c' a : with_config c (with_config c' a) = with_config c a.
Proof. done. Qed.

(** The body of the diff loop for a changed and enabled option. *)
Lemma save_option_upsert pf i a o p v :
  options a !! i = Some (o, p) → _changed o = true → _enabled o = true →
  is_default (section p) = false →
  _get_widget_value pf i a = (Return v, a) →
  save_option pf i a
  = match before_set (py_str v) with
    | inr _ => (Return tt, with_config (upsert (config a) (section p) (key p) (py_str v)) a)
    | inl e =>
        (Raise e,
         if has_section (config a) (section p) then a
         else with_config (with_sections (<[section p := ∅]> (_sections (config a)))
                             (config a)) a)
    end.
Proof.
  intros Ho Hc He Hd Hv. destruct (is_default_false _ Hd) as [Hs Hs'].
  unfold save_option.
  rewrite (bind_return _ _ _ _ _ (get_option_at i a o p Ho)). rewrite Hc.
  erewrite bind_return by (unfold get_path; by rewrite Ho). rewrite He.
  erewrite bind_return by reflexivity.
  assert (∀ cp d, _sections cp !! section p = Some d →
            cp_set cp (section p) (key p) (py_str v)
            = match before_set (py_str v) with
              | inr _ => inr (with_sections
                                (<[section p := <[optionxform (key p) := Some (py_str v)]> d]>
                                   (_sections cp)) cp)
              | inl e => inl e
              end) as Hset.
  { intros cp d Hsec. unfold cp_set.
    destruct (String.eqb (py_str v) "") eqn:E.
    - apply String.eqb_eq in E. rewrite E. cbn. by rewrite Hd, Hsec.
    - unfold before_set. destruct (contains _ _); [done |]. cbn. by rewrite Hd, Hsec. }
  destruct (has_section (config a) (section p)) eqn:Hhas.
  - cbn [negb]. erewrite bind_return by reflexivity.
    rewrite (bind_return _ _ _ _ _ Hv).
    erewrite bind_return by reflexivity.
    unfold has_section in Hhas. apply bool_decide_eq_true in Hhas as [d Hsec].
    rewrite (Hset _ d Hsec). unfold upsert. rewrite Hsec. cbn [default from_option].
    unfold mbind, M_bind, lift. by destruct (before_set (py_str v)).
  - cbn [negb]. unfold add_section. rewrite Hs, Hhas.
    erewrite bind_return by reflexivity.
    rewrite (bind_return _ _ _ _ _ (_get_widget_value_config pf i _ a _ Hv)).
    erewrite bind_return by reflexivity.
    cbn [config with_config].
    rewrite (Hset _ ∅); [|cbn; by rewrite lookup_insert_eq].
    unfold has_section in Hhas. apply bool_decide_eq_false in Hhas.
    assert (_sections (config a) !! section p = None) as Hnone.
    { destruct (_sections (config a) !! section p); [|done]. destruct Hhas. eauto. }
    unfold upsert. rewrite Hnone. cbn [default from_option _sections with_sections].
    rewrite insert_insert_eq.
    unfold mbind, M_bind, lift. by destruct (before_set (py_str v)).
Qed.

Lemma upsert_kept cp s k v :
  s ≠ "DEFAULT" →
  _sections (pruned (upsert cp s k v)) !! s
  = Some (<[optionxform k := Some v]> (default ∅ (_sections cp !! s))).
Proof.
  intros Hs. rewrite pruned_sections. unfold upsert. cbn [_sections with_sections].
  rewrite lookup_insert_eq. rewrite decide_False; [done |].
  intros (_ & He & _). by apply insert_non_empty in He.
Qed.
Lemma save_of_diff pf a am :
  for_each (seq 0 (length (options a))) (save_option pf) a = (Return tt, am) →
  save pf None a
  = (Return true,
     with_written (written am ++ [pruned (config am)]) (with_config (pruned (config am)) am)).
Proof.
  intros Hdiff. unfold save. erewrite bind_return by reflexivity.
  rewrite (bind_return _ _ _ _ _ Hdiff).
  rewrite (bind_return _ _ _ _ _ (prune_spec am)). reflexivity.
Qed.

(** [save] with one option changed, which is enabled: when the text of its
    value passes the parser's check of [%], [save] returns [True]; the store
    holds the text under the option's section and (lower-cased) key, in a
    section made for it if there was none, and that store is what is
    written.  No option is touched. *)
Theorem save_stores_value pf a i o p v :
  options a !! i = Some (o, p) → _changed o = true → _enabled o = true →
  (∀ j o' p', j ≠ i → options a !! j = Some (o', p') → _changed o' = false) →
  is_default (section p) = false →
  _get_widget_value pf i a = (Return v, a) →
  before_set (py_str v) = inr (py_str v) →
  ∃ a', save pf None a = (Return true, a')
        ∧ config a' = pruned (upsert (config a) (section p) (key p) (py_str v))
        ∧ stored a' (section p) (optionxform (key p)) = Some (Some (py_str v))
        ∧ last_written a' = Some (config a')
        ∧ options a' = options a.
Proof.
  intros Ho Hc He Hothers Hd Hv Hbs.
  assert (i < length (options a))%nat as Hi by (by eapply lookup_lt_Some).
  pose proof (diff_one pf i a Hi Hothers) as Hdiff.
  rewrite (save_option_upsert pf i a o p v Ho Hc He Hd Hv), Hbs in Hdiff.
  eexists. split; [apply (save_of_diff pf a _ Hdiff) |].
  cbn [config with_config with_written]. split; [done |]. split; [|split; [|done]].
  - unfold stored. cbn [config with_config with_written].
    rewrite upsert_kept by (by apply is_default_false). cbn.
    by rewrite lookup_insert_eq.
  - unfold last_written. cbn. by rewrite last_snoc.
Qed.

Lemma save_stores_value_witness :
  ∃ a', save gtk3 None (typed "Adwaita" "appearance" "theme-name" empty_config)
        = (Return true, a')
        ∧ config a' = pruned (upsert empty_config "appearance" "theme-name" "Adwaita")
        ∧ stored a' "appearance" "theme-name" = Some (Some "Adwaita")
        ∧ last_written a' = Some (config a')
        ∧ options a' = options (typed "Adwaita" "appearance" "theme-name" empty_config).
Proof.
  apply (save_stores_value gtk3 (typed "Adwaita" "appearance" "theme-name" empty_config) 0
           (dirty true (with_widgets {[ "" := with_text (VStr "Adwaita") blank ]}
                          (fresh StringOption (VStr "") [""] 0)))
           (path_of "appearance" "theme-name") (VStr "Adwaita")).
  - reflexivity.
  - reflexivity.
  - reflexivity.
  - intros [|j] o' p' Hj H; [done | discriminate H].
  - reflexivity.
  - reflexivity.
  - reflexivity.
Defined.

(** The body of the diff loop for a changed and disabled option whose
    section is in the store. *)
Lemma save_option_without pf i a o p d :
  options a !! i = Some (o, p) → _changed o = true → _enabled o = false →
  is_default (section p) = false →
  _sections (config a) !! section p = Some d →
  save_option pf i a
  = (Return tt, with_config (without (config a) (section p) (key p) d) a).
Proof.
  intros Ho Hc He Hd Hsec. unfold save_option.
  rewrite (bind_return _ _ _ _ _ (get_option_at i a o p Ho)). rewrite Hc.
  erewrite bind_return by (unfold get_path; by rewrite Ho). rewrite He.
  erewrite bind_return by reflexivity.
  unfold remove_option. by rewrite Hd, Hsec.
Qed.

(** What [has_option] finds of a key taken out of its section, after the
    pruning: the key of that name in [DEFAULT], if there is one. *)
Lemma has_option_without cp s k d :
  is_default s = false →
  has_option (pruned (without cp s k d)) s k
  = bool_decide (is_Some (_defaults cp !! optionxform k)).
Proof.
  intros Hd. unfold has_option. rewrite Hd, pruned_sections.
  unfold without. cbn [_sections with_sections _defaults]. rewrite lookup_insert_eq.
  destruct (decide _) as [(_ & _ & Hdef) | _].
  - rewrite Hdef, lookup_empty. symmetry. apply bool_decide_eq_false. by intros [? ?].
  - rewrite lookup_delete_eq. cbn [_defaults pruned with_sections].
    rewrite (bool_decide_eq_false_2 (is_Some None)); [done |]. by intros [? ?].
Qed.

(** [save] with one option changed, which is disabled and whose section is
    in the store: [save] returns [True]; the key of the option is taken out
    of the section (which goes too when that leaves it without a key and
    [DEFAULT] has none), the other keys of the section and the keys of
    [DEFAULT] are kept, and that store is what is written.  A key of the
    same name in [DEFAULT] stays: [has_option], the test [read] makes, finds
    the key afterwards exactly when [DEFAULT] holds it. *)
Theorem save_removes_key pf a i o p d :
  options a !! i = Some (o, p) → _changed o = true → _enabled o = false →
  (∀ j o' p', j ≠ i → options a !! j = Some (o', p') → _changed o' = false) →
  is_default (section p) = false →
  _sections (config a) !! section p = Some d →
  ∃ a', save pf None a = (Return true, a')
        ∧ config a' = pruned (without (config a) (section p) (key p) d)
        ∧ stored a' (section p) (optionxform (key p)) = None
        ∧ (∀ k, k ≠ optionxform (key p) → stored a' (section p) k = d !! k)
        ∧ _defaults (config a') = _defaults (config a)
        ∧ has_option (config a') (section p) (key p)
          = bool_decide (is_Some (_defaults (config a) !! optionxform (key p)))
        ∧ last_written a' = Some (config a')
        ∧ options a' = options a.
Proof.
  intros Ho Hc He Hothers Hd Hsec.
  assert (i < length (options a))%nat as Hi by (by eapply lookup_lt_Some).
  pose proof (diff_one pf i a Hi Hothers) as Hdiff.
  rewrite (save_option_without pf i a o p d Ho Hc He Hd Hsec) in Hdiff.
  eexists. split; [apply (save_of_diff pf a _ Hdiff) |].
  cbn [config with_config with_written]. split; [done |].
  assert (∀ k, stored (with_config (pruned (without (config a) (section p) (key p) d)) a)
                 (section p) k
               = delete (optionxform (key p)) d !! k) as Hst.
  { intros k. unfold stored. cbn [config with_config].
    rewrite pruned_sections. unfold without. cbn [_sections with_sections _defaults].
    rewrite lookup_insert_eq.
    destruct (decide _) as [(_ & -> & _) | _]; [by rewrite lookup_empty | done]. }
  split; [|split; [|split; [done |split; [|split; [|done]]]]].
  - unfold stored in *. cbn [config with_config with_written] in *.
    by rewrite Hst, lookup_delete_eq.
  - intros k Hk. unfold stored in *. cbn [config with_config with_written] in *.
    by rewrite Hst, lookup_delete_ne.
  - by apply has_option_without.
  - unfold last_written. cbn. by rewrite last_snoc.
Qed.

Lemma save_removes_key_witness :
  ∃ a', save gtk3 None theme_reverted = (Return true, a')
        ∧ config a' = pruned (without theme_under_default "appearance" "theme-name"
                                (section_of [("theme-name", "dark")]))
        ∧ stored a' "appearance" "theme-name" = None
        ∧ (∀ k, k ≠ "theme-name" →
             stored a' "appearance" k = section_of [("theme-name", "dark")] !! k)
        ∧ _defaults (config a') = section_of [("theme-name", "Adwaita")]
        ∧ has_option (config a') "appearance" "theme-name" = true
        ∧ last_written a' = Some (config a')
        ∧ options a' = options theme_reverted.
Proof.
  refine (save_removes_key gtk3 theme_reverted 0 (dirty false string_option)
            (path_of "appearance" "theme-name") (section_of [("theme-name", "dark")])
            _ _ _ _ _ _).
  - reflexivity.
  - reflexivity.
  - reflexivity.
  - intros [|j] o' p' Hj H; [done | discriminate H].
  - reflexivity.
  - reflexivity.
Defined.

(** With no option changed [save] cannot raise: it returns whether the
    write went well; the store loses its empty sections and nothing else,
    and is what is written. *)
Theorem save_nothing_changed pf io a :
  (∀ j o p, options a !! j = Some (o, p) → _changed o = false) →
  ∃ a', save pf io a = (Return (bool_decide (io = None)), a')
        ∧ config a' = pruned (config a)
        ∧ options a' = options a
        ∧ written a' = match io with
                       | None => (written a ++ [pruned (config a)])%list
                       | Some _ => written a
                       end.
Proof.
  intros Hall. pose proof (diff_none pf a Hall) as Hdiff.
  unfold save. erewrite bind_return by reflexivity.
  rewrite (bind_return _ _ _ _ _ Hdiff).
  rewrite (bind_return _ _ _ _ _ (prune_spec a)).
  destruct io as [msg|]; eexists; (split; [reflexivity |]); done.
Qed.

Lemma save_nothing_changed_witness :
  ∃ a', save gtk3 None string_app = (Return (bool_decide (@None string = None)), a')
        ∧ config a' = pruned (config string_app)
        ∧ options a' = options string_app
        ∧ written a' = (written string_app ++ [pruned (config string_app)])%list.
Proof.
  apply (save_nothing_changed gtk3 None string_app).
  intros [|j] o p H; [by injection H as <- _ | discriminate H].
Defined.
Lemma for_each_raise_at {A} (l1 l2 : list A) x (body : A → M Application unit) a e a1 :
  (∀ y, y ∈ l1 → body y a = (Return tt, a)) → body x a = (Raise e, a1) →
  for_each (l1 ++ x :: l2) body a = (Raise e, a1).
Proof.
  intros Hn Hx. induction l1 as [|y l1 IH].
  - cbn [app for_each]. by rewrite (bind_raise _ _ _ _ _ Hx).
  - cbn [app for_each]. rewrite (bind_return _ _ _ tt a) by (apply Hn; by left).
    apply IH. intros z Hz. apply Hn. by right.
Qed.

(** [save] when the first changed option is enabled and the text of its
    value has a [%] the parser does not accept (a [strftime] format, say):
    [config.set] raises [ValueError] out of [save] and of the handler of
    the OK button; nothing is written, no error is shown, the key keeps
    what the store had for it and the main loop goes on. *)
Theorem save_raises_on_percent pf io a i o p v :
  options a !! i = Some (o, p) → _changed o = true → _enabled o = true →
  (∀ j o' p', (j < i)%nat → options a !! j = Some (o', p') → _changed o' = false) →
  is_default (section p) = false →
  _get_widget_value pf i a = (Return v, a) →
  before_set (py_str v) = inl ValueError →
  let r := save pf io a in
  r.1 = Raise ValueError
  ∧ written r.2 = written a ∧ shown_errors r.2 = shown_errors a
  ∧ options r.2 = options a
  ∧ stored r.2 (section p) (optionxform (key p)) = stored a (section p) (optionxform (key p))
  ∧ (_on_ok_clicked pf io a).1 = Raise ValueError
  ∧ main_running (_on_ok_clicked pf io a).2 = main_running a.
Proof.
  intros Ho Hc He Hbefore Hd Hv Hbs. cbv zeta.
  assert (i < length (options a))%nat as Hi by (by eapply lookup_lt_Some).
  pose proof (save_option_upsert pf i a o p v Ho Hc He Hd Hv) as Hopt.
  rewrite Hbs in Hopt.
  set (a1 := if has_section (config a) (section p) then a
             else with_config (with_sections (<[section p := ∅]> (_sections (config a)))
                                 (config a)) a) in Hopt.
  assert (for_each (seq 0 (length (options a))) (save_option pf) a = (Raise ValueError, a1))
    as Hdiff.
  { rewrite (seq_split_at i _ Hi). apply for_each_raise_at; [|done].
    intros j Hj%elem_of_seq.
    destruct (lookup_lt_is_Some_2 (options a) j ltac:(lia)) as [[o' p'] Ho'].
    apply (save_option_unchanged pf j a o' p' Ho'). eapply Hbefore; [|done]. lia. }
  assert (save pf io a = (Raise ValueError, a1)) as Hsave.
  { unfold save. erewrite bind_return by reflexivity.
    by rewrite (bind_raise _ _ _ _ _ Hdiff). }
  assert (_on_ok_clicked pf io a = (Raise ValueError, a1)) as Hok.
  { unfold _on_ok_clicked. by rewrite (bind_raise _ _ _ _ _ Hsave). }
  rewrite Hsave, Hok. cbn [fst snd].
  assert (stored a1 (section p) (optionxform (key p))
          = stored a (section p) (optionxform (key p))) as Hst.
  { unfold a1. destruct (has_section (config a) (section p)) eqn:Hhas; [done |].
    unfold stored. cbn. rewrite lookup_insert_eq. cbn.
    unfold has_section in Hhas. apply bool_decide_eq_false in Hhas.
    destruct (_sections (config a) !! section p); [|done]. destruct Hhas. eauto. }
  unfold a1 in *. by destruct (has_section (config a) (section p)).
Qed.

Lemma save_raises_on_percent_witness :
  (save gtk3 None (typed "%H:%M" "clock" "time-format" empty_config)).1 = Raise ValueError
  ∧ written (save gtk3 None (typed "%H:%M" "clock" "time-format" empty_config)).2 = []
  ∧ main_running (_on_ok_clicked gtk3 None
                    (typed "%H:%M" "clock" "time-format" empty_config)).2 = true.
Proof.
  destruct (save_raises_on_percent gtk3 None
              (typed "%H:%M" "clock" "time-format" empty_config) 0
              (dirty true (with_widgets {[ "" := with_text (VStr "%H:%M") blank ]}
                             (fresh StringOption (VStr "") [""] 0)))
              (path_of "clock" "time-format") (VStr "%H:%M"))
    as (H1 & H2 & _ & _ & _ & _ & H3).
  - reflexivity.
  - reflexivity.
  - reflexivity.
  - intros j o' p' Hj. exfalso. exact (Nat.nlt_0_r j Hj).
  - reflexivity.
  - reflexivity.
  - reflexivity.
  - split; [exact H1 |]. split; [exact H2 | exact H3].
Defined.

(** When the handler of the OK button returns, the main loop is quit if
    the file could be written, and then the last store written is the one
    in memory; if the write failed the main loop is as before and nothing
    more is recorded as written. *)
Theorem ok_quits_when_written pf io a a' :
  _on_ok_clicked pf io a = (Return tt, a') →
  match io with
  | None => main_running a' = false ∧ last_written a' = Some (config a')
  | Some msg => main_running a' = main_running a ∧ written a' = written a
                ∧ last (shown_errors a') = Some (OSError msg)
  end.
Proof.
  unfold _on_ok_clicked. intros H.
  apply bind_returns in H as (ok & a1 & Hsave & H).
  destruct (save_leaves_options pf io a) as (_ & _ & _ & Hr).
  rewrite Hsave in Hr. cbn in Hr.
  unfold save in Hsave.
  apply bind_returns in Hsave as (n & a0 & [= <- <-] & Hsave).
  apply bind_returns in Hsave as ([] & am & Hdiff & Hsave).
  rewrite (bind_return _ _ _ _ _ (prune_spec am)) in Hsave.
  pose proof (diff_sans_config pf a (length (options a))) as Hs.
  rewrite Hdiff in Hs. cbn in Hs.
  apply sans_config_fields in Hs as (_ & _ & _ & _ & Hw & _).
  destruct io as [msg|]; cbn in Hsave; injection Hsave as <- <-; cbn in H;
    injection H as <-; cbn in *.
  - split; [done |]. split; [done |]. by rewrite last_snoc.
  - split; [done |]. unfold last_written. cbn. by rewrite last_snoc.
Qed.

Lemma ok_quits_when_written_witness :
  main_running (_on_ok_clicked gtk3 None string_app).2 = false
  ∧ last_written (_on_ok_clicked gtk3 None string_app).2
    = Some (config (_on_ok_clicked gtk3 None string_app).2).
Proof.
  apply (ok_quits_when_written gtk3 None string_app (_on_ok_clicked gtk3 None string_app).2).
  apply returns_as. reflexivity.
Defined.
(** ** [read], when it goes well *)

Lemma _interpolate_some_step map o s fuel c r :
  Ascii.eqb c "%" = false →
  _interpolate_some map o s (S fuel) (String c r)
  = rmap (String c) (_interpolate_some map o s (S fuel) r).
Proof. intros H. cbn -[Ascii.eqb]. by rewrite H. Qed.

Lemma _interpolate_some_plain map o s fuel rest :
  contains "%" rest = false →
  _interpolate_some map o s (S fuel) rest = inr rest.
Proof.
  induction rest as [|c r IH]; intros H; [done |].
  cbn [contains] in H. apply orb_false_iff in H as [Hc Hr].
  rewrite _interpolate_some_step by (by rewrite Ascii.eqb_sym).
  by rewrite IH.
Qed.

Lemma before_get_plain map o s value :
  contains "%" value = false → before_get map o s value = inr value.
Proof. apply _interpolate_some_plain. Qed.

(** A value without [%] is read from the store as it is. *)
Lemma getitem_plain cp s k d value :
  is_default s = false →
  _sections cp !! s = Some d → d !! optionxform k = Some (Some value) →
  contains "%" value = false →
  has_option cp s k = true ∧ getitem cp s k = inr (Some value).
Proof.
  intros Hd Hs Hk Hv. destruct (is_default_false _ Hd) as [Hs' _].
  assert (has_option cp s k = true) as Hhas.
  { unfold has_option. rewrite Hd, Hs, Hk. by rewrite bool_decide_true by eauto. }
  split; [done |]. unfold getitem, has_section. rewrite Hs', Hs, Hhas.
  rewrite bool_decide_true by eauto. cbn [negb andb].
  unfold cp_get, sectiondict. rewrite Hs. cbn [rbind].
  rewrite (lookup_union_Some_l _ _ _ _ Hk).
  by rewrite before_get_plain.
Qed.

Lemma reset_keeps_config pf i a : config (reset pf (run_handler pf) i a).2 = config a.
Proof.
  apply (frame_reset pf (λ a', config a' = config a)
           (λ _ _ H, H) (λ _ _ H, H) (λ _ _ H, H) (run_handler pf)
           (frame_run_handler pf (λ a', config a' = config a)
              (λ _ _ H, H) (λ _ _ H, H) (λ _ _ H, H)) i a eq_refl).
Qed.

Lemma reset_plan pf i a o p L :
  options a !! i = Some (o, p) → klass o ≠ IndicatorOption →
  writes_of pf o (_default o) = inr L → roles_exist (_widgets o) L = true →
  ∃ a' o', reset pf (run_handler pf) i a = (Return tt, a')
    ∧ options a' !! i = Some (o', p)
    ∧ untouched o' = with_widgets (retouch (written_by L) (_widgets o)) (untouched o)
    ∧ _changed o' = false
    ∧ config a' = config a.
Proof.
  intros Ho Hk HL Hr.
  destruct (set_value_plan pf i (_default o) a o p L Ho Hk HL Hr)
    as (a1 & o1 & Hrun & Ho1 & Hu & _).
  eexists _, (modify_font "normal" (with_changed false o1)).
  assert (reset pf (run_handler pf) i a
          = (Return tt, with_option i (modify_font "normal" (with_changed false o1)) a1))
    as Hreset.
  { unfold reset. rewrite (bind_return _ _ _ _ _ (get_option_at i a o p Ho)).
    rewrite (bind_return _ _ _ _ _ Hrun).
    by apply (update_option_at i (λ o, modify_font "normal" (with_changed false o))
                a1 o1 p). }
  split; [exact Hreset |]. split; [by eapply with_option_lookup |].
  split; [by rewrite <- Hu |]. split; [done |].
  pose proof (reset_keeps_config pf i a) as Hc. by rewrite Hreset in Hc.
Qed.
Lemma roles_exist_fmap (f : Widget → Widget) ws L :
  roles_exist (f <$> ws) L = roles_exist ws L.
Proof.
  unfold roles_exist. induction L as [|x L IH]; [done |]. cbn. rewrite IH. f_equal.
  rewrite lookup_fmap. by destruct (ws !! x.1).
Qed.

(** The body of the loop of [read] for an option that is no indicator, when
    the value it takes can be read and the widgets its setter writes are
    there. *)
Lemma read_option_plan pf i a o p d L :
  options a !! i = Some (o, p) → klass o ≠ IndicatorOption →
  (if has_option (config a) (section p) (key p)
   then rmap (from_option VStr VNone) (getitem (config a) (section p) (key p))
   else OPTIONS_default p) = inr d →
  writes_of pf o d = inr L → roles_exist (_widgets o) L = true →
  ∃ a' o', read_option pf i a = (Return tt, a')
    ∧ options a' !! i = Some (o', p)
    ∧ _enabled o' = has_option (config a) (section p) (key p)
    ∧ _default o' = d ∧ _changed o' = false
    ∧ _widgets o'
      = retouch (written_by L)
          (with_sensitive (has_option (config a) (section p) (key p)) <$> _widgets o)
    ∧ config a' = config a
    ∧ klass o' = klass o.
Proof.
  intros Ho Hk Hd HL Hr.
  set (has := has_option (config a) (section p) (key p)) in *.
  set (o1 := set_label_active has (enabled_as has o)).
  set (o2 := with_default d o1).
  pose proof (set_enabled_at pf a i o p has Ho Hk) as Hen.
  assert (options (with_option i o1 a) !! i = Some (o1, p)) as Ho1
    by (by eapply with_option_lookup).
  destruct (reset_plan pf i (with_option i o2 a) o2 p L) as (a' & o' & Hreset & Ho' & Hu & Hc & Hcfg).
  { by eapply with_option_lookup. } { done. } { exact HL. }
  { unfold o2, o1. cbn [_widgets with_default set_label_active with_label enabled_as
                         with_widgets]. by rewrite roles_exist_fmap. }
  exists a', o'. split; [|split; [done |]].
  - unfold read_option.
    erewrite bind_return by (unfold get_path; by rewrite Ho).
    erewrite bind_return by reflexivity.
    fold has. rewrite (bind_return _ _ _ _ _ Hen).
    rewrite (bind_return _ _ _ _ _ (get_option_at i _ _ p Ho1)).
    change (_enabled o1) with has.
    change (config (with_option i o1 a)) with (config a).
    erewrite (bind_return _ _ _ d (with_option i o1 a)).
    + rewrite (bind_return _ _ _ _ _ (update_option_at i (with_default d) _ _ p Ho1)).
      rewrite with_option_with_option. exact Hreset.
    + destruct has.
      * destruct (getitem (config a) (section p) (key p)) as [e | v]; [done |].
        cbn in Hd. injection Hd as <-. done.
      * by rewrite Hd.
  - destruct (untouched_fields _ _ Hu) as (Hkl & Hw & _ & _ & Hdef & Hena).
    split; [by rewrite Hena |]. split; [by rewrite Hdef |]. split; [done |].
    split; [by rewrite Hw |]. split; [done | by rewrite Hkl].
Qed.

(** [read], for an option that is no indicator and whose key is not in the
    file: the option is disabled, its widgets are insensitive, it takes the
    default of the registry, and it is not changed. *)
Theorem read_option_absent pf a i o p d L :
  options a !! i = Some (o, p) → klass o ≠ IndicatorOption →
  has_option (config a) (section p) (key p) = false →
  OPTIONS_default p = inr d →
  writes_of pf o d = inr L → roles_exist (_widgets o) L = true →
  ∃ a', read_option pf i a = (Return tt, a')
        ∧ enabled_of a' i = Some false
        ∧ default_of a' i = Some d
        ∧ changed_of a' i = Some false
        ∧ (∀ role w, options a' !! i ≫= (λ op, _widgets op.1 !! role) = Some w →
             sensitive w = false)
        ∧ config a' = config a.
Proof.
  intros Ho Hk Hhas Hd HL Hr.
  destruct (read_option_plan pf i a o p d L Ho Hk) as
    (a' & o' & Hrun & Ho' & He & Hdef & Hc & Hw & Hcfg & _); [by rewrite Hhas | done..|].
  exists a'. split; [done |].
  unfold enabled_of, default_of, changed_of. rewrite Ho'. cbn.
  rewrite He, Hdef, Hc, Hhas. repeat split; try done.
  intros role w. rewrite Hw, lookup_retouch, lookup_fmap, Hhas.
  destruct (_widgets o !! role) as [w0|]; [|done]. cbn. intros [= <-].
  destruct (written_by_fields L role) as (_ & _ & _ & _ & _ & Hs & _). by rewrite Hs.
Qed.

Lemma read_option_absent_witness :
  ∃ a', read_option gtk3 0 string_app = (Return tt, a')
        ∧ enabled_of a' 0 = Some false
        ∧ default_of a' 0 = Some (VStr "default")
        ∧ changed_of a' 0 = Some false
        ∧ (∀ role w, options a' !! 0%nat ≫= (λ op, _widgets op.1 !! role) = Some w →
             sensitive w = false)
        ∧ config a' = config string_app.
Proof.
  apply (read_option_absent gtk3 string_app 0 string_option
           (path_of "appearance" "theme-name") (VStr "default")
           [("", Text (VStr "default"))]).
  - reflexivity.
  - intros H. discriminate H.
  - reflexivity.
  - reflexivity.
  - reflexivity.
  - reflexivity.
Defined.
(** [read], for an option that is no indicator and whose key is in the
    file with a value free of [%]: the option is enabled, its widgets are
    sensitive and written by the setter from the stored text, which is the
    new default, and the option is not changed. *)
Theorem read_option_plain_value pf a i o p sec value L :
  options a !! i = Some (o, p) → klass o ≠ IndicatorOption →
  is_default (section p) = false →
  _sections (config a) !! section p = Some sec →
  sec !! optionxform (key p) = Some (Some value) →
  contains "%" value = false →
  writes_of pf o (VStr value) = inr L → roles_exist (_widgets o) L = true →
  ∃ a', read_option pf i a = (Return tt, a')
        ∧ enabled_of a' i = Some true
        ∧ default_of a' i = Some (VStr value)
        ∧ changed_of a' i = Some false
        ∧ (λ op, _widgets op.1) <$> options a' !! i
          = Some (retouch (written_by L) (with_sensitive true <$> _widgets o))
        ∧ config a' = config a.
Proof.
  intros Ho Hk Hd Hs Hkey Hv HL Hr.
  destruct (getitem_plain (config a) (section p) (key p) sec value Hd Hs Hkey Hv)
    as [Hhas Hget].
  destruct (read_option_plan pf i a o p (VStr value) L Ho Hk) as
    (a' & o' & Hrun & Ho' & He & Hdef & Hc & Hw & Hcfg & _); [by rewrite Hhas, Hget | done..|].
  exists a'. split; [done |].
  unfold enabled_of, default_of, changed_of. rewrite Ho'. cbn.
  by rewrite He, Hdef, Hc, Hw, Hhas.
Qed.

Lemma read_option_plain_value_witness :
  ∃ a', read_option gtk3 0 (with_config (time_format_file "noon") time_format_app)
        = (Return tt, a')
        ∧ enabled_of a' 0 = Some true
        ∧ default_of a' 0 = Some (VStr "noon")
        ∧ changed_of a' 0 = Some false
        ∧ (λ op, _widgets op.1) <$> options a' !! 0%nat
          = Some (retouch (written_by [("", Text (VStr "noon"))])
                    (with_sensitive true <$> _widgets time_format_option))
        ∧ config a' = time_format_file "noon".
Proof.
  apply (read_option_plain_value gtk3
           (with_config (time_format_file "noon") time_format_app) 0 time_format_option
           (path_of "clock" "time-format") (section_of [("time-format", "noon")]) "noon"
           [("", Text (VStr "noon"))]).
  - reflexivity.
  - intros H. discriminate H.
  - reflexivity.
  - reflexivity.
  - reflexivity.
  - reflexivity.
  - reflexivity.
  - reflexivity.
Defined.

(** [read], for a [BackgroundOption] or an [IconOption] whose key is in
    the file without a value (the parser allows it): the stored value is
    [None], and the setter, which calls [value.startswith], raises
    [AttributeError] out of [read]; the option is left enabled with the
    default [None]. *)
Theorem read_option_valueless_key pf a i o p sec :
  options a !! i = Some (o, p) →
  klass o = BackgroundOption ∨ klass o = IconOption →
  is_default (section p) = false →
  _sections (config a) !! section p = Some sec →
  sec !! optionxform (key p) = Some None →
  let r := read_option pf i a in
  r.1 = Raise AttributeError
  ∧ enabled_of r.2 i = Some true
  ∧ default_of r.2 i = Some VNone.
Proof.
  intros Ho Hk Hd Hs Hkey. cbv zeta.
  destruct (is_default_false _ Hd) as [Hs' _].
  assert (klass o ≠ IndicatorOption) as Hk' by (by destruct Hk as [-> | ->]).
  assert (has_option (config a) (section p) (key p) = true) as Hhas.
  { unfold has_option. rewrite Hd, Hs, Hkey. by rewrite bool_decide_true by eauto. }
  assert (getitem (config a) (section p) (key p) = inr None) as Hget.
  { unfold getitem, has_section. rewrite Hs', Hs, Hhas.
    rewrite bool_decide_true by eauto. cbn [negb andb].
    unfold cp_get, sectiondict. rewrite Hs. cbn [rbind].
    by rewrite (lookup_union_Some_l _ _ _ _ Hkey). }
  set (o1 := set_label_active true (enabled_as true o)).
  set (o2 := with_default VNone o1).
  pose proof (set_enabled_at pf a i o p true Ho Hk') as Hen.
  assert (options (with_option i o1 a) !! i = Some (o1, p)) as Ho1
    by (by eapply with_option_lookup).
  assert (options (with_option i o2 a) !! i = Some (o2, p)) as Ho2
    by (by eapply with_option_lookup).
  assert (∀ a2, options a2 !! i = Some (o2, p) →
            _set_widget_value pf (run_handler pf) i VNone a2 = (Raise AttributeError, a2))
    as Hset.
  { intros a2 H2. unfold _set_widget_value.
    rewrite (bind_return _ _ _ _ _ (get_option_at i a2 o2 p H2)).
    change (klass o2) with (klass o). by destruct Hk as [-> | ->]. }
  assert (∃ a3, set_value pf (run_handler pf) i VNone (with_option i o2 a)
                = (Raise AttributeError, a3)
                ∧ options a3 = options (with_option i o2 a)) as (a3 & Hsv & Ho3).
  { unfold set_value. rewrite (bind_return _ _ _ _ _ (get_option_at i _ o2 p Ho2)).
    destruct (_signals i o2) as [ws|].
    - unfold block_signals. erewrite bind_return by apply block_all_spec.
      eexists. split.
      + erewrite bind_raise; [reflexivity |]. by apply Hset.
      + done.
    - eexists. split; [by apply Hset | done]. }
  assert (reset pf (run_handler pf) i (with_option i o2 a) = (Raise AttributeError, a3))
    as Hreset.
  { unfold reset. rewrite (bind_return _ _ _ _ _ (get_option_at i _ o2 p Ho2)).
    change (_default o2) with VNone. by rewrite (bind_raise _ _ _ _ _ Hsv). }
  assert (read_option pf i a = (Raise AttributeError, a3)) as Hread.
  { unfold read_option.
    erewrite bind_return by (unfold get_path; by rewrite Ho).
    erewrite bind_return by reflexivity.
    rewrite Hhas, (bind_return _ _ _ _ _ Hen).
    rewrite (bind_return _ _ _ _ _ (get_option_at i _ _ p Ho1)).
    change (_enabled o1) with true.
    change (config (with_option i o1 a)) with (config a). rewrite Hget.
    erewrite bind_return by reflexivity.
    rewrite (bind_return _ _ _ _ _ (update_option_at i (with_default _) _ _ p Ho1)).
    rewrite with_option_with_option. exact Hreset. }
  rewrite Hread. cbn [fst snd]. split; [done |].
  unfold enabled_of, default_of. by rewrite Ho3, Ho2.
Qed.

Lemma read_option_valueless_key_witness :
  (read_option gtk3 0 (with_config valueless_background background_app)).1
  = Raise AttributeError
  ∧ enabled_of (read_option gtk3 0 (with_config valueless_background background_app)).2 0
    = Some true
  ∧ default_of (read_option gtk3 0 (with_config valueless_background background_app)).2 0
    = Some VNone.
Proof.
  apply (read_option_valueless_key gtk3 (with_config valueless_background background_app) 0
           background_option (path_of "appearance" "background") {[ "background" := None ]}).
  - reflexivity.
  - left. reflexivity.
  - reflexivity.
  - reflexivity.
  - reflexivity.
Defined.

Lemma reset_option_clicked_plan pf a i o p L :
  options a !! i = Some (o, p) → klass o ≠ IndicatorOption →
  writes_of pf o (_default o) = inr L → roles_exist (_widgets o) L = true →
  ∃ a' o', _on_reset_option_clicked pf i a = (Return tt, a')
    ∧ options a' !! i = Some (o', p)
    ∧ _changed o' = false
    ∧ _enabled o' = has_option (config a) (section p) (key p)
    ∧ _default o' = _default o
    ∧ config a' = config a
    ∧ klass o' = klass o
    ∧ _widgets o'
      = with_sensitive (has_option (config a) (section p) (key p))
          <$> retouch (written_by L) (_widgets o).
Proof.
  intros Ho Hk HL Hr.
  destruct (reset_plan pf i a o p L Ho Hk HL Hr) as (a1 & o1 & Hreset & Ho1 & Hu & Hc & Hcfg).
  destruct (untouched_fields _ _ Hu) as (Hk1 & Hw & _ & _ & Hdef & _).
  cbn in Hk1, Hw, Hdef.
  pose proof (set_enabled_at pf a1 i o1 p (has_option (config a) (section p) (key p)) Ho1
                ltac:(by rewrite Hk1)) as Hen.
  eexists _, _. split; [|split; [by eapply with_option_lookup |]].
  - unfold _on_reset_option_clicked. rewrite (bind_return _ _ _ _ _ Hreset).
    erewrite bind_return by (unfold get_path; by rewrite Ho1).
    erewrite bind_return by reflexivity. rewrite Hcfg. exact Hen.
  - cbn. by rewrite Hc, Hdef, Hk1, Hw.
Qed.

(** The reset entry of the label menu, for an option that is no indicator
    and whose setter finds its widgets.  The handler returns.  The widgets
    of the option are the ones it had, written by the setter from the
    default of the option ([L] is what the setter writes for that value) and
    then made sensitive when [has_option] finds the key of the option in the
    store and insensitive otherwise; the option is enabled under the same
    condition, it is not changed, its default is kept and the store is
    untouched. *)
Theorem reset_option_clicked_effect pf a i o p L :
  options a !! i = Some (o, p) → klass o ≠ IndicatorOption →
  writes_of pf o (_default o) = inr L → roles_exist (_widgets o) L = true →
  ∃ a', _on_reset_option_clicked pf i a = (Return tt, a')
        ∧ (λ op, _widgets op.1) <$> options a' !! i
          = Some (with_sensitive (has_option (config a) (section p) (key p))
                    <$> retouch (written_by L) (_widgets o))
        ∧ changed_of a' i = Some false
        ∧ enabled_of a' i = Some (has_option (config a) (section p) (key p))
        ∧ default_of a' i = Some (_default o)
        ∧ config a' = config a.
Proof.
  intros Ho Hk HL Hr.
  destruct (reset_option_clicked_plan pf a i o p L Ho Hk HL Hr)
    as (a' & o' & Hrun & Ho' & Hc & He & Hd & Hcfg & _ & Hw).
  exists a'. split; [done |].
  unfold changed_of, enabled_of, default_of. rewrite Ho'. cbn.
  by rewrite Hc, He, Hd, Hw.
Qed.

Lemma reset_option_clicked_effect_witness :
  ∃ a', _on_reset_option_clicked gtk3 0 (typed "dark" "appearance" "theme-name" theme_file)
        = (Return tt, a')
        ∧ (λ op, _widgets op.1) <$> options a' !! 0%nat
          = Some (with_sensitive true
                    <$> retouch (written_by [("", Text (VStr ""))])
                          {[ "" := with_text (VStr "dark") blank ]})
        ∧ changed_of a' 0 = Some false
        ∧ enabled_of a' 0 = Some true
        ∧ default_of a' 0 = Some (VStr "")
        ∧ config a' = theme_file.
Proof.
  refine (reset_option_clicked_effect gtk3
            (typed "dark" "appearance" "theme-name" theme_file) 0
            (dirty true (with_widgets {[ "" := with_text (VStr "dark") blank ]}
                           (fresh StringOption (VStr "") [""] 0)))
            (path_of "appearance" "theme-name") [("", Text (VStr ""))] _ _ _ _).
  - reflexivity.
  - intros H. discriminate H.
  - reflexivity.
  - reflexivity.
Defined.
(** ** The handlers of the choosers *)







(** ** What the methods of one option leave of another

    An option that is no indicator is written by its own methods and
    handlers only: the methods of the option at another index, and the
    signals of the indicator model, leave it as it is. *)

Section Other.
Context (pf : Platform).
Variable k : nat.
Variable x : OptionWrapper * OptionPath.
Hypothesis Hx : klass x.1 ≠ IndicatorOption.

Lemma other_update_option j f : j ≠ k → preserves (kept k x) (update_option j f).
Proof. intros Hj a Ha. unfold kept. cbn. by rewrite list_lookup_alter_ne. Qed.

Lemma other_handlers (f : Application → gmap (nat * string * string) nat) :
  preserves (kept k x) (modify (λ a, with_handlers (f a) a)).
Proof. by intros a Ha. Qed.

Lemma other_block_all ws : preserves (kept k x) (block_all ws).
Proof.
  apply preserves_for_each. intros b _. destruct (change b); [|apply preserves_ret].
  by intros a Ha.
Qed.

Lemma other_unblock_all ws : preserves (kept k x) (unblock_all ws).
Proof.
  apply preserves_for_each. intros b _. destruct (change b); [|apply preserves_ret].
  by intros a Ha.
Qed.

Lemma other_block_signals {A} ws (f : M Application A) :
  preserves (kept k x) f → preserves (kept k x) (block_signals ws f).
Proof.
  intros Hf. unfold block_signals.
  apply preserves_bind; [apply other_block_all | intros _].
  apply preserves_bind; [exact Hf | intros y].
  apply preserves_bind; [apply other_unblock_all | intros _]. apply preserves_ret.
Qed.

Lemma other_swallow {A} (m : M Application A) : preserves (kept k x) m → preserves (kept k x) (swallow m).
Proof. intros Hm a Ha. unfold swallow. specialize (Hm a Ha). by destruct (m a) as [[]]. Qed.

Lemma other_leaf_handler h j args : j ≠ k → preserves (kept k x) (leaf_handler h j args).
Proof.
  intros Hj. unfold leaf_handler, touch.
  repeat first [ by apply other_update_option | progress reads_steps ].
Qed.

Section Run.
Variable run : string → nat → sigargs → M Application unit.
Hypothesis Hrun : ∀ h j args, j ≠ k → preserves (kept k x) (run h j args).

Lemma other_emit_to j role sig args : j ≠ k → preserves (kept k x) (emit_to run j role sig args).
Proof.
  intros Hj. unfold emit_to. apply preserves_bind; [apply preserves_get_option | intros o].
  apply preserves_for_each. intros b _.
  destruct (_ && _); [|apply preserves_ret].
  apply preserves_bind; [apply preserves_gets | intros n].
  destruct n as [[|n]|]; try apply preserves_ret. by apply other_swallow, Hrun.
Qed.

Lemma other_emit j role sig args d : j ≠ k → preserves (kept k x) (emit pf run j role sig args d).
Proof.
  intros Hj. unfold emit.
  destruct (emits pf sig d); [by apply other_emit_to | apply preserves_ret].
Qed.

Lemma other_emit_shared role sig args d : preserves (kept k x) (emit_shared pf run role sig args d).
Proof.
  unfold emit_shared. destruct (emits pf sig d); [|apply preserves_ret].
  apply preserves_bind; [apply preserves_gets | intros n].
  apply preserves_for_each. intros j _ a Ha.
  unfold get_option, mbind, M_bind.
  destruct (options a !! j) as [[o p]|] eqn:Ho; [|done].
  destruct (decide (j = k)) as [-> | Hj].
  - unfold kept in Ha. rewrite Ha in Ho. injection Ho as Ho. subst x. cbn in Hx.
    by destruct (klass o).
  - destruct (klass o); try done. by apply other_emit_to.
Qed.

Ltac other_steps Hj :=
  unfold unselect_all, set_active, set_text, set_sensitive, set_font_name, set_color,
    select_filename, put_widget, touch;
  repeat match goal with
    | |- preserves _ (mret _) => apply preserves_ret
    | |- preserves _ (raise _) => apply preserves_raise
    | |- preserves _ (gets _) => apply preserves_gets
    | |- preserves _ (get_option _) => apply preserves_get_option
    | |- preserves _ (get_row _) => apply preserves_get_row
    | |- preserves _ (get_widget _ _) => apply preserves_get_widget
    | |- preserves _ (update_option _ _) => apply (other_update_option _ _ Hj)
    | |- preserves _ (emit _ _ _ _ _ _ _) => apply (other_emit _ _ _ _ _ Hj)
    | |- preserves _ (emit_shared _ _ _ _ _ _) => apply other_emit_shared
    | |- preserves _ (_ ≫= _) => apply preserves_bind; [|intros ?]
    | |- preserves _ (if ?c then _ else _) => destruct c
    | |- preserves _ (match ?c with _ => _ end) => destruct c
    end.

Lemma other_set_sensitive j role v : j ≠ k → preserves (kept k x) (set_sensitive pf run j role v).
Proof. intros Hj. by other_steps Hj. Qed.

Lemma other_set_active j role v : j ≠ k → preserves (kept k x) (set_active pf run j role v).
Proof. intros Hj. by other_steps Hj. Qed.

Lemma other_row_set r f : preserves (kept k x) (row_set pf run r f).
Proof.
  unfold row_set. apply preserves_bind; [apply preserves_get_row | intros y].
  apply preserves_bind; [by intros a Ha | intros _; apply other_emit_shared].
Qed.

Lemma other_label_set_active j v : j ≠ k → preserves (kept k x) (label_set_active pf run j v).
Proof.
  intros Hj. unfold label_set_active.
  apply preserves_bind; [apply preserves_get_option | intros o].
  destruct (_label o); [|apply preserves_raise].
  apply preserves_bind; [by apply other_update_option | intros _].
  destruct (emits pf _ _); [|apply preserves_ret].
  apply preserves_bind; [apply preserves_gets | intros n].
  destruct n as [[|n]|]; try apply preserves_ret. by apply other_swallow, Hrun.
Qed.

Lemma other__set_enabled j v block : j ≠ k → preserves (kept k x) (_set_enabled pf run j v block).
Proof.
  intros Hj. unfold _set_enabled, OptionWrapper_set_enabled.
  apply preserves_bind; [|intros _].
  - apply preserves_bind; [by apply other_update_option | intros _].
    apply preserves_bind; [apply preserves_get_option | intros o].
    apply preserves_bind; [|intros _].
    + apply preserves_for_each. intros role _. by apply other_set_sensitive.
    + destruct (_ && _); [|apply preserves_ret].
      by apply other_block_signals, other_label_set_active.
  - apply preserves_bind; [apply preserves_get_option | intros o].
    destruct (klass o); try apply preserves_ret. apply other_row_set.
Qed.

Lemma other__set_widget_value j v : j ≠ k → preserves (kept k x) (_set_widget_value pf run j v).
Proof.
  intros Hj. unfold _set_widget_value.
  apply preserves_bind; [apply preserves_get_option | intros o].
  destruct (klass o); try (by other_steps Hj). apply other_row_set.
Qed.

Lemma other_set_value j v : j ≠ k → preserves (kept k x) (set_value pf run j v).
Proof.
  intros Hj. unfold set_value.
  apply preserves_bind; [apply preserves_get_option | intros o].
  destruct (_signals j o); [apply other_block_signals |]; by apply other__set_widget_value.
Qed.

Lemma other_reset j : j ≠ k → preserves (kept k x) (reset pf run j).
Proof.
  intros Hj. unfold reset. apply preserves_bind; [apply preserves_get_option | intros o].
  apply preserves_bind; [by apply other_set_value | intros _].
  by apply other_update_option.
Qed.

Lemma other__on_label_toggled j : j ≠ k → preserves (kept k x) (_on_label_toggled pf run j).
Proof.
  intros Hj. unfold _on_label_toggled.
  apply preserves_bind; [apply preserves_get_option | intros o].
  destruct (_label o); [|apply preserves_raise].
  apply preserves_bind; [by apply other__set_enabled | intros _].
  by apply other_update_option.
Qed.

Lemma other__on_toggled j path : j ≠ k → preserves (kept k x) (_on_toggled pf run j path).
Proof.
  intros Hj. unfold _on_toggled.
  apply preserves_bind; [apply preserves_get_option | intros o].
  destruct (negb _); [apply preserves_ret |].
  apply preserves_bind; [apply preserves_get_row | intros y].
  apply preserves_bind; [apply other_row_set | intros _].
  apply preserves_bind; [apply other_row_set | intros _].
  apply preserves_bind; [by apply other_update_option | intros _].
  destruct (1 <? _); by apply other_update_option.
Qed.
End Run.

Lemma other_run_handler h j args : j ≠ k → preserves (kept k x) (run_handler pf h j args).
Proof.
  intros Hj. unfold run_handler.
  pose proof (λ h j args, other_leaf_handler h j args) as Hleaf.
  repeat match goal with
    | |- preserves _ (if ?c then _ else _) => destruct c
    end.
  - apply preserves_bind; [|intros _; by apply other_update_option].
    by apply other_set_active.
  - apply preserves_bind; [|intros _; by apply other_update_option].
    by apply other_set_active.
  - apply preserves_bind; [|intros _; by apply other_update_option].
    by apply other_set_active.
  - destruct args; try apply preserves_ret. by apply other__on_toggled.
  - by apply other__on_label_toggled.
  - by apply other_leaf_handler.
Qed.

Lemma other_reset_option_clicked j :
  j ≠ k → preserves (kept k x) (_on_reset_option_clicked pf j).
Proof.
  intros Hj. unfold _on_reset_option_clicked, set_enabled.
  apply preserves_bind; [apply other_reset; [apply other_run_handler | done] | intros _].
  apply preserves_bind; [apply preserves_get_path | intros p].
  apply preserves_bind; [apply preserves_gets | intros cp].
  apply other__set_enabled; [apply other_run_handler | done].
Qed.

Lemma other_read_option j : j ≠ k → preserves (kept k x) (read_option pf j).
Proof.
  intros Hj. unfold read_option, set_enabled.
  apply preserves_bind; [apply preserves_get_path | intros p].
  apply preserves_bind; [apply preserves_gets | intros cp].
  apply preserves_bind; [apply other__set_enabled; [apply other_run_handler | done] | intros _].
  apply preserves_bind; [apply preserves_get_option | intros o].
  apply preserves_bind; [|intros d].
  - destruct (_enabled o); [|apply preserves_lift].
    apply preserves_bind; [apply preserves_lift | intros v; apply preserves_ret].
  - apply preserves_bind; [by apply other_update_option | intros _].
    apply other_reset; [apply other_run_handler | done].
Qed.
End Other.
(** ** The loops of [read] and of the reset button *)

Lemma for_each_app {A} (l1 l2 : list A) (body : A → M Application unit) a :
  for_each (l1 ++ l2) body a = (for_each l1 body ≫= λ _, for_each l2 body) a.
Proof.
  revert a. induction l1 as [|y l1 IH]; intros a; [done |].
  cbn [app for_each]. unfold mbind, M_bind in *.
  destruct (body y a) as [[[] | e] a1]; [apply IH | done].
Qed.

(** A loop over all the indices that returns went through the index [k]:
    the state before and the state after the body for [k]. *)
Lemma for_each_through (body : nat → M Application unit) n k a a' :
  (k < n)%nat →
  for_each (seq 0 n) body a = (Return tt, a') →
  ∃ a1 a2, for_each (seq 0 k) body a = (Return tt, a1)
           ∧ body k a1 = (Return tt, a2)
           ∧ for_each (seq (S k) (n - S k)) body a2 = (Return tt, a').
Proof.
  intros Hk. rewrite (seq_split_at k n Hk), for_each_app. intros H.
  apply bind_returns in H as ([] & a1 & H1 & H). cbn [for_each] in H.
  apply bind_returns in H as ([] & a2 & H2 & H). eauto.
Qed.

Lemma value_written_plan pf i u p v c m c' m' :
  klass u ≠ IndicatorOption →
  value_written pf i u p v c m = Some (c', m') →
  ∃ L, writes_of pf u v = inr L ∧ roles_exist (_widgets u) L = true.
Proof.
  intros Hk. unfold value_written.
  assert (∀ X Y : option (list (OptionWrapper * OptionPath) * list Row),
            match klass u with IndicatorOption => X | _ => Y end = Y) as ->
    by (intros; by destruct (klass u)).
  destruct (writes_of pf u v) as [e | L]; [done |].
  destruct (roles_exist (_widgets u) L) eqn:Hr; [|done]. eauto.
Qed.

(** A [reset] that returns found the widgets its setter writes. *)
Lemma reset_returns_plan pf i a o p a1 :
  options a !! i = Some (o, p) → klass o ≠ IndicatorOption →
  reset pf (run_handler pf) i a = (Return tt, a1) →
  ∃ L, writes_of pf o (_default o) = inr L ∧ roles_exist (_widgets o) L = true.
Proof.
  intros Ho Hk Hrun. pose proof (reset_effect pf i a o p Ho) as H.
  destruct (value_written pf i (untouched o) p (_default o) (clean_options a)
              (indicators_model a)) as [[c' m']|] eqn:Hv.
  - by apply (value_written_plan pf i (untouched o) p _ _ _ _ _ Hk Hv).
  - destruct H as (e & a' & H). by rewrite H in Hrun.
Qed.
Lemma preserves_and {A} (P Q : Application → Prop) (m : M Application A) :
  preserves P m → preserves Q m → preserves (λ a, P a ∧ Q a) m.
Proof. intros HP HQ a [Ha Hb]. split; [by apply HP | by apply HQ]. Qed.

Lemma reset_option_clicked_keeps_config pf c j :
  preserves (λ a, config a = c) (_on_reset_option_clicked pf j).
Proof.
  set (Inv := λ a : Application, config a = c).
  assert (∀ h i args, preserves Inv (run_handler pf h i args)) as Hrun
    by (intros; apply (frame_run_handler pf Inv (λ _ _ H, H) (λ _ _ H, H) (λ _ _ H, H))).
  unfold _on_reset_option_clicked, set_enabled.
  apply preserves_bind; [|intros _].
  { apply (frame_reset pf Inv (λ _ _ H, H) (λ _ _ H, H) (λ _ _ H, H) _ Hrun). }
  apply preserves_bind; [apply preserves_get_path | intros p].
  apply preserves_bind; [apply preserves_gets | intros cp].
  apply (frame__set_enabled pf Inv (λ _ _ H, H) (λ _ _ H, H) (λ _ _ H, H) _ Hrun).
Qed.

(** The body of the loop of the reset button, for an option that is no
    indicator, when it returns. *)
Lemma reset_option_clicked_returns pf a k o p a2 :
  options a !! k = Some (o, p) → klass o ≠ IndicatorOption →
  _on_reset_option_clicked pf k a = (Return tt, a2) →
  ∃ o', options a2 !! k = Some (o', p)
        ∧ _changed o' = false
        ∧ _enabled o' = has_option (config a) (section p) (key p)
        ∧ _default o' = _default o
        ∧ klass o' = klass o.
Proof.
  intros Ho Hk Hrun.
  assert (∃ a0, reset pf (run_handler pf) k a = (Return tt, a0)) as [a0 Hreset].
  { unfold _on_reset_option_clicked in Hrun.
    apply bind_returns in Hrun as ([] & a0 & Hreset & _). eauto. }
  destruct (reset_returns_plan pf k a o p a0 Ho Hk Hreset) as (L & HL & Hr).
  destruct (reset_option_clicked_plan pf a k o p L Ho Hk HL Hr)
    as (a' & o' & Hrun' & Ho' & Hc & He & Hd & _ & Hkl & _).
  rewrite Hrun' in Hrun. injection Hrun as <-. eauto 10.
Qed.

(** The reset button: when its handler returns, the store is as it was,
    and every option that is no indicator is at its default and not
    changed, enabled when the store has its key and disabled otherwise. *)
Theorem reset_clicked_effect pf a a' :
  _on_reset_clicked pf a = (Return tt, a') →
  config a' = config a
  ∧ ∀ k o p, options a !! k = Some (o, p) → klass o ≠ IndicatorOption →
      changed_of a' k = Some false
      ∧ enabled_of a' k = Some (has_option (config a) (section p) (key p))
      ∧ default_of a' k = Some (_default o).
Proof.
  unfold _on_reset_clicked. intros H.
  apply bind_returns in H as (n & a0 & [= <- <-] & H).
  split.
  { pose proof (preserves_for_each (λ a', config a' = config a)
                  (seq 0 (length (options a))) (_on_reset_option_clicked pf)
                  (λ j _, reset_option_clicked_keeps_config pf (config a) j) a eq_refl) as Hc.
    by rewrite H in Hc. }
  intros k o p Ho Hk.
  assert (k < length (options a))%nat as Hlt by (by eapply lookup_lt_Some).
  destruct (for_each_through _ _ k a a' Hlt H) as (a1 & a2 & H1 & H2 & H3).
  assert (kept k (o, p) a1 ∧ config a1 = config a) as [Ho1 Hc1].
  { pose proof (preserves_for_each (λ a', kept k (o, p) a' ∧ config a' = config a)
                  (seq 0 k) (_on_reset_option_clicked pf)) as Hpre.
    assert (∀ j, j ∈ seq 0 k →
              preserves (λ a', kept k (o, p) a' ∧ config a' = config a)
                (_on_reset_option_clicked pf j)) as Hbody.
    { intros j Hj%elem_of_seq. apply preserves_and.
      - apply other_reset_option_clicked; [done | lia].
      - apply reset_option_clicked_keeps_config. }
    specialize (Hpre Hbody a (conj Ho eq_refl)). by rewrite H1 in Hpre. }
  destruct (reset_option_clicked_returns pf a1 k o p a2 Ho1 Hk H2)
    as (o' & Ho2 & Hch & Hen & Hdef & Hkl).
  assert (kept k (o', p) a') as Ho'.
  { pose proof (preserves_for_each (kept k (o', p))
                  (seq (S k) (length (options a) - S k)) (_on_reset_option_clicked pf)) as Hpre.
    assert (∀ j, j ∈ seq (S k) (length (options a) - S k) →
              preserves (kept k (o', p)) (_on_reset_option_clicked pf j)) as Hbody.
    { intros j Hj%elem_of_seq. apply other_reset_option_clicked; [cbn; by rewrite Hkl | lia]. }
    specialize (Hpre Hbody a2 Ho2). by rewrite H3 in Hpre. }
  unfold changed_of, enabled_of, default_of. rewrite Ho'. cbn.
  by rewrite Hch, Hen, Hdef, Hc1.
Qed.

Lemma reset_clicked_effect_witness :
  config (_on_reset_clicked gtk3 theme_off_app).2 = config theme_off_app
  ∧ ∀ k o p, options theme_off_app !! k = Some (o, p) → klass o ≠ IndicatorOption →
      changed_of (_on_reset_clicked gtk3 theme_off_app).2 k = Some false
      ∧ enabled_of (_on_reset_clicked gtk3 theme_off_app).2 k
        = Some (has_option (config theme_off_app) (section p) (key p))
      ∧ default_of (_on_reset_clicked gtk3 theme_off_app).2 k = Some (_default o).
Proof.
  apply (reset_clicked_effect gtk3 theme_off_app (_on_reset_clicked gtk3 theme_off_app).2).
  apply returns_as. reflexivity.
Defined.
Lemma read_option_frame pf (Inv : Application → Prop) j :
  (∀ a v, Inv a → Inv (with_options v a)) →
  (∀ a v, Inv a → Inv (with_model v a)) →
  (∀ a v, Inv a → Inv (with_handlers v a)) →
  preserves Inv (read_option pf j).
Proof.
  intros I1 I2 I3.
  assert (∀ h i args, preserves Inv (run_handler pf h i args)) as Hrun
    by (intros; apply (frame_run_handler pf Inv I1 I2 I3)).
  unfold read_option, set_enabled.
  apply preserves_bind; [apply preserves_get_path | intros p].
  apply preserves_bind; [apply preserves_gets | intros cp].
  apply preserves_bind; [apply (frame__set_enabled pf Inv I1 I2 I3 _ Hrun) | intros _].
  apply preserves_bind; [apply preserves_get_option | intros o].
  apply preserves_bind; [|intros d].
  - destruct (_enabled o); [|apply preserves_lift].
    apply preserves_bind; [apply preserves_lift | intros v; apply preserves_ret].
  - apply preserves_bind; [apply (frame_update_option Inv I1) | intros _].
    apply (frame_reset pf Inv I1 I2 I3 _ Hrun).
Qed.

(** The body of the loop of [read], for an option that is no indicator,
    when it returns. *)
Lemma read_option_returns pf a k o p a2 :
  options a !! k = Some (o, p) → klass o ≠ IndicatorOption →
  read_option pf k a = (Return tt, a2) →
  ∃ o' d, options a2 !! k = Some (o', p)
          ∧ _changed o' = false
          ∧ _enabled o' = has_option (config a) (section p) (key p)
          ∧ _default o' = d ∧ default_for (config a) p = inr d
          ∧ klass o' = klass o.
Proof.
  intros Ho Hk Hrun.
  set (has := has_option (config a) (section p) (key p)).
  set (o1 := set_label_active has (enabled_as has o)).
  pose proof (set_enabled_at pf a k o p has Ho Hk) as Hen.
  assert (options (with_option k o1 a) !! k = Some (o1, p)) as Ho1
    by (by eapply with_option_lookup).
  pose proof Hrun as Hrun0.
  unfold read_option in Hrun.
  erewrite bind_return in Hrun by (unfold get_path; by rewrite Ho).
  erewrite bind_return in Hrun by reflexivity.
  fold has in Hrun. rewrite (bind_return _ _ _ _ _ Hen) in Hrun.
  rewrite (bind_return _ _ _ _ _ (get_option_at k _ _ p Ho1)) in Hrun.
  change (_enabled o1) with has in Hrun.
  change (config (with_option k o1 a)) with (config a) in Hrun.
  apply bind_returns in Hrun as (d & ad & Hd & Hrun).
  assert (default_for (config a) p = inr d ∧ ad = with_option k o1 a) as [Hdef ->].
  { unfold default_for. fold has. destruct has.
    - destruct (getitem (config a) (section p) (key p)) as [e | v]; [done |].
      cbn in Hd. by injection Hd as <- <-.
    - destruct (OPTIONS_default p) as [e | v]; [done |].
      cbn in Hd. by injection Hd as <- <-. }
  rewrite (bind_return _ _ _ _ _ (update_option_at k (with_default d) _ _ p Ho1)) in Hrun.
  rewrite with_option_with_option in Hrun.
  destruct (reset_returns_plan pf k (with_option k (with_default d o1) a)
              (with_default d o1) p a2
              ltac:(by eapply with_option_lookup) Hk Hrun) as (L & HL & Hr).
  unfold o1 in Hr.
  cbn [_widgets with_default set_label_active with_label enabled_as with_widgets] in Hr.
  rewrite roles_exist_fmap in Hr.
  destruct (read_option_plan pf k a o p d L Ho Hk Hdef HL Hr)
    as (a' & o' & Hrun' & Ho' & He & Hdf & Hc & _ & _ & Hkl).
  rewrite Hrun' in Hrun0. injection Hrun0 as <-. exists o', d. eauto 10.
Qed.

(** [read]: when it returns, the store is the parsed file, the parser's
    error, if any, has been shown, and every option that is no indicator is
    not changed, is enabled when the file has its key and disabled
    otherwise, and has for default the value of the file, resp. the default
    of the registry. *)
Theorem read_effect pf parsed error a a' :
  read pf parsed error a = (Return tt, a') →
  config a' = parsed
  ∧ shown_errors a' = (shown_errors a ++ match error with Some e => [e] | None => [] end)%list
  ∧ ∀ k o p, options a !! k = Some (o, p) → klass o ≠ IndicatorOption →
      changed_of a' k = Some false
      ∧ enabled_of a' k = Some (has_option parsed (section p) (key p))
      ∧ ∃ d, default_for parsed p = inr d ∧ default_of a' k = Some d.
Proof.
  unfold read. intros H.
  erewrite bind_return in H by reflexivity.
  set (a0 := with_config parsed a) in H.
  apply bind_returns in H as ([] & ae & He & H).
  assert (ae = with_shown_errors
                 (shown_errors a ++ match error with Some e => [e] | None => [] end) a0)
    as ->.
  { destruct error; cbn in He; injection He as <-; [done |].
    unfold a0. destruct a. cbn. by rewrite app_nil_r. }
  set (ae := with_shown_errors _ a0) in H.
  apply bind_returns in H as (n & a1 & [= <- <-] & H).
  change (options ae) with (options a) in H.
  assert (∀ j, preserves (λ a', config a' = parsed ∧ shown_errors a' = shown_errors ae)
                 (read_option pf j)) as Hframe.
  { intros j. apply preserves_and; by apply read_option_frame. }
  split; [|split].
  - pose proof (preserves_for_each _ (seq 0 (length (options a))) (read_option pf)
                  (λ j _, Hframe j) ae (conj eq_refl eq_refl)) as Hc.
    rewrite H in Hc. apply Hc.
  - pose proof (preserves_for_each _ (seq 0 (length (options a))) (read_option pf)
                  (λ j _, Hframe j) ae (conj eq_refl eq_refl)) as Hc.
    rewrite H in Hc. apply Hc.
  - intros k o p Ho Hk.
    assert (k < length (options a))%nat as Hlt by (by eapply lookup_lt_Some).
    destruct (for_each_through _ _ k ae a' Hlt H) as (a1 & a2 & H1 & H2 & H3).
    assert (kept k (o, p) a1 ∧ config a1 = parsed) as [Ho1 Hc1].
    { pose proof (preserves_for_each (λ a', kept k (o, p) a' ∧ config a' = parsed)
                    (seq 0 k) (read_option pf)) as Hpre.
      assert (∀ j, j ∈ seq 0 k →
                preserves (λ a', kept k (o, p) a' ∧ config a' = parsed)
                  (read_option pf j)) as Hbody.
      { intros j Hj%elem_of_seq. apply preserves_and.
        - apply other_read_option; [done | lia].
        - by apply read_option_frame. }
      specialize (Hpre Hbody ae (conj Ho eq_refl)). by rewrite H1 in Hpre. }
    destruct (read_option_returns pf a1 k o p a2 Ho1 Hk H2)
      as (o' & d & Ho2 & Hch & Hen & Hdef & Hfor & Hkl).
    assert (kept k (o', p) a') as Ho'.
    { pose proof (preserves_for_each (kept k (o', p))
                    (seq (S k) (length (options a) - S k)) (read_option pf)) as Hpre.
      assert (∀ j, j ∈ seq (S k) (length (options a) - S k) →
                preserves (kept k (o', p)) (read_option pf j)) as Hbody.
      { intros j Hj%elem_of_seq. apply other_read_option; [cbn; by rewrite Hkl | lia]. }
      specialize (Hpre Hbody a2 Ho2). by rewrite H3 in Hpre. }
    unfold kept in Ho'. unfold changed_of, enabled_of, default_of. rewrite !Ho'. cbn.
    rewrite Hch, Hen, Hc1. split; [done |]. split; [done |].
    exists d. split; [by rewrite <- Hc1 | by f_equal].
Qed.

Lemma read_effect_witness :
  config (read gtk3 (time_format_file "noon") None time_format_app).2
  = time_format_file "noon"
  ∧ shown_errors (read gtk3 (time_format_file "noon") None time_format_app).2
    = (shown_errors time_format_app ++ [])%list
  ∧ ∀ k o p, options time_format_app !! k = Some (o, p) → klass o ≠ IndicatorOption →
      changed_of (read gtk3 (time_format_file "noon") None time_format_app).2 k = Some false
      ∧ enabled_of (read gtk3 (time_format_file "noon") None time_format_app).2 k
        = Some (has_option (time_format_file "noon") (section p) (key p))
      ∧ ∃ d, default_for (time_format_file "noon") p = inr d
             ∧ default_of (read gtk3 (time_format_file "noon") None time_format_app).2 k
               = Some d.
Proof.
  apply (read_effect gtk3 (time_format_file "noon") None time_format_app
           (read gtk3 (time_format_file "noon") None time_format_app).2).
  apply returns_as. reflexivity.
Defined.
(** ** A click on the toggle of a row *)

(** [_on_toggled] for the row of the option: the state it leaves, from the
    state after its two writes of the row. *)
Lemma _on_toggled_run pf a i o p x :
  options a !! i = Some (o, p) →
  indicators_model a !! _row o = Some x →
  ∃ a2,
    clean_options a2 = clean_options a
    ∧ indicators_model a2
      = <[_row o := with_INCONSISTENT (1 <? toggle_state x)
                      (with_ENABLED (negb (toggle_state x mod 2 =? 0)) x)]>
          (indicators_model a)
    ∧ _on_toggled pf leaf_handler i (_row o) a
      = (Return tt,
         with_options
           (alter (prod_map (λ o, (if 1 <? toggle_state x then with_changed false
                                   else λ o, modify_font "bold" (with_changed true o))
                                    (with_enabled (toggle_state x <? 2) o)) id)
              i (options a2)) a2).
Proof.
  intros Ho Hx.
  set (st := toggle_state x).
  set (x1 := with_ENABLED (negb (st mod 2 =? 0)) x).
  set (m := indicators_model a). set (r := _row o).
  destruct (row_set_leaf_settled pf (clean_options a) m r
              (with_ENABLED (negb (st mod 2 =? 0))) x Hx a) as ([] & a1 & H1 & S1);
    [done |].
  assert (<[r := x1]> m !! r = Some x1) as Hx1.
  { apply list_lookup_insert_eq. by eapply lookup_lt_Some. }
  destruct (row_set_leaf_settled pf (clean_options a) (<[r := x1]> m) r
              (with_INCONSISTENT (1 <? st)) x1 Hx1 a1 S1) as ([] & a2 & H2 & [Hc2 Hm2]).
  exists a2. split; [done |]. split.
  { rewrite Hm2. by rewrite list_insert_insert_eq. }
  unfold _on_toggled.
  erewrite bind_return by (unfold get_option; by rewrite Ho).
  fold r. rewrite Nat.eqb_refl. cbn [negb].
  erewrite bind_return by (unfold get_row, r; by rewrite Hx).
  fold (toggle_state x). fold st.
  erewrite bind_return by exact H1.
  erewrite bind_return by exact H2.
  erewrite bind_return by reflexivity.
  destruct (1 <? st); unfold touch, update_option, modify, with_options;
    cbn [options indicators_model handlers config shown_errors written main_running];
    do 2 f_equal; rewrite list_alter_alter_eq;
    (apply list_alter_ext; [by intros [] | done]).
Qed.

(** The toggle renderer's signal does nothing for an option that is no
    indicator, or is bound to another row. *)
Lemma toggle_elsewhere pf j path a o p :
  options a !! j = Some (o, p) →
  (klass o = IndicatorOption → _row o ≠ path) →
  (get_option j ≫= λ o,
     match klass o with
     | IndicatorOption => emit_to (run_handler pf) j "toggle" "toggled" (RowRef path)
     | _ => mret tt
     end) a = (Return tt, a).
Proof.
  intros Ho Hrow. rewrite (bind_return _ _ _ _ _ (get_option_at j a o p Ho)).
  destruct (klass o) eqn:Hk; try done.
  unfold emit_to. rewrite (bind_return _ _ _ _ _ (get_option_at j a o p Ho)).
  unfold _signals. rewrite Hk. cbn [WidgetsBinding fmap option_fmap option_map default
                                     from_option map bind_item].
  apply for_each_noop. intros b Hb. unfold id in Hb.
  rewrite !elem_of_cons, elem_of_nil in Hb. destruct Hb as [-> | [-> | []]]; [done |].
  cbn [widget signal handler snd]. rewrite !String.eqb_refl. cbn [andb].
  erewrite bind_return by reflexivity.
  destruct (handlers a !! _) as [[|n]|]; try done.
  assert (_on_toggled pf leaf_handler j path a = (Return tt, a)) as Ht.
  { unfold _on_toggled. rewrite (bind_return _ _ _ _ _ (get_option_at j a o p Ho)).
    specialize (Hrow eq_refl). apply Nat.eqb_neq in Hrow. by rewrite Hrow. }
  change (swallow (_on_toggled pf leaf_handler j path) a = (Return tt, a)).
  unfold swallow. by rewrite Ht.
Qed.
Lemma clean_lookup_eq a a2 j o p :
  clean_options a2 = clean_options a → options a !! j = Some (o, p) →
  ∃ o2, options a2 !! j = Some (o2, p) ∧ untouched o2 = untouched o.
Proof.
  intros Hc Ho. apply clean_options_lookup_inv. rewrite Hc. by apply clean_options_lookup.
Qed.

(** The toggle renderer's signal, for an indicator whose handler is
    connected and not blocked, is the call of [_on_toggled]. *)
Lemma toggle_here pf i path a o p :
  options a !! i = Some (o, p) → klass o = IndicatorOption →
  handlers a !! (i, "toggle", "_on_toggled") = Some 0%nat →
  emit_to (run_handler pf) i "toggle" "toggled" (RowRef path) a
  = swallow (toggled pf i path) a.
Proof.
  intros Ho Hk Hh.
  unfold emit_to. rewrite (bind_return _ _ _ _ _ (get_option_at i a o p Ho)).
  unfold _signals. rewrite Hk.
  change ((mret tt ≫= λ _,
             (gets (λ a, handlers a !! (i, "toggle", "_on_toggled")) ≫= λ n,
                match n with
                | Some O => swallow (toggled pf i path)
                | _ => mret tt
                end) ≫= λ _, mret tt) a = swallow (toggled pf i path) a).
  rewrite bind_ret_l, bind_unit_r. erewrite bind_return by reflexivity. by rewrite Hh.
Qed.

(** A click on the toggle of the row of an indicator whose handler is
    connected and not blocked, when no other indicator is bound to that
    row: the signal of the renderer comes down to the one call of
    [_on_toggled] of that indicator; no other row is written and no other
    option is enabled or disabled. *)
Theorem cell_toggled_dispatch pf a i o p x :
  options a !! i = Some (o, p) → klass o = IndicatorOption →
  indicators_model a !! _row o = Some x →
  handlers a !! (i, "toggle", "_on_toggled") = Some 0%nat →
  (∀ j o' p', j ≠ i → options a !! j = Some (o', p') →
     klass o' = IndicatorOption → _row o' ≠ _row o) →
  ∃ a', cell_toggled pf (_row o) a = (Return tt, a')
        ∧ toggled pf i (_row o) a = (Return tt, a')
        ∧ (∀ r, r ≠ _row o → indicators_model a' !! r = indicators_model a !! r)
        ∧ (∀ j, j ≠ i → enabled_of a' j = enabled_of a j).
Proof.
  intros Ho Hk Hx Hh Hothers.
  destruct (_on_toggled_run pf a i o p x Ho Hx) as (a2 & Hc2 & Hm2 & Hrun).
  set (F := prod_map (λ o : OptionWrapper,
                        (if 1 <? toggle_state x then with_changed false
                         else λ o, modify_font "bold" (with_changed true o))
                          (with_enabled (toggle_state x <? 2) o)) id) in Hrun.
  set (a' := with_options (alter F i (options a2)) a2) in Hrun.
  assert (toggled pf i (_row o) a = (Return tt, a')) as Htog by exact Hrun.
  assert (∀ j oj pj, j ≠ i → options a !! j = Some (oj, pj) →
            ∃ oj', options a' !! j = Some (oj', pj) ∧ untouched oj' = untouched oj) as Hsame.
  { intros j oj pj Hj Hoj. unfold a'. cbn. rewrite list_lookup_alter_ne by done.
    by apply (clean_lookup_eq a). }
  assert (length (options a') = length (options a)) as Hlen.
  { unfold a'. cbn. rewrite length_alter. by apply clean_options_length. }
  assert (i < length (options a))%nat as Hi by (by eapply lookup_lt_Some).
  exists a'. split; [|split; [done |split]].
  - unfold cell_toggled. erewrite bind_return by reflexivity.
    rewrite (seq_split_at i _ Hi), for_each_app.
    erewrite bind_return.
    2: { apply for_each_noop. intros j Hj%elem_of_seq.
         destruct (lookup_lt_is_Some_2 (options a) j ltac:(lia)) as [[oj pj] Hoj].
         apply (toggle_elsewhere pf j (_row o) a oj pj Hoj).
         apply (Hothers j oj pj); [lia | done]. }
    cbn [for_each].
    erewrite bind_return.
    2: { rewrite (bind_return _ _ _ _ _ (get_option_at i a o p Ho)). rewrite Hk.
         rewrite (toggle_here pf i (_row o) a o p Ho Hk Hh).
         unfold swallow. by rewrite Htog. }
    apply for_each_noop. intros j Hj%elem_of_seq.
    destruct (lookup_lt_is_Some_2 (options a) j ltac:(lia)) as [[oj pj] Hoj].
    destruct (Hsame j oj pj ltac:(lia) Hoj) as (oj' & Hoj' & Hu).
    apply (toggle_elsewhere pf j (_row o) a' oj' pj Hoj').
    destruct (untouched_fields _ _ Hu) as (Hkl & _ & _ & Hr & _). cbn in Hkl, Hr.
    rewrite Hkl, Hr. apply (Hothers j oj pj); [lia | done].
  - intros r Hr. unfold a'. cbn. rewrite Hm2. by rewrite list_lookup_insert_ne.
  - intros j Hj. unfold enabled_of.
    destruct (options a !! j) as [[oj pj]|] eqn:Hoj.
    + destruct (Hsame j oj pj Hj Hoj) as (oj' & -> & Hu). cbn.
      by destruct (untouched_fields _ _ Hu) as (_ & _ & _ & _ & _ & ->).
    + assert (options a' !! j = None) as ->; [|done].
      apply lookup_ge_None. rewrite Hlen. by apply lookup_ge_None.
Qed.

Lemma cell_toggled_dispatch_witness :
  ∃ a', cell_toggled gtk3 0 indicators_app = (Return tt, a')
        ∧ toggled gtk3 0 0 indicators_app = (Return tt, a')
        ∧ (∀ r, r ≠ 0%nat → indicators_model a' !! r = indicators_model indicators_app !! r)
        ∧ (∀ j, j ≠ 0%nat → enabled_of a' j = enabled_of indicators_app j).
Proof.
  apply (cell_toggled_dispatch gtk3 indicators_app 0
           (fresh IndicatorOption (VBool true) [] 0) (path_of "clock" "enabled")
           (indicator_row "clock" true false)).
  - reflexivity.
  - reflexivity.
  - reflexivity.
  - reflexivity.
  - intros [|[|j]] o' p' Hj H Hk.
    + done.
    + injection H as <- _. discriminate.
    + discriminate H.
Defined.
(** ** [save], for any number of changed options *)

Lemma held_add_section cp s0 cp1 s k :
  add_section cp s0 = inr cp1 → held cp1 s k = held cp s k.
Proof.
  unfold add_section. destruct (String.eqb s0 default_section); [done |].
  destruct (has_section cp s0) eqn:Hhas; [done |]. intros [= <-].
  unfold held. cbn. destruct (decide (s0 = s)) as [-> | Hne].
  - rewrite lookup_insert_eq. cbn. rewrite lookup_empty.
    unfold has_section in Hhas. apply bool_decide_eq_false in Hhas.
    destruct (_sections cp !! s); [|done]. destruct Hhas. eauto.
  - by rewrite lookup_insert_ne.
Qed.

Lemma held_cp_set cp s0 k0 value cp2 :
  cp_set cp s0 k0 value = inr cp2 →
  (is_default s0 = false → held cp2 s0 (optionxform k0) = Some (Some value))
  ∧ ∀ s k, (s0, optionxform k0) ≠ (s, k) → held cp2 s k = held cp s k.
Proof.
  unfold cp_set.
  assert ((if String.eqb value "" then inr value else before_set value) = inr value
          ∨ ∃ e, (if String.eqb value "" then inr value else before_set value) = inl e)
    as [-> | [e ->]]; [| |done].
  { destruct (String.eqb value ""); [by left |]. unfold before_set.
    destruct (contains _ _); eauto. }
  cbn [rbind]. destruct (is_default s0) eqn:Hd.
  - intros [= <-]. split; [done |]. done.
  - destruct (_sections cp !! s0) as [d|] eqn:Hs; [|done]. intros [= <-]. split.
    + intros _. unfold held. cbn. rewrite lookup_insert_eq. cbn. by rewrite lookup_insert_eq.
    + intros s k Hne. unfold held. cbn. destruct (decide (s0 = s)) as [<- | Hs0].
      * rewrite lookup_insert_eq, Hs. cbn. rewrite lookup_insert_ne; [done |]. congruence.
      * by rewrite lookup_insert_ne.
Qed.

Lemma held_remove_option cp s0 k0 b cp2 :
  remove_option cp s0 k0 = inr (b, cp2) →
  (is_default s0 = false → held cp2 s0 (optionxform k0) = None)
  ∧ ∀ s k, (s0, optionxform k0) ≠ (s, k) → held cp2 s k = held cp s k.
Proof.
  unfold remove_option. destruct (is_default s0) eqn:Hd.
  - intros [= <- <-]. split; [done |]. done.
  - destruct (_sections cp !! s0) as [d|] eqn:Hs; [|done]. intros [= <- <-]. split.
    + intros _. unfold held. cbn. rewrite lookup_insert_eq. cbn. by rewrite lookup_delete_eq.
    + intros s k Hne. unfold held. cbn. destruct (decide (s0 = s)) as [<- | Hs0].
      * rewrite lookup_insert_eq, Hs. cbn. rewrite lookup_delete_ne; [done |]. congruence.
      * by rewrite lookup_insert_ne.
Qed.

(** Pruning takes no key away. *)
Lemma held_pruned cp s k : held (pruned cp) s k = held cp s k.
Proof.
  unfold held. rewrite pruned_sections. destruct (_sections cp !! s) as [d|]; [|done].
  destruct (decide _) as [(_ & -> & _) | _]; [cbn; by rewrite lookup_empty | done].
Qed.

(** The body of the diff loop for a changed option, when it returns. *)
Lemma save_option_returns pf j a o p a1 :
  options a !! j = Some (o, p) → _changed o = true →
  save_option pf j a = (Return tt, a1) →
  sans_config a1 = sans_config a
  ∧ if _enabled o
    then ∃ v cp1,
           (∀ s k, held cp1 s k = held (config a) s k)
           ∧ _get_widget_value pf j a = (Return v, a)
           ∧ cp_set cp1 (section p) (key p) (py_str v) = inr (config a1)
    else ∃ b, remove_option (config a) (section p) (key p) = inr (b, config a1).
Proof.
  intros Ho Hc Hrun. split.
  { pose proof (save_option_sans_config pf a j a eq_refl) as Hs. by rewrite Hrun in Hs. }
  unfold save_option in Hrun.
  rewrite (bind_return _ _ _ _ _ (get_option_at j a o p Ho)), Hc in Hrun.
  erewrite bind_return in Hrun by (unfold get_path; by rewrite Ho).
  destruct (_enabled o).
  - erewrite bind_return in Hrun by reflexivity.
    apply bind_returns in Hrun as ([] & a_s & Hsec & Hrun).
    assert (∃ cp1, a_s = with_config cp1 a ∧ ∀ s k, held cp1 s k = held (config a) s k)
      as (cp1 & -> & Hheld).
    { destruct (negb (has_section (config a) (section p))).
      - apply bind_returns in Hsec as (cp1 & a0 & Hadd & Hsec).
        destruct (add_section (config a) (section p)) as [e | cp'] eqn:E; [done |].
        cbn in Hadd. injection Hadd as <- <-. cbn in Hsec. injection Hsec as <-.
        exists cp'. split; [done |]. intros s k. by eapply held_add_section.
      - cbn in Hsec. injection Hsec as <-. exists (config a). split; [by destruct a | done]. }
    apply bind_returns in Hrun as (v & a_v & Hv & Hrun).
    assert (_get_widget_value pf j a = (Return v, a) ∧ a_v = with_config cp1 a) as [Hva ->].
    { destruct (_get_widget_value_reads_only pf j a (with_config cp1 a) eq_refl eq_refl)
        as (H1 & H2 & H3).
      rewrite Hv in H1, H3. cbn in H1, H3. split; [|done].
      destruct (_get_widget_value pf j a) as [r a0]. cbn in *. by subst. }
    erewrite bind_return in Hrun by reflexivity. cbn [config with_config] in Hrun.
    apply bind_returns in Hrun as (cp2 & a0 & Hset & Hrun).
    destruct (cp_set cp1 (section p) (key p) (py_str v)) as [e | cp'] eqn:E; [done |].
    cbn in Hset. injection Hset as <- <-. cbn in Hrun. injection Hrun as <-.
    exists v, cp1. by rewrite E.
  - erewrite bind_return in Hrun by reflexivity.
    apply bind_returns in Hrun as ([b cp2] & a0 & Hrem & Hrun).
    destruct (remove_option (config a) (section p) (key p)) as [e | [b' cp']] eqn:E; [done |].
    cbn in Hrem. injection Hrem as <- <- <-. cbn in Hrun. injection Hrun as <-.
    by exists b'.
Qed.

Lemma for_each_returns_inv {A} (Inv : Application → Prop) (l : list A)
    (body : A → M Application unit) :
  (∀ y a a1, y ∈ l → Inv a → body y a = (Return tt, a1) → Inv a1) →
  ∀ a a', Inv a → for_each l body a = (Return tt, a') → Inv a'.
Proof.
  induction l as [|y l IH]; intros Hbody a a' Ha H.
  - cbn in H. by injection H as <-.
  - cbn [for_each] in H. apply bind_returns in H as ([] & a1 & H1 & H).
    apply (IH (λ z a0 a2 Hz, Hbody z a0 a2 ltac:(by right)) a1 a'); [|done].
    apply (Hbody y a a1); [by left | done..].
Qed.

(** The body of the diff loop keeps what the store holds under a key that
    is not the key of its option. *)
Lemma save_option_other_key pf j os s k held0 a a1 :
  (∀ o p, os !! j = Some (o, p) → _changed o = true →
          (section p, optionxform (key p)) ≠ (s, k)) →
  options a = os ∧ held (config a) s k = held0 →
  save_option pf j a = (Return tt, a1) →
  options a1 = os ∧ held (config a1) s k = held0.
Proof.
  intros Hkey [Hos Hheld] Hrun.
  destruct (options a !! j) as [[o p]|] eqn:Ho.
  2: { unfold save_option, get_option, mbind, M_bind in Hrun. by rewrite Ho in Hrun. }
  destruct (_changed o) eqn:Hc.
  2: { rewrite (save_option_unchanged pf j a o p Ho Hc) in Hrun. by injection Hrun as <-. }
  destruct (save_option_returns pf j a o p a1 Ho Hc Hrun) as [Hs Hcfg].
  apply sans_config_fields in Hs as (Hopts & _). split; [congruence |].
  specialize (Hkey o p ltac:(by rewrite <- Hos) Hc).
  destruct (_enabled o).
  - destruct Hcfg as (v & cp1 & Hh1 & _ & Hset).
    destruct (held_cp_set _ _ _ _ _ Hset) as [_ Hother].
    by rewrite (Hother s k Hkey), Hh1.
  - destruct Hcfg as (b & Hrem).
    destruct (held_remove_option _ _ _ _ _ Hrem) as [_ Hother].
    by rewrite (Hother s k Hkey).
Qed.
Lemma _get_widget_value_transfer pf i a1 a r :
  options a1 = options a → indicators_model a1 = indicators_model a →
  _get_widget_value pf i a1 = (r, a1) → _get_widget_value pf i a = (r, a).
Proof.
  intros Ho Hm H.
  destruct (_get_widget_value_reads_only pf i a a1 Ho Hm) as (H1 & H2 & _).
  rewrite H in H1. cbn in H1.
  destruct (_get_widget_value pf i a) as [r' a']. cbn in *. by subst.
Qed.

Lemma shape_add_section cp s0 cp1 :
  add_section cp s0 = inr cp1 →
  _defaults cp1 = _defaults cp
  ∧ ∀ s, is_Some (_sections cp1 !! s) ↔ is_Some (_sections cp !! s) ∨ s = s0.
Proof.
  unfold add_section. destruct (String.eqb s0 default_section); [done |].
  destruct (has_section cp s0); [done |]. intros [= <-]. split; [done |].
  intros s. cbn. destruct (decide (s0 = s)) as [-> | Hne].
  - rewrite lookup_insert_eq. split; [by right | eauto].
  - rewrite lookup_insert_ne by done. split; [by left |]. by intros [? | ->].
Qed.

Lemma shape_cp_set cp s0 k0 value cp2 :
  is_default s0 = false → cp_set cp s0 k0 value = inr cp2 →
  _defaults cp2 = _defaults cp
  ∧ is_Some (_sections cp !! s0)
  ∧ ∀ s, is_Some (_sections cp2 !! s) ↔ is_Some (_sections cp !! s).
Proof.
  intros Hd. unfold cp_set.
  destruct (if String.eqb value "" then inr value else before_set value) as [e | v];
    [done |].
  cbn [rbind]. rewrite Hd.
  destruct (_sections cp !! s0) as [d|] eqn:Hs; [|done]. intros [= <-].
  split; [done |]. split; [eauto |]. intros s. cbn.
  destruct (decide (s0 = s)) as [<- | Hne].
  - rewrite lookup_insert_eq, Hs. split; eauto.
  - by rewrite lookup_insert_ne.
Qed.

Lemma shape_remove_option cp s0 k0 b cp2 :
  is_default s0 = false → remove_option cp s0 k0 = inr (b, cp2) →
  _defaults cp2 = _defaults cp
  ∧ is_Some (_sections cp !! s0)
  ∧ ∀ s, is_Some (_sections cp2 !! s) ↔ is_Some (_sections cp !! s).
Proof.
  intros Hd. unfold remove_option. rewrite Hd.
  destruct (_sections cp !! s0) as [d|] eqn:Hs; [|done]. intros [= <- <-].
  split; [done |]. split; [eauto |]. intros s. cbn.
  destruct (decide (s0 = s)) as [<- | Hne].
  - rewrite lookup_insert_eq, Hs. split; eauto.
  - by rewrite lookup_insert_ne.
Qed.

(** The body of the diff loop for a changed option outside [DEFAULT], when
    it returns: [DEFAULT] is as it was, and the sections are the ones there
    were, with the section of the option if the option is enabled; the
    section of a disabled option was there. *)
Lemma save_option_shape pf j a o p a1 :
  options a !! j = Some (o, p) → _changed o = true →
  is_default (section p) = false →
  save_option pf j a = (Return tt, a1) →
  _defaults (config a1) = _defaults (config a)
  ∧ is_Some (_sections (config a1) !! section p)
  ∧ ∀ s, is_Some (_sections (config a1) !! s)
         ↔ is_Some (_sections (config a) !! s) ∨ (_enabled o = true ∧ s = section p).
Proof.
  intros Ho Hc Hd Hrun. unfold save_option in Hrun.
  rewrite (bind_return _ _ _ _ _ (get_option_at j a o p Ho)), Hc in Hrun.
  erewrite bind_return in Hrun by (unfold get_path; by rewrite Ho).
  destruct (_enabled o).
  - erewrite bind_return in Hrun by reflexivity.
    apply bind_returns in Hrun as ([] & a_s & Hsec & Hrun).
    assert (∃ cp1, a_s = with_config cp1 a
                   ∧ _defaults cp1 = _defaults (config a)
                   ∧ ∀ s, is_Some (_sections cp1 !! s)
                          ↔ is_Some (_sections (config a) !! s) ∨ s = section p)
      as (cp1 & -> & Hdef1 & Hsec1).
    { destruct (has_section (config a) (section p)) eqn:Hhas; cbn [negb] in Hsec.
      - cbn in Hsec. injection Hsec as <-. exists (config a).
        split; [by destruct a |]. split; [done |]. intros s. split; [by left |].
        intros [? | ->]; [done |]. by apply bool_decide_eq_true in Hhas.
      - apply bind_returns in Hsec as (cp1 & a0 & Hadd & Hsec).
        destruct (add_section (config a) (section p)) as [e | cp'] eqn:E; [done |].
        cbn in Hadd. injection Hadd as <- <-. cbn in Hsec. injection Hsec as <-.
        exists cp'. split; [done |]. by apply shape_add_section. }
    apply bind_returns in Hrun as (v & a_v & Hv & Hrun).
    assert (a_v = with_config cp1 a) as ->.
    { destruct (_get_widget_value_reads_only pf j a (with_config cp1 a) eq_refl eq_refl)
        as (_ & _ & H3).
      rewrite Hv in H3. by cbn in H3. }
    erewrite bind_return in Hrun by reflexivity. cbn [config with_config] in Hrun.
    apply bind_returns in Hrun as (cp2 & a0 & Hset & Hrun).
    destruct (cp_set cp1 (section p) (key p) (py_str v)) as [e | cp'] eqn:E; [done |].
    cbn in Hset. injection Hset as <- <-. cbn in Hrun. injection Hrun as <-.
    destruct (shape_cp_set _ _ _ _ _ Hd E) as (Hdef2 & Hin & Hsec2). cbn [config with_config].
    split; [congruence |]. split; [by apply Hsec2 |].
    intros s. rewrite Hsec2, Hsec1.
    split; [intros [? | ->]; [by left | by right] | intros [? | [_ ->]]; [by left | by right]].
  - erewrite bind_return in Hrun by reflexivity.
    apply bind_returns in Hrun as ([b cp2] & a0 & Hrem & Hrun).
    destruct (remove_option (config a) (section p) (key p)) as [e | [b' cp']] eqn:E; [done |].
    cbn in Hrem. injection Hrem as <- <- <-. cbn in Hrun. injection Hrun as <-.
    destruct (shape_remove_option _ _ _ _ _ Hd E) as (Hdef2 & Hin & Hsec2).
    cbn [config with_config]. split; [done |]. split; [by apply Hsec2 |].
    intros s. rewrite Hsec2. split; [by left | by intros [? | [? _]]].
Qed.

(** The body of the diff loop, when it returns and no changed option sits
    in [DEFAULT]: the options and [DEFAULT] are kept, no section goes, and a
    section that comes is the section of a changed and enabled option. *)
Lemma save_option_kept pf a j a0 a1 :
  (∀ i o p, options a !! i = Some (o, p) → _changed o = true →
            is_default (section p) = false) →
  options a0 = options a →
  save_option pf j a0 = (Return tt, a1) →
  options a1 = options a
  ∧ _defaults (config a1) = _defaults (config a0)
  ∧ (∀ s, is_Some (_sections (config a0) !! s) → is_Some (_sections (config a1) !! s))
  ∧ (∀ s, is_Some (_sections (config a1) !! s) →
          is_Some (_sections (config a0) !! s) ∨ claimed a s).
Proof.
  intros Hnd Hos Hrun.
  destruct (options a0 !! j) as [[o p]|] eqn:Ho.
  2: { unfold save_option, get_option, mbind, M_bind in Hrun. by rewrite Ho in Hrun. }
  destruct (_changed o) eqn:Hc.
  2: { rewrite (save_option_unchanged pf j a0 o p Ho Hc) in Hrun. injection Hrun as <-.
       repeat split; eauto. }
  pose proof (save_option_sans_config pf a0 j a0 eq_refl) as Hs. rewrite Hrun in Hs.
  cbn in Hs. apply sans_config_fields in Hs as (Hopts & _).
  rewrite Hos in Ho.
  destruct (save_option_shape pf j a0 o p a1 ltac:(by rewrite Hos) Hc
              (Hnd j o p Ho Hc) Hrun) as (Hdef & _ & Hsec).
  split; [congruence |]. split; [done |]. split.
  - intros s Hs. apply Hsec. by left.
  - intros s Hs. apply Hsec in Hs as [? | [He ->]]; [by left |]. right.
    by exists j, o, p.
Qed.

(** [save], whenever it returns [True] and no changed option sits in
    [DEFAULT]: the store in memory is the one written, and the keys of
    [DEFAULT] are what they were.  For every changed option whose key no
    other changed option has: when the option is enabled, its section holds
    the text of its value under its lower-cased key, and [has_option] finds
    the key; when it is disabled, its section holds nothing under the key,
    and [has_option] finds the key exactly when [DEFAULT] holds it.  Every
    key of a section that is the key of no changed option holds what it held
    before.  A section other than [DEFAULT] is in the store exactly when it
    was there before or a changed and enabled option sits in it, and it
    holds a key or [DEFAULT] does. *)
Theorem save_applies_diff pf a a' :
  save pf None a = (Return true, a') →
  (∀ j o p, options a !! j = Some (o, p) → _changed o = true →
            is_default (section p) = false) →
  last_written a' = Some (config a')
  ∧ _defaults (config a') = _defaults (config a)
  ∧ (∀ i o p,
       options a !! i = Some (o, p) → _changed o = true →
       (∀ j o' p', j ≠ i → options a !! j = Some (o', p') → _changed o' = true →
          (section p', optionxform (key p')) ≠ (section p, optionxform (key p))) →
       if _enabled o
       then ∃ v, _get_widget_value pf i a = (Return v, a)
                 ∧ stored a' (section p) (optionxform (key p)) = Some (Some (py_str v))
                 ∧ has_option (config a') (section p) (key p) = true
       else stored a' (section p) (optionxform (key p)) = None
            ∧ has_option (config a') (section p) (key p)
              = bool_decide (is_Some (_defaults (config a) !! optionxform (key p))))
  ∧ (∀ s k,
       (∀ j o' p', options a !! j = Some (o', p') → _changed o' = true →
          (section p', optionxform (key p')) ≠ (s, k)) →
       stored a' s k = stored a s k)
  ∧ (∀ s, s ≠ "DEFAULT" →
       has_section (config a') s = true
       ↔ (has_section (config a) s = true ∨ claimed a s)
         ∧ ((∃ k, is_Some (stored a' s k)) ∨ _defaults (config a) ≠ ∅)).
Proof.
  unfold save. intros H Hnd.
  apply bind_returns in H as (n & a0 & [= <- <-] & H).
  apply bind_returns in H as ([] & am & Hdiff & H).
  rewrite (bind_return _ _ _ _ _ (prune_spec am)) in H. cbn in H. injection H as <-.
  assert (∀ s k, stored (with_written (written am ++ [pruned (config am)])
                           (with_config (pruned (config am)) am)) s k
                 = held (config am) s k) as Hstored.
  { intros s k. change (stored _ s k) with (held (pruned (config am)) s k).
    apply held_pruned. }
  cbn [config with_config with_written].
  (* [DEFAULT] and the sections along the loop *)
  assert (∀ l a1 a2, options a1 = options a →
            for_each l (save_option pf) a1 = (Return tt, a2) →
            options a2 = options a
            ∧ _defaults (config a2) = _defaults (config a1)
            ∧ (∀ s, is_Some (_sections (config a1) !! s) →
                    is_Some (_sections (config a2) !! s))
            ∧ (∀ s, is_Some (_sections (config a2) !! s) →
                    is_Some (_sections (config a1) !! s) ∨ claimed a s)) as Hloop.
  { induction l as [|j l IH]; intros a1 a2 Ho1 Hrun.
    - cbn in Hrun. injection Hrun as <-. repeat split; eauto.
    - cbn [for_each] in Hrun. apply bind_returns in Hrun as ([] & a3 & H1 & Hrun).
      destruct (save_option_kept pf a j a1 a3 Hnd Ho1 H1) as (Ho3 & Hd3 & Hm3 & Hf3).
      destruct (IH a3 a2 Ho3 Hrun) as (Ho2 & Hd2 & Hm2 & Hf2).
      split; [done |]. split; [congruence |]. split; [eauto |].
      intros s Hs. apply Hf2 in Hs as [Hs | ?]; [|by right]. by apply Hf3. }
  destruct (Hloop _ a am eq_refl Hdiff) as (Hom & Hdm & Hmm & Hfm).
  assert (_defaults (pruned (config am)) = _defaults (config a)) as Hdef by done.
  split; [unfold last_written; cbn; by rewrite last_snoc |].
  split; [done |]. split; [|split].
  - intros i o p Ho Hc Hothers. rewrite Hstored.
    pose proof (Hnd i o p Ho Hc) as Hd.
    assert (i < length (options a))%nat as Hi by (by eapply lookup_lt_Some).
    destruct (for_each_through _ _ i a am Hi Hdiff) as (a1 & a2 & H1 & H2 & H3).
    destruct (Hloop _ a a1 eq_refl H1) as (Ho1 & _).
    pose proof (diff_sans_config pf a i) as Hs1. rewrite H1 in Hs1. cbn in Hs1.
    apply sans_config_fields in Hs1 as (_ & Hm1 & _).
    destruct (save_option_returns pf i a1 o p a2 ltac:(by rewrite Ho1) Hc H2) as [Hs2 Hcfg].
    apply sans_config_fields in Hs2 as (Ho2 & _).
    destruct (save_option_shape pf i a1 o p a2 ltac:(by rewrite Ho1) Hc Hd H2)
      as (_ & Hin2 & _).
    destruct (Hloop _ a2 am ltac:(congruence) H3) as (_ & _ & Hm3 & _).
    apply Hm3 in Hin2 as [d Hsec].
    assert (∀ h0, held (config a2) (section p) (optionxform (key p)) = h0 →
                  held (config am) (section p) (optionxform (key p)) = h0) as Hsuffix.
    { intros h0 Hh0.
      apply (for_each_returns_inv
               (λ a0, options a0 = options a
                      ∧ held (config a0) (section p) (optionxform (key p)) = h0)
               (seq (S i) (length (options a) - S i)) (save_option pf)) with (a := a2);
        [| split; [congruence | done] | done].
      intros j a3 a4 Hj%elem_of_seq Ha3 Hrun.
      apply (save_option_other_key pf j (options a) _ _ h0 a3 a4); [|done..].
      intros o' p' Ho' Hc'. apply (Hothers j o' p'); [lia | done..]. }
    assert (has_option (pruned (config am)) (section p) (key p)
            = bool_decide (is_Some (held (config am) (section p) (optionxform (key p))))
              || bool_decide (is_Some (_defaults (config a) !! optionxform (key p))))
      as Hhas.
    { unfold has_option, held. rewrite Hd, pruned_sections, Hsec. cbn [mbind option_bind].
      destruct (decide _) as [(_ & -> & Hde) | _]; [|by rewrite Hdef].
      rewrite lookup_empty, <- Hdm, Hde, lookup_empty.
      rewrite bool_decide_eq_false_2; [done |]. by intros [? ?]. }
    rewrite Hhas.
    destruct (_enabled o).
    + destruct Hcfg as (v & cp1 & _ & Hv & Hset). exists v. split.
      * by apply (_get_widget_value_transfer pf i a1 a).
      * rewrite (Hsuffix (Some (Some (py_str v))));
          [| by apply (held_cp_set _ _ _ _ _ Hset)].
        split; [done |]. by rewrite bool_decide_eq_true_2 by eauto.
    + destruct Hcfg as (b & Hrem).
      rewrite (Hsuffix None); [| by apply (held_remove_option _ _ _ _ _ Hrem)].
      split; [done |]. rewrite bool_decide_eq_false_2; [done |]. by intros [? ?].
  - intros s k Hkeys. rewrite Hstored. change (stored a s k) with (held (config a) s k).
    apply (for_each_returns_inv
             (λ a0, options a0 = options a ∧ held (config a0) s k = held (config a) s k)
             (seq 0 (length (options a))) (save_option pf)) with (a := a); [|done..].
    intros j a3 a4 _ Ha3 Hrun.
    apply (save_option_other_key pf j (options a) s k _ a3 a4); [|done..].
    intros o' p' Ho' Hc'. by apply (Hkeys j o' p').
  - intros s Hs. unfold has_section. rewrite !bool_decide_eq_true, pruned_sections.
    assert (∀ k, stored (with_written (written am ++ [pruned (config am)])
                           (with_config (pruned (config am)) am)) s k
                 = _sections (config am) !! s ≫= λ d, d !! k) as Hst
      by (intros k; by rewrite Hstored).
    split.
    + destruct (_sections (config am) !! s) as [d|] eqn:Hsec; [|by intros [? ?]].
      destruct (decide _) as [? | Hne]; [by intros [? ?] |]. intros _. split.
      * apply Hfm. by rewrite Hsec.
      * destruct (decide (d = ∅)) as [-> | Hd].
        -- right. rewrite <- Hdm. intros He. apply Hne. done.
        -- left. apply map_choose in Hd as (k & v & Hk). exists k.
           rewrite Hst. cbn. by rewrite Hk.
    + intros [Hin Hkeep].
      assert (is_Some (_sections (config am) !! s)) as [d Hsec].
      { destruct Hin as [Hin | (i & o & p & Ho & Hc & He & <-)]; [by apply Hmm |].
        assert (i < length (options a))%nat as Hi by (by eapply lookup_lt_Some).
        destruct (for_each_through _ _ i a am Hi Hdiff) as (a1 & a2 & H1 & H2 & H3).
        destruct (Hloop _ a a1 eq_refl H1) as (Ho1 & _).
        pose proof (save_option_sans_config pf a1 i a1 eq_refl) as Hs2. rewrite H2 in Hs2.
        cbn in Hs2. apply sans_config_fields in Hs2 as (Ho2 & _).
        destruct (save_option_shape pf i a1 o p a2 ltac:(by rewrite Ho1) Hc
                    (Hnd i o p Ho Hc) H2) as (_ & Hin2 & _).
        destruct (Hloop _ a2 am ltac:(congruence) H3) as (_ & _ & Hm3 & _).
        by apply Hm3. }
      rewrite Hsec. rewrite decide_False; [eauto |].
      intros (_ & -> & Hde). destruct Hkeep as [(k & Hk) | Hk].
      * rewrite Hst, Hsec in Hk. cbn in Hk. rewrite lookup_empty in Hk. by destruct Hk.
      * apply Hk. by rewrite <- Hdm.
Qed.

Lemma save_applies_diff_witness :
  last_written (save gtk3 None theme_off_under_default).2
  = Some (config (save gtk3 None theme_off_under_default).2)
  ∧ _defaults (config (save gtk3 None theme_off_under_default).2)
    = _defaults (config theme_off_under_default)
  ∧ (∀ i o p,
       options theme_off_under_default !! i = Some (o, p) → _changed o = true →
       (∀ j o' p', j ≠ i → options theme_off_under_default !! j = Some (o', p') →
          _changed o' = true →
          (section p', optionxform (key p')) ≠ (section p, optionxform (key p))) →
       if _enabled o
       then ∃ v, _get_widget_value gtk3 i theme_off_under_default
                 = (Return v, theme_off_under_default)
                 ∧ stored (save gtk3 None theme_off_under_default).2
                     (section p) (optionxform (key p)) = Some (Some (py_str v))
                 ∧ has_option (config (save gtk3 None theme_off_under_default).2)
                     (section p) (key p) = true
       else stored (save gtk3 None theme_off_under_default).2
              (section p) (optionxform (key p)) = None
            ∧ has_option (config (save gtk3 None theme_off_under_default).2)
                (section p) (key p)
              = bool_decide (is_Some (_defaults (config theme_off_under_default)
                                        !! optionxform (key p))))
  ∧ (∀ s k,
       (∀ j o' p', options theme_off_under_default !! j = Some (o', p') →
          _changed o' = true → (section p', optionxform (key p')) ≠ (s, k)) →
       stored (save gtk3 None theme_off_under_default).2 s k
       = stored theme_off_under_default s k)
  ∧ (∀ s, s ≠ "DEFAULT" →
       has_section (config (save gtk3 None theme_off_under_default).2) s = true
       ↔ (has_section (config theme_off_under_default) s = true
          ∨ claimed theme_off_under_default s)
         ∧ ((∃ k, is_Some (stored (save gtk3 None theme_off_under_default).2 s k))
            ∨ _defaults (config theme_off_under_default) ≠ ∅)).
Proof.
  apply (save_applies_diff gtk3 theme_off_under_default
           (save gtk3 None theme_off_under_default).2).
  - apply returns_as. reflexivity.
  - intros [|[|j]] o p H _; [injection H as _ <- | injection H as _ <- | discriminate H];
      reflexivity.
Defined.
(** ** The handler table under the value setter

    Handlers are blocked and unblocked by [block_signals] only: what the
    setters write and what the handlers they wake do leaves the table of
    connected handlers as it is. *)

Section Table.
Context (pf : Platform).
Variable h : gmap (nat * string * string) nat.

Lemma table_update_option j f : preserves (λ a, handlers a = h) (update_option j f).
Proof. by intros a Ha. Qed.

Lemma table_swallow {A} (m : M Application A) :
  preserves (λ a, handlers a = h) m → preserves (λ a, handlers a = h) (swallow m).
Proof. intros Hm a Ha. unfold swallow. specialize (Hm a Ha). by destruct (m a) as [[]]. Qed.

Lemma table_leaf_handler n j args : preserves (λ a, handlers a = h) (leaf_handler n j args).
Proof.
  unfold leaf_handler, touch.
  repeat first [ apply table_update_option | progress reads_steps ].
Qed.

Section Run.
Variable run : string → nat → sigargs → M Application unit.
Hypothesis Hrun : ∀ n j args, preserves (λ a, handlers a = h) (run n j args).

Lemma table_emit_to j role sig args :
  preserves (λ a, handlers a = h) (emit_to run j role sig args).
Proof.
  unfold emit_to. apply preserves_bind; [apply preserves_get_option | intros o].
  apply preserves_for_each. intros b _.
  destruct (_ && _); [|apply preserves_ret].
  apply preserves_bind; [apply preserves_gets | intros n].
  destruct n as [[|n]|]; try apply preserves_ret. apply table_swallow, Hrun.
Qed.

Lemma table_emit j role sig args d :
  preserves (λ a, handlers a = h) (emit pf run j role sig args d).
Proof. unfold emit. destruct (emits pf sig d); [apply table_emit_to | apply preserves_ret]. Qed.

Lemma table_emit_shared role sig args d :
  preserves (λ a, handlers a = h) (emit_shared pf run role sig args d).
Proof.
  unfold emit_shared. destruct (emits pf sig d); [|apply preserves_ret].
  apply preserves_bind; [apply preserves_gets | intros n].
  apply preserves_for_each. intros j _.
  apply preserves_bind; [apply preserves_get_option | intros o].
  destruct (klass o); try apply preserves_ret. apply table_emit_to.
Qed.

Ltac table_steps :=
  unfold unselect_all, set_active, set_text, set_sensitive, set_font_name, set_color,
    select_filename, put_widget, touch, row_set;
  repeat match goal with
    | |- preserves _ (mret _) => apply preserves_ret
    | |- preserves _ (raise _) => apply preserves_raise
    | |- preserves _ (gets _) => apply preserves_gets
    | |- preserves _ (modify _) => by intros ? ?
    | |- preserves _ (get_option _) => apply preserves_get_option
    | |- preserves _ (get_row _) => apply preserves_get_row
    | |- preserves _ (get_widget _ _) => apply preserves_get_widget
    | |- preserves _ (update_option _ _) => apply table_update_option
    | |- preserves _ (emit _ _ _ _ _ _ _) => apply table_emit
    | |- preserves _ (emit_shared _ _ _ _ _ _) => apply table_emit_shared
    | |- preserves _ (_ ≫= _) => apply preserves_bind; [|intros ?]
    | |- preserves _ (if ?c then _ else _) => destruct c
    | |- preserves _ (match ?c with _ => _ end) => destruct c
    end.

Lemma table_set_active j role v :
  preserves (λ a, handlers a = h) (set_active pf run j role v).
Proof. by table_steps. Qed.

Lemma table_row_set r f : preserves (λ a, handlers a = h) (row_set pf run r f).
Proof. by table_steps. Qed.

Lemma table__set_widget_value j v :
  preserves (λ a, handlers a = h) (_set_widget_value pf run j v).
Proof. unfold _set_widget_value. by table_steps. Qed.

(** [_set_enabled(value, True)], as the handler of the label calls it. *)
Lemma table__set_enabled j v :
  preserves (λ a, handlers a = h) (_set_enabled pf run j v true).
Proof.
  unfold _set_enabled, OptionWrapper_set_enabled. cbn [negb andb].
  apply preserves_bind; [|intros _].
  - apply preserves_bind; [apply table_update_option | intros _].
    apply preserves_bind; [apply preserves_get_option | intros o].
    apply preserves_bind; [|intros _; apply preserves_ret].
    apply preserves_for_each. intros role _. by table_steps.
  - apply preserves_bind; [apply preserves_get_option | intros o].
    destruct (klass o); try apply preserves_ret. apply table_row_set.
Qed.

Lemma table__on_label_toggled j :
  preserves (λ a, handlers a = h) (_on_label_toggled pf run j).
Proof.
  unfold _on_label_toggled. apply preserves_bind; [apply preserves_get_option | intros o].
  destruct (_label o); [|apply preserves_raise].
  apply preserves_bind; [apply table__set_enabled | intros _]. apply table_update_option.
Qed.

Lemma table__on_toggled j path :
  preserves (λ a, handlers a = h) (_on_toggled pf run j path).
Proof.
  unfold _on_toggled. apply preserves_bind; [apply preserves_get_option | intros o].
  destruct (negb _); [apply preserves_ret |].
  apply preserves_bind; [apply preserves_get_row | intros y].
  apply preserves_bind; [apply table_row_set | intros _].
  apply preserves_bind; [apply table_row_set | intros _].
  apply preserves_bind; [apply table_update_option | intros _].
  destruct (1 <? _); apply table_update_option.
Qed.
End Run.

Lemma table_run_handler n j args :
  preserves (λ a, handlers a = h) (run_handler pf n j args).
Proof.
  unfold run_handler.
  repeat match goal with
    | |- preserves _ (if ?c then _ else _) => destruct c
    end.
  - apply preserves_bind; [|intros _; apply table_update_option].
    apply table_set_active, table_leaf_handler.
  - apply preserves_bind; [|intros _; apply table_update_option].
    apply table_set_active, table_leaf_handler.
  - apply preserves_bind; [|intros _; apply table_update_option].
    apply table_set_active, table_leaf_handler.
  - destruct args; try apply preserves_ret. apply table__on_toggled, table_leaf_handler.
  - apply table__on_label_toggled, table_leaf_handler.
  - apply table_leaf_handler.
Qed.
End Table.

(** The value setter and the handler table: when the setter returns, every
    handler has the block count it had before; when it raises, the handlers
    [block_signals] has blocked stay blocked ([blocked_by] counts them), as
    there is no [finally]. *)
Theorem value_setter_handlers pf a i o p v :
  options a !! i = Some (o, p) →
  handlers (set_value pf (run_handler pf) i v a).2
  = match (set_value pf (run_handler pf) i v a).1 with
    | Return _ => handlers a
    | Raise _ => blocked_by (default [] (_signals i o)) (handlers a)
    end.
Proof.
  intros Ho. unfold set_value.
  rewrite (bind_return _ _ _ _ _ (get_option_at i a o p Ho)).
  destruct (_signals i o) as [ws|]; cbn [default from_option].
  - unfold block_signals. erewrite bind_return by apply block_all_spec.
    pose proof (table__set_widget_value pf (blocked_by ws (handlers a)) (run_handler pf)
                  (table_run_handler pf _) i v
                  (with_handlers (blocked_by ws (handlers a)) a) eq_refl) as Hh.
    destruct (_set_widget_value pf (run_handler pf) i v
                (with_handlers (blocked_by ws (handlers a)) a)) as [[[] | e] a1] eqn:E.
    + rewrite (bind_return _ _ _ _ _ E).
      erewrite bind_return by apply unblock_all_spec.
      cbn in *. rewrite Hh. apply unblocked_blocked.
    + rewrite (bind_raise _ _ _ _ _ E). exact Hh.
  - pose proof (table__set_widget_value pf (handlers a) (run_handler pf)
                  (table_run_handler pf _) i v a eq_refl) as Hh.
    destruct (_set_widget_value pf (run_handler pf) i v a) as [[[] | e] a1]; exact Hh.
Qed.

Lemma value_setter_handlers_witness :
  handlers (set_value gtk3 (run_handler gtk3) 0 VNone background_app).2
  = match (set_value gtk3 (run_handler gtk3) 0 VNone background_app).1 with
    | Return _ => handlers background_app
    | Raise _ => blocked_by (default [] (_signals 0 background_option))
                   (handlers background_app)
    end.
Proof.
  apply (value_setter_handlers gtk3 background_app 0 background_option
           (path_of "appearance" "background") VNone).
  reflexivity.
Defined.
